(** * Pothole dataset preparation: polygon labels to boxes and masks

    A shallow embedding of the two transforms of [data_preparation.ipynb]:
    [convert_polygons_to_bboxes] (polygon label files to YOLO box files) and
    [extract_masks_and_bboxes] (polygon label file to instance masks and
    pixel boxes), and of the loop that calls the second on every image.

    Python values are modelled as the interpreter has them: [str] as
    [string] (the ASCII range), [int] as [Z], [float] as the kernel's
    binary64 [float] with its IEEE operations, an exception as an error
    result that ends the computation. The two OpenCV calls of the extractor
    are parameters of its model, and a directory is what its path leads to.

    Contents: exceptions; strings ([strip], [split], lines of a file);
    floats ([float], [round], [min], [max], the [.6f] format); slices; the
    file system; the converter; arrays; the extractor; the contract of the
    labelling call and reference implementations of the OpenCV calls;
    examples; the loop over the images; then the properties C1 to C10 and
    the further properties X1 to X23. *)

From Stdlib Require Import ZArith List String Ascii Bool Lia Floats DecimalString.
Import ListNotations.

Local Open Scope string_scope.
Local Open Scope list_scope.
Local Open Scope Z_scope.

(* ================================================================= *)
(** ** Exceptions *)

(** The Python exceptions the two functions can raise. *)
Inductive exn : Set :=
| ValueError
| IndexError
| OverflowError
| FileNotFoundError.

Inductive result (A : Type) : Type :=
| Ok (a : A)
| Raise (e : exn).

Arguments Ok {A} a.
Arguments Raise {A} e.

Definition bind {A B : Type} (r : result A) (k : A -> result B) : result B :=
  match r with
  | Ok a => k a
  | Raise e => Raise e
  end.

Notation "x <- r ;; k" := (bind r (fun x => k))
  (at level 61, r at next level, right associativity).
Notation "' p <- r ;; k" := (bind r (fun x => let p := x in k))
  (at level 61, p pattern, r at next level, right associativity).

Definition is_ok {A : Type} (r : result A) : bool :=
  match r with Ok _ => true | Raise _ => false end.

(** [[f(x) for x in l]]: the first exception aborts the comprehension. *)
Fixpoint mapM {A B : Type} (f : A -> result B) (l : list A) : result (list B) :=
  match l with
  | [] => Ok []
  | x :: r => y <- f x ;; ys <- mapM f r ;; Ok (y :: ys)
  end.

(* ================================================================= *)
(** ** Strings *)

Module Str.

Definition nl : ascii := "010"%char.
Definition cr : ascii := "013"%char.

(** [str.isspace] on the ASCII range: TAB, LF, VT, FF, CR, the four
    separators FS, GS, RS, US, and the space. Python counts further
    characters outside that range as white space (U+0085, U+00A0 and others),
    and [float] reads the decimal digits of other scripts: the properties
    that say which tokens a text has, or that a text is rejected, are stated
    for texts that are ASCII ([isascii] below). *)
Definition isspace (c : ascii) : bool :=
  let n := nat_of_ascii c in
  ((9 <=? n) && (n <=? 13) || (28 <=? n) && (n <=? 32))%nat.

Definition isdigit (c : ascii) : bool :=
  let n := nat_of_ascii c in ((48 <=? n) && (n <=? 57))%nat.

Fixpoint lstrip (s : string) : string :=
  match s with
  | String c r => if isspace c then lstrip r else s
  | EmptyString => EmptyString
  end.

Fixpoint rstrip (s : string) : string :=
  match s with
  | EmptyString => EmptyString
  | String c r =>
      match rstrip r with
      | EmptyString => if isspace c then EmptyString else String c EmptyString
      | r' => String c r'
      end
  end.

(** [s.strip()] *)
Definition strip (s : string) : string := rstrip (lstrip s).

(** [s.split()]: the maximal runs of non-whitespace characters. *)
Fixpoint split (s : string) : list string :=
  match s with
  | EmptyString => []
  | String c r =>
      if isspace c then split r
      else
        match r with
        | EmptyString => [String c EmptyString]
        | String c' _ =>
            if isspace c' then String c EmptyString :: split r
            else
              match split r with
              | t :: ts => String c t :: ts
              | [] => [String c EmptyString]
              end
        end
  end.

(** Iterating a text file (and [f.readlines()]): the lines with their
    terminator, read with universal newlines (LF, CR LF and CR all end a
    line and are handed over as LF). *)
Fixpoint readlines (s : string) : list string :=
  match s with
  | EmptyString => []
  | String c r =>
      if Ascii.eqb c nl then String nl EmptyString :: readlines r
      else if Ascii.eqb c cr then
        match r with
        | EmptyString => [String nl EmptyString]
        | String c' _ =>
            if Ascii.eqb c' nl then readlines r
            else String nl EmptyString :: readlines r
        end
      else
        match readlines r with
        | l :: ls => String c l :: ls
        | [] => [String c EmptyString]
        end
  end.

(** [s.isascii()] *)
Fixpoint isascii (s : string) : bool :=
  match s with
  | EmptyString => true
  | String c r => (nat_of_ascii c <? 128)%nat && isascii r
  end.

(** [s.endswith(suf)] *)
Definition endswith (s suf : string) : bool :=
  let n := String.length s in
  let m := String.length suf in
  (m <=? n)%nat && String.eqb (substring (n - m) m s) suf.

(** [sep.join(l)] *)
Definition join (sep : string) (l : list string) : string := String.concat sep l.

(** [str(n)] for an [int]. *)
Definition of_int (n : Z) : string := NilZero.string_of_int (Z.to_int n).

Definition lower (c : ascii) : ascii :=
  let n := nat_of_ascii c in
  if ((65 <=? n) && (n <=? 90))%nat then ascii_of_nat (n + 32) else c.

Fixpoint lowercase (s : string) : string :=
  match s with
  | EmptyString => EmptyString
  | String c r => String (lower c) (lowercase r)
  end.

End Str.

(* ================================================================= *)
(** ** Floats *)

Module Float.

(** *** [float(s)] *)

Definition digit_val (c : ascii) : Z := Z.of_nat (nat_of_ascii c) - 48.

(** Underscores are accepted between two digits only; they are dropped
    before the number is read. [prev] is the previous character. *)
Fixpoint drop_underscores (prev : option ascii) (s : string) : option string :=
  match s with
  | EmptyString =>
      match prev with
      | Some c => if Ascii.eqb c "_" then None else Some EmptyString
      | None => Some EmptyString
      end
  | String c r =>
      let prev_digit := match prev with Some p => Str.isdigit p | None => false end in
      let prev_under := match prev with Some p => Ascii.eqb p "_" | None => false end in
      if Ascii.eqb c "_" then
        if prev_digit then drop_underscores (Some c) r else None
      else if prev_under && negb (Str.isdigit c) then None
      else option_map (String c) (drop_underscores (Some c) r)
  end.

(** An optional sign: [true] is minus. *)
Definition read_sign (s : string) : bool * string :=
  match s with
  | String c r =>
      if Ascii.eqb c "-" then (true, r)
      else if Ascii.eqb c "+" then (false, r)
      else (false, s)
  | EmptyString => (false, s)
  end.

(** The longest prefix of decimal digits, accumulated on [acc]; [cnt]
    counts the digits read. *)
Fixpoint read_digits (acc cnt : Z) (s : string) : Z * Z * string :=
  match s with
  | String c r =>
      if Str.isdigit c then read_digits (10 * acc + digit_val c) (cnt + 1) r
      else (acc, cnt, s)
  | EmptyString => (acc, cnt, s)
  end.

(** An unsigned decimal literal [digits [. digits] [(e|E) [sign] digits]]
    with at least one digit before the exponent, read to the end of the
    string: the integer [m] and the power of ten [k] with value [m * 10^k]. *)
Definition read_decimal (s : string) : option (Z * Z) :=
  let '(ip, n1, s1) := read_digits 0 0 s in
  let '(m, n2, s2) :=
    match s1 with
    | String c r => if Ascii.eqb c "." then read_digits ip 0 r else (ip, 0, s1)
    | EmptyString => (ip, 0, s1)
    end in
  if n1 + n2 =? 0 then None
  else
    match s2 with
    | EmptyString => Some (m, - n2)
    | String c r =>
        if Ascii.eqb c "e" || Ascii.eqb c "E" then
          let '(es, r1) := read_sign r in
          let '(ev, n3, r2) := read_digits 0 0 r1 in
          if n3 =? 0 then None
          else
            match r2 with
            | EmptyString => Some (m, (if es then - ev else ev) - n2)
            | String _ _ => None
            end
        else None
    end.

(** The binary64 number nearest to [m * 10^k] (ties to even), overflow
    giving an infinity: the correctly rounded conversion of [strtod]. *)
Definition of_decimal (s : bool) (m k : Z) : spec_float :=
  match m with
  | Zpos p =>
      if 0 <=? k then binary_round prec emax s (Z.to_pos (Zpos p * 10 ^ k)) 0
      else
        let '(q, e, l) := SFdiv_core_binary prec emax (Zpos p) 0 (10 ^ (- k)) 0 in
        binary_round_aux prec emax s q e l
  | _ => S754_zero s
  end.

(** [float(s)] for a string: [None] stands for the [ValueError] raised on
    a string that is not a float literal. *)
Definition of_string (s : string) : option float :=
  match drop_underscores None (Str.strip s) with
  | None => None
  | Some t =>
      let '(sg, body) := read_sign t in
      let low := Str.lowercase body in
      if String.eqb low "inf" || String.eqb low "infinity" then
        Some (SF2Prim (S754_infinity sg))
      else if String.eqb low "nan" then Some (SF2Prim S754_nan)
      else
        match read_decimal body with
        | Some (m, k) => Some (SF2Prim (of_decimal sg m k))
        | None => None
        end
  end.

Definition float_of_str (s : string) : result float :=
  match of_string s with
  | Some x => Ok x
  | None => Raise ValueError
  end.

(** *** [float(n)] for an [int]: the nearest binary64 number, and
    [OverflowError] beyond the finite range. *)
Definition of_int (n : Z) : result float :=
  match binary_normalize prec emax n 0 false with
  | S754_infinity _ => Raise OverflowError
  | x => Ok (SF2Prim x)
  end.

(** *** Rounding to an integer, ties to even *)

(** The integer nearest to [n / d] for [d > 0], ties to the even one. *)
Definition div_half_even (n d : Z) : Z :=
  let q := n / d in
  let r := n mod d in
  match 2 * r ?= d with
  | Lt => q
  | Eq => if Z.even q then q else q + 1
  | Gt => q + 1
  end.

(** The integer nearest to [m * 2^e * 10^p]. *)
Definition scaled_half_even (m : positive) (e : Z) (p : Z) : Z :=
  if 0 <=? e then Zpos m * 2 ^ e * 10 ^ p
  else div_half_even (Zpos m * 10 ^ p) (2 ^ (- e)).

(** [round(x)] for a float: [ValueError] on a NaN, [OverflowError] on an
    infinity. *)
Definition round (x : float) : result Z :=
  match Prim2SF x with
  | S754_nan => Raise ValueError
  | S754_infinity _ => Raise OverflowError
  | S754_zero _ => Ok 0
  | S754_finite s m e => Ok (cond_Zopp s (scaled_half_even m e 0))
  end.

(** *** [format(x, ".6f")] *)

Fixpoint pad_digits (n : nat) (v : Z) : string :=
  match n with
  | O => EmptyString
  | S n' =>
      String (ascii_of_nat (48 + Z.to_nat ((v / 10 ^ Z.of_nat n') mod 10)))
             (pad_digits n' v)
  end.

(** The fixed-point text of [v / 10^6] for [v >= 0]. *)
Definition fixed6 (neg : bool) (v : Z) : string :=
  (if neg then "-" else "") ++ Str.of_int (v / 1000000) ++ "." ++
  pad_digits 6 (v mod 1000000).

Definition format_6f (x : float) : string :=
  match Prim2SF x with
  | S754_nan => "nan"
  | S754_infinity s => if s then "-inf" else "inf"
  | S754_zero s => fixed6 s 0
  | S754_finite s m e => fixed6 s (scaled_half_even m e 6)
  end.

(** *** [min] and [max] of a non-empty sequence: the first extremal item *)

Definition min_step (cur item : float) : float :=
  if (item <? cur)%float then item else cur.

Definition max_step (cur item : float) : float :=
  if (cur <? item)%float then item else cur.

Definition min (l : list float) : result float :=
  match l with
  | [] => Raise ValueError
  | x :: r => Ok (fold_left min_step r x)
  end.

Definition max (l : list float) : result float :=
  match l with
  | [] => Raise ValueError
  | x :: r => Ok (fold_left max_step r x)
  end.

End Float.

(* ================================================================= *)
(** ** Sequences *)

Section Seq.
Context {A : Type}.

(** [l[0::2]] *)
Fixpoint slice_even (l : list A) : list A :=
  match l with
  | [] => []
  | x :: r => x :: match r with [] => [] | _ :: r' => slice_even r' end
  end.

(** [l[1::2]] *)
Definition slice_odd (l : list A) : list A := slice_even (tl l).

(** [l[i]] for [i >= 0] *)
Definition getitem (l : list A) (i : nat) : result A :=
  match nth_error l i with
  | Some x => Ok x
  | None => Raise IndexError
  end.
End Seq.

(** [range(0, n, 2)] *)
Definition range_by_2 (n : nat) : list nat :=
  map (fun k => 2 * k)%nat (seq 0 (Nat.div2 (n + 1))).

(* ================================================================= *)
(** ** The file system *)

(** A directory is not its path: the operating system resolves a path, and
    two paths can lead to one directory ([labels] and [labels/], a relative
    and an absolute path, two spellings on a file system that ignores case, a
    link). The model starts after that resolution: a directory is a value of
    a type [D] with a decidable equality, two different values are two
    different directories, and the arguments [label_dir], [bbox_dir] and
    [image_dir] of the code are the directories that the paths given to it
    lead to. *)
Class Directory (D : Type) : Type := {
  same_dir : D -> D -> bool;
  same_dir_spec : forall a b : D, reflect (a = b) (same_dir a b)
}.

(** The content of a directory is the list of its files, in the order
    [os.listdir] gives them, each with its text; the file system maps a
    directory to its content, when it exists. [os.path.join(d, name)] is the
    file [name] of directory [d]. The model covers directories that hold
    regular files only, and it does not nest them: a directory has no parent
    in it. The text of a file is the string that [read] returns and [write]
    is given: the newline translation of the platform is not part of it. *)
Module FS.

Definition dir := list (string * string).
Definition t (D : Type) : Type := D -> option dir.

Definition empty {D : Type} : t D := fun _ => None.

Definition lookup (d : dir) (name : string) : option string :=
  option_map snd (find (fun e => String.eqb (fst e) name) d).

Fixpoint store (d : dir) (name text : string) : dir :=
  match d with
  | [] => [(name, text)]
  | (n, x) :: r => if String.eqb n name then (n, text) :: r else (n, x) :: store r name text
  end.

Definition set_dir {D : Type} {HD : Directory D} (s : t D) (path : D) (d : dir) : t D :=
  fun p => if same_dir p path then Some d else s p.

(** [os.makedirs(path, exist_ok=True)]: nothing for a directory that
    exists, a new empty directory otherwise. The call also makes the parents
    of the directory that are missing; they are not part of the model, and the
    properties that depend on what the call makes are stated for an output
    directory that exists. *)
Definition makedirs {D : Type} {HD : Directory D} (path : D) (s : t D) : t D :=
  match s path with
  | Some _ => s
  | None => set_dir s path []
  end.

(** [os.listdir(path)] *)
Definition listdir {D : Type} (path : D) (s : t D) : result (list string) :=
  match s path with
  | Some d => Ok (map fst d)
  | None => Raise FileNotFoundError
  end.

(** [open(os.path.join(path, name), 'r').read()] *)
Definition read {D : Type} (path : D) (name : string) (s : t D) : result string :=
  match s path with
  | Some d =>
      match lookup d name with
      | Some text => Ok text
      | None => Raise FileNotFoundError
      end
  | None => Raise FileNotFoundError
  end.

(** [open(os.path.join(path, name), 'w').write(text)] *)
Definition write {D : Type} {HD : Directory D} (path : D) (name text : string) (s : t D)
  : result (t D) :=
  match s path with
  | Some d => Ok (set_dir s path (store d name text))
  | None => Raise FileNotFoundError
  end.

(** The text of a file, if it exists. *)
Definition file {D : Type} (s : t D) (path : D) (name : string) : option string :=
  match s path with
  | Some d => lookup d name
  | None => None
  end.

End FS.

(* ================================================================= *)
(** ** [convert_polygons_to_bboxes] *)

(** [list(map(float, line.strip().split()))] *)
Definition parse_floats (line : string) : result (list float) :=
  mapM Float.float_of_str (Str.split (Str.strip line)).

(** The f-string of a record:
    [f"{class_id} {x_center:.6f} {y_center:.6f} {width:.6f} {height:.6f}"]. *)
Definition bbox_record (class_id : Z) (x_center y_center width height : float) : string :=
  Str.of_int class_id ++ " " ++ Float.format_6f x_center ++ " " ++
  Float.format_6f y_center ++ " " ++ Float.format_6f width ++ " " ++
  Float.format_6f height.

(** The body of the loop over the lines, after the parse: [None] when the
    line is skipped by [continue], the record appended otherwise. *)
Definition bbox_of_parts (class_id : Z) (parts : list float) : result (option string) :=
  if (List.length parts <? 6)%nat then Ok None
  else
    let coords := tl parts in
    let x_coords := slice_even coords in
    let y_coords := slice_odd coords in
    x_min <- Float.min x_coords ;;
    x_max <- Float.max x_coords ;;
    y_min <- Float.min y_coords ;;
    y_max <- Float.max y_coords ;;
    let x_center := ((x_min + x_max) / 2)%float in
    let y_center := ((y_min + y_max) / 2)%float in
    let width := (x_max - x_min)%float in
    let height := (y_max - y_min)%float in
    Ok (Some (bbox_record class_id x_center y_center width height)).

Definition bbox_of_line (class_id : Z) (line : string) : result (option string) :=
  parts <- parse_floats line ;;
  bbox_of_parts class_id parts.

(** [for line in lines: ...] with the list [bbox_lines] built so far. *)
Fixpoint convert_lines (class_id : Z) (lines : list string) (bbox_lines : list string)
  : result (list string) :=
  match lines with
  | [] => Ok bbox_lines
  | line :: rest =>
      r <- bbox_of_line class_id line ;;
      match r with
      | None => convert_lines class_id rest bbox_lines
      | Some rec => convert_lines class_id rest (bbox_lines ++ [rec])
      end
  end.

(** The text written for a label file with the given text. *)
Definition convert_text (class_id : Z) (text : string) : result string :=
  bbox_lines <- convert_lines class_id (Str.readlines text) [] ;;
  Ok (Str.join (String Str.nl EmptyString) bbox_lines).

(** [for filename in os.listdir(label_dir): ...]: the file system after the
    loop, and the exception that ended it, if any. *)
Fixpoint convert_files {D : Type} {HD : Directory D} (label_dir bbox_dir : D) (class_id : Z)
  (names : list string) (s : FS.t D) : FS.t D * result unit :=
  match names with
  | [] => (s, Ok tt)
  | filename :: rest =>
      if negb (Str.endswith filename ".txt")
      then convert_files label_dir bbox_dir class_id rest s
      else
        match FS.read label_dir filename s with
        | Raise e => (s, Raise e)
        | Ok text =>
            match convert_text class_id text with
            | Raise e => (s, Raise e)
            | Ok out =>
                match FS.write bbox_dir filename out s with
                | Raise e => (s, Raise e)
                | Ok s' => convert_files label_dir bbox_dir class_id rest s'
                end
            end
        end
  end.

(** The message printed at the end goes to the standard output and is left
    out. *)
Definition convert_polygons_to_bboxes {D : Type} {HD : Directory D} (label_dir bbox_dir : D)
  (class_id : Z) (s : FS.t D) : FS.t D * result unit :=
  let s1 := FS.makedirs bbox_dir s in
  match FS.listdir label_dir s1 with
  | Raise e => (s1, Raise e)
  | Ok names => convert_files label_dir bbox_dir class_id names s1
  end.

(* ================================================================= *)
(** ** Arrays *)

Module Np.

(** A two-dimensional integer array, as the list of its rows. *)
Definition image := list (list Z).

Definition has_shape (h w : Z) (m : image) : Prop :=
  Z.of_nat (List.length m) = h /\ Forall (fun row => Z.of_nat (List.length row) = w) m.

(** [np.zeros((h, w), dtype=np.uint8)] *)
Definition zeros (h w : Z) : result image :=
  if (h <? 0) || (w <? 0) then Raise ValueError
  else Ok (repeat (repeat 0 (Z.to_nat w)) (Z.to_nat h)).

(** [(a == i).astype(np.uint8)] *)
Definition eq_scalar (a : image) (i : Z) : image :=
  map (map (fun v => if v =? i then 1 else 0)) a.

(** Addition of two [np.int32] scalars: the sum wraps around. *)
Definition add32 (a b : Z) : Z :=
  (a + b + 2147483648) mod 4294967296 - 2147483648.

(** The pixel-wise AND of two masks. *)
Definition logical_and (a b : image) : image :=
  map (fun rows => map (fun p => Z.land (fst p) (snd p)) (combine (fst rows) (snd rows)))
      (combine a b).

Definition all_zero (a : image) : bool :=
  forallb (forallb (fun v => v =? 0)) a.

(** The positions [(column, row)] of the non-zero pixels, row by row. *)
Definition row_foreground (r : Z) (row : list Z) : list (Z * Z) :=
  map (fun cv => (Z.of_nat (fst cv), r))
      (filter (fun cv => negb (snd cv =? 0)) (combine (seq 0 (List.length row)) row)).

Definition foreground (m : image) : list (Z * Z) :=
  flat_map (fun rr => row_foreground (Z.of_nat (fst rr)) (snd rr))
           (combine (seq 0 (List.length m)) m).

Definition count_foreground (m : image) : Z := Z.of_nat (List.length (foreground m)).

(** The extent of the non-zero pixels: least and greatest column and row,
    both inclusive; [None] for a mask with no such pixel. *)
Definition extent (m : image) : option (Z * Z * Z * Z) :=
  match foreground m with
  | [] => None
  | (c, r) :: ps =>
      Some (fold_left Z.min (map fst ps) c, fold_left Z.min (map snd ps) r,
            fold_left Z.max (map fst ps) c, fold_left Z.max (map snd ps) r)
  end.

(** The bounding box of the non-zero pixels in corner form
    [[x_min, y_min, x_max, y_max]], the maxima exclusive. *)
Definition bounding_box (m : image) : option (list Z) :=
  match extent m with
  | Some (c0, r0, c1, r1) => Some [c0; r0; c1 + 1; r1 + 1]
  | None => None
  end.

(** The positions [(column, row)] of the pixels whose value passes a test,
    row by row. *)
Definition row_positions (p : Z -> bool) (r : Z) (row : list Z) : list (Z * Z) :=
  map (fun cv => (Z.of_nat (fst cv), r))
      (filter (fun cv => p (snd cv)) (combine (seq 0 (List.length row)) row)).

Definition positions (p : Z -> bool) (m : image) : list (Z * Z) :=
  flat_map (fun rr => row_positions p (Z.of_nat (fst rr)) (snd rr))
           (combine (seq 0 (List.length m)) m).

(** The extent of a list of positions: least and greatest column and row,
    both inclusive. *)
Definition extent_of (ps : list (Z * Z)) : option (Z * Z * Z * Z) :=
  match ps with
  | [] => None
  | (c, r) :: ps =>
      Some (fold_left Z.min (map fst ps) c, fold_left Z.min (map snd ps) r,
            fold_left Z.max (map fst ps) c, fold_left Z.max (map snd ps) r)
  end.

End Np.

(* ================================================================= *)
(** ** [extract_masks_and_bboxes] *)

(** What [cv2.connectedComponentsWithStats] returns, the centroids left
    out: the number of labels, the label image and the statistics rows
    [[left, top, width, height, area]]. *)
Definition components : Type := Z * Np.image * list (list Z).

(** [range(1, n)] *)
Definition range_from_1 (n : Z) : list Z :=
  map Z.of_nat (seq 1 (Z.to_nat n - 1)).

Section Extractor.

(** The two OpenCV calls. [fillPoly base_mask polygon] stands for
    [cv2.fillPoly(base_mask, [np.array(polygon, dtype=np.int32)], 1)] and
    gives the mask after the drawing. *)
Variable fillPoly : Np.image -> list (Z * Z) -> result Np.image.
Variable connectedComponentsWithStats : Np.image -> result components.

(** [int(round(c * n))] for a float [c] and an int [n]. *)
Definition scale_round (c : float) (n : Z) : result Z :=
  nf <- Float.of_int n ;;
  Float.round (c * nf)%float.

(** [for i in range(0, len(coords), 2): ...] with the list [polygon]
    built so far. *)
Fixpoint polygon_loop (coords : list float) (w h : Z) (idx : list nat)
  (polygon : list (Z * Z)) : result (list (Z * Z)) :=
  match idx with
  | [] => Ok polygon
  | i :: rest =>
      cx <- getitem coords i ;;
      x <- scale_round cx w ;;
      cy <- getitem coords (i + 1) ;;
      y <- scale_round cy h ;;
      polygon_loop coords w h rest (polygon ++ [(x, y)])
  end.

(** [for line in f: ...] on the accumulator [base_mask]. *)
Fixpoint fill_lines (h w : Z) (lines : list string) (base_mask : Np.image)
  : result Np.image :=
  match lines with
  | [] => Ok base_mask
  | line :: rest =>
      items <- parse_floats line ;;
      let coords := tl items in
      if (List.length coords <? 6)%nat then fill_lines h w rest base_mask
      else
        polygon <- polygon_loop coords w h (range_by_2 (List.length coords)) [] ;;
        base_mask' <- fillPoly base_mask polygon ;;
        fill_lines h w rest base_mask'
  end.

(** [for i in range(1, num_labels): ...] with the lists built so far. *)
Fixpoint components_loop (labels : Np.image) (stats : list (list Z)) (idx : list Z)
  (masks : list Np.image) (boxes : list (list Z))
  : result (list Np.image * list (list Z)) :=
  match idx with
  | [] => Ok (masks, boxes)
  | i :: rest =>
      let component_mask := Np.eq_scalar labels i in
      let masks' := masks ++ [component_mask] in
      row <- getitem stats (Z.to_nat i) ;;
      match row with
      | [x; y; w_box; h_box; _] =>
          components_loop labels stats rest masks'
            (boxes ++ [[x; y; Np.add32 x w_box; Np.add32 y h_box]])
      | _ => Raise ValueError
      end
  end.

(** The accumulator after the label file has been read. *)
Definition rasterize (text : string) (h w : Z) : result Np.image :=
  base_mask <- Np.zeros h w ;;
  fill_lines h w (Str.readlines text) base_mask.

(** The function, on the text of the label file at [label_path]. *)
Definition extract_masks_and_bboxes (text : string) (img_shape : Z * Z)
  : result (list Np.image * list (list Z)) :=
  let '(h, w) := img_shape in
  base_mask <- rasterize text h w ;;
  out <- connectedComponentsWithStats base_mask ;;
  let '(num_labels, labels, stats) := out in
  components_loop labels stats (range_from_1 num_labels) [] [].

End Extractor.

(** The part of the contract of [cv2.connectedComponentsWithStats] that the
    properties of the extractor rest on, as a check of an output [out]
    against the input [img]:
    - the image is an OpenCV matrix (its dimensions fit a C [int]);
    - there is at least the background label, and the label image has the
      shape of the input;
    - a pixel has label 0 exactly when it is background, and every label is
      below the number of labels;
    - there is one row of statistics per label, and for every label from 1
      on some pixel of the label image carries it, and its row holds the
      left-most column, the top-most row, the width, the height and the
      number of the pixels that carry it. *)
Definition stats_row_ok (labels : Np.image) (stats : list (list Z)) (i : Z) : bool :=
  let pixels := Np.positions (fun l => l =? i) labels in
  match nth_error stats (Z.to_nat i), Np.extent_of pixels with
  | Some [x; y; w_box; h_box; area], Some (c0, r0, c1, r1) =>
      (x =? c0) && (y =? r0) && (w_box =? c1 - c0 + 1) && (h_box =? r1 - r0 + 1) &&
      (area =? Z.of_nat (List.length pixels))
  | _, _ => false
  end.

Definition label_ok (num_labels : Z) (v l : Z) : bool :=
  (0 <=? l) && (l <? num_labels) && Bool.eqb (l =? 0) (v =? 0).

Fixpoint forallb2 {A B : Type} (f : A -> B -> bool) (l : list A) (l' : list B) : bool :=
  match l, l' with
  | [], [] => true
  | x :: r, y :: r' => f x y && forallb2 f r r'
  | _, _ => false
  end.

Definition cc_contract (img : Np.image) (out : components) : bool :=
  let '(num_labels, labels, stats) := out in
  (Z.of_nat (List.length img) <? 2147483648) &&
  forallb (fun row => Z.of_nat (List.length row) <? 2147483648) img &&
  (1 <=? num_labels) &&
  forallb2 (forallb2 (label_ok num_labels)) img labels &&
  (Z.of_nat (List.length stats) =? num_labels) &&
  forallb (stats_row_ok labels stats) (range_from_1 num_labels).

(* ================================================================= *)
(** ** Reference implementations of the two OpenCV calls

    The properties of the extractor are proved for every [fillPoly] and
    every [connectedComponentsWithStats]; the functions of this module are
    executable stand-ins on which the examples are evaluated. *)
Module Reference.

Definition edges (polygon : list (Z * Z)) : list ((Z * Z) * (Z * Z)) :=
  match polygon with
  | [] => []
  | p :: r => combine polygon (r ++ [p])
  end.

Definition on_edge (x y : Z) (e : (Z * Z) * (Z * Z)) : bool :=
  let '((x1, y1), (x2, y2)) := e in
  ((x2 - x1) * (y - y1) =? (y2 - y1) * (x - x1)) &&
  (Z.min x1 x2 <=? x) && (x <=? Z.max x1 x2) &&
  (Z.min y1 y2 <=? y) && (y <=? Z.max y1 y2).

(** The ray from [(x, y)] to the right crosses the edge. *)
Definition crosses (x y : Z) (e : (Z * Z) * (Z * Z)) : bool :=
  let '((x1, y1), (x2, y2)) := e in
  if Bool.eqb (y <? y1) (y <? y2) then false
  else if y1 <? y2 then (x - x1) * (y2 - y1) <? (y - y1) * (x2 - x1)
  else (y - y1) * (x2 - x1) <? (x - x1) * (y2 - y1).

Definition covers (polygon : list (Z * Z)) (x y : Z) : bool :=
  let es := edges polygon in
  existsb (on_edge x y) es || Nat.odd (List.length (filter (crosses x y) es)).

(** Every pixel on the outline or inside it is set to 1. *)
Definition fillPoly (m : Np.image) (polygon : list (Z * Z)) : result Np.image :=
  Ok (map (fun rr =>
             map (fun cv =>
                    if covers polygon (Z.of_nat (fst cv)) (Z.of_nat (fst rr)) then 1
                    else snd cv)
                 (combine (seq 0 (List.length (snd rr))) (snd rr)))
          (combine (seq 0 (List.length m)) m)).

(** Labelling by propagation: every foreground pixel starts with a number
    of its own and takes the least number among its eight neighbours and
    itself until nothing changes; the numbers left are then renamed
    1, 2, ... in raster order. *)
Definition min_nz (a b : Z) : Z :=
  if a =? 0 then b else if b =? 0 then a else Z.min a b.

Fixpoint map2 {A B C : Type} (f : A -> B -> C) (l : list A) (l' : list B) : list C :=
  match l, l' with
  | x :: r, y :: r' => f x y :: map2 f r r'
  | _, _ => []
  end.

Definition shift_right {A : Type} (d : A) (l : list A) : list A := d :: removelast l.
Definition shift_left {A : Type} (d : A) (l : list A) : list A := tl l ++ [d].

Definition spread_row (row : list Z) : list Z :=
  map2 min_nz (map2 min_nz (shift_right 0 row) row) (shift_left 0 row).

Definition spread (m : Np.image) : Np.image :=
  let hm := map spread_row m in
  let blank := match m with [] => [] | row :: _ => map (fun _ => 0) row end in
  let vm := map2 (map2 min_nz) (map2 (map2 min_nz) (shift_right blank hm) hm)
                 (shift_left blank hm) in
  map2 (map2 (fun old new => if old =? 0 then 0 else new)) m vm.

Definition image_eqb (a b : Np.image) : bool :=
  forallb2 (forallb2 Z.eqb) a b.

Fixpoint settle (fuel : nat) (m : Np.image) : Np.image :=
  match fuel with
  | O => m
  | S fuel' => let m' := spread m in if image_eqb m' m then m else settle fuel' m'
  end.

Definition seed (m : Np.image) : Np.image :=
  map (fun rr =>
         map (fun cv =>
                if snd cv =? 0 then 0
                else 1 + Z.of_nat (fst rr) * Z.of_nat (List.length (snd rr))
                     + Z.of_nat (fst cv))
             (combine (seq 0 (List.length (snd rr))) (snd rr)))
      (combine (seq 0 (List.length m)) m).

Fixpoint index_of (v : Z) (l : list Z) : option nat :=
  match l with
  | [] => None
  | x :: r => if x =? v then Some O else option_map S (index_of v r)
  end.

(** The distinct non-zero numbers of a list, in the order of their first
    occurrence. *)
Definition firsts (l : list Z) : list Z :=
  fold_left (fun acc v =>
               if (v =? 0) || existsb (Z.eqb v) acc then acc else acc ++ [v]) l [].

Definition stats_row (labels : Np.image) (i : Z) : list Z :=
  let mask := Np.eq_scalar labels i in
  match Np.extent mask with
  | Some (c0, r0, c1, r1) => [c0; r0; c1 - c0 + 1; r1 - r0 + 1; Np.count_foreground mask]
  | None => [0; 0; 0; 0; 0]
  end.

Definition connectedComponentsWithStats (img : Np.image) : result components :=
  let pixels := fold_left (fun n row => n + List.length row)%nat img O in
  let ids := settle pixels (seed img) in
  let names := firsts (List.concat ids) in
  let labels :=
    map (map (fun v => match index_of v names with
                       | Some k => Z.of_nat (S k)
                       | None => 0
                       end)) ids in
  let num_labels := Z.of_nat (S (List.length names)) in
  Ok (num_labels, labels,
      map (fun k => stats_row labels (Z.of_nat k)) (seq 0 (S (List.length names)))).

Definition extract := extract_masks_and_bboxes fillPoly connectedComponentsWithStats.

End Reference.

(* ================================================================= *)
(** ** Example inputs *)

Module Examples.

Definition newline : string := String Str.nl EmptyString.

(** The square of the scenario: four vertices. *)
Definition square : string := "0 0.1 0.1 0.1 0.5 0.5 0.5 0.5 0.1".

(** Its vertices: 0.1 is [0x1.999999999999ap-4] and 0.5 is [0x1p-1]. *)
Definition square_vertices : list (float * float) :=
  [(0x1.999999999999ap-4, 0x1.999999999999ap-4)%float;
   (0x1.999999999999ap-4, 0x1p-1)%float;
   (0x1p-1, 0x1p-1)%float;
   (0x1p-1, 0x1.999999999999ap-4)%float].

(** Five values after the class id: two vertices and a half. *)
Definition five_values : string := "0 0.1 0.1 0.5 0.5 0.9".

(** Seven values after the class id: three vertices and a half. *)
Definition seven_values : string := "0 0.1 0.1 0.5 0.1 0.5 0.5 0.3".

(** A line with a token that is not a number, followed by the square. *)
Definition with_bad_token : string :=
  "0 0.1 0.1 0.5 0.1 0.5 abc" ++ newline ++ square.

(** Two lines with fewer than three vertices and an empty line. *)
Definition no_polygon : string :=
  "0 0.1 0.1 0.5 0.5" ++ newline ++ newline ++ "1".

(** Two triangles that do not touch. *)
Definition two_triangles : string :=
  "0 0.1 0.1 0.3 0.1 0.1 0.3" ++ newline ++ "0 0.6 0.6 0.9 0.6 0.9 0.9" ++ newline.

(** The directories of the examples. *)
Inductive folder : Set := Images | Labels | Bbox.

Definition same_folder (a b : folder) : bool :=
  match a, b with
  | Images, Images | Labels, Labels | Bbox, Bbox => true
  | _, _ => false
  end.

Definition same_folder_spec (a b : folder) : reflect (a = b) (same_folder a b).
Proof. destruct a, b; constructor; congruence. Defined.

#[global] Instance folder_directory : Directory folder :=
  {| same_dir := same_folder; same_dir_spec := same_folder_spec |}.

(** A label directory with one label file and a file that is not one. *)
Definition labels_only : FS.t folder :=
  FS.set_dir FS.empty Labels [("a.txt", square); ("b.jpg", "JFIF")].

End Examples.

(* ================================================================= *)
(** ** Notions used to state and prove the properties *)

(** Two file systems with the same directories. *)
Definition same_fs {D : Type} (s s' : FS.t D) : Prop := forall path, s path = s' path.

(** The writes [(filename, text)] that the loop over [names] makes for a
    label directory [labels], in order, and how the loop ends. *)
Fixpoint planned_writes (class_id : Z) (labels : FS.dir) (names : list string)
  : list (string * string) * result unit :=
  match names with
  | [] => ([], Ok tt)
  | filename :: rest =>
      if negb (Str.endswith filename ".txt") then planned_writes class_id labels rest
      else
        match FS.lookup labels filename with
        | None => ([], Raise FileNotFoundError)
        | Some text =>
            match convert_text class_id text with
            | Raise e => ([], Raise e)
            | Ok out =>
                let '(ws, r) := planned_writes class_id labels rest in
                ((filename, out) :: ws, r)
            end
        end
  end.

Definition store_all (d : FS.dir) (ws : list (string * string)) : FS.dir :=
  fold_left (fun d w => FS.store d (fst w) (snd w)) ws d.

(** The last character of a string. *)
Fixpoint last_char (s : string) : option ascii :=
  match s with
  | EmptyString => None
  | String c EmptyString => Some c
  | String _ r => last_char r
  end.

(** The labelling that the extractor asks for on a label file meets the
    contract of [cv2.connectedComponentsWithStats]. *)
Definition contract_holds
  (fillPoly : Np.image -> list (Z * Z) -> result Np.image)
  (connectedComponentsWithStats : Np.image -> result components)
  (text : string) (h w : Z) : Prop :=
  forall base out,
    rasterize fillPoly text h w = Ok base ->
    connectedComponentsWithStats base = Ok out ->
    cc_contract base out = true.

(** [cv2.fillPoly] draws in place: the mask keeps its shape. *)
Definition keeps_shape (fillPoly : Np.image -> list (Z * Z) -> result Np.image) : Prop :=
  forall m polygon m',
    fillPoly m polygon = Ok m' -> map (@List.length Z) m' = map (@List.length Z) m.

(** The box that the loop over the labels appends for a row of statistics. *)
Definition box_of_row (row : list Z) : option (list Z) :=
  match row with
  | [x; y; w_box; h_box; _] => Some [x; y; Np.add32 x w_box; Np.add32 y h_box]
  | _ => None
  end.

(** Every pixel of a mask is 0 or 1. *)
Definition binary (m : Np.image) : Prop :=
  Forall (Forall (fun v => v = 0 \/ v = 1)) m.

(** The line is skipped by the length filter of the extractor. *)
Definition skipped_by_extractor (line : string) : Prop :=
  exists items, parse_floats line = Ok items /\ (List.length (tl items) < 6)%nat.

(** The labelling that the extractor asks for on a label file returns. *)
Definition labelling_returns
  (fillPoly : Np.image -> list (Z * Z) -> result Np.image)
  (connectedComponentsWithStats : Np.image -> result components)
  (text : string) (h w : Z) : Prop :=
  forall base,
    rasterize fillPoly text h w = Ok base ->
    is_ok (connectedComponentsWithStats base) = true.

(** A box [[x_min, y_min, x_max, y_max]] inside an image of height [h] and
    width [w], neither flat nor thin. *)
Definition box_within (h w : Z) (box : list Z) : Prop :=
  exists x_min y_min x_max y_max,
    box = [x_min; y_min; x_max; y_max] /\
    0 <= x_min /\ x_min < x_max /\ x_max <= w /\
    0 <= y_min /\ y_min < y_max /\ y_max <= h.

(** *** Binary64 numbers that are not negative

    The value of a zero or of a positive finite number, counted in units of
    [2^-1075] (half the least positive number), and other numbers taken
    as 0. *)
Definition sval (x : spec_float) : Z :=
  match x with
  | S754_finite false m e => Zpos m * 2 ^ (e + 1075)
  | _ => 0
  end.

(** A zero or a positive finite number of the format. *)
Definition nonneg (x : spec_float) : Prop :=
  valid_binary x = true /\
  match x with
  | S754_zero _ => True
  | S754_finite false _ _ => True
  | _ => False
  end.

(** An integer [m * 2^k] with [0 <= m < 2^53] and [1 <= k]: the value, in
    units of [2^-1075], of a number of the format that is not negative. *)
Definition representable (v : Z) : Prop :=
  exists m k, v = m * 2 ^ k /\ 0 <= m < 2 ^ 53 /\ 1 <= k.

(** The float is a number of the interval [[0, 1]]. *)
Definition in_unit (x : float) : Prop :=
  (0 <=? x)%float = true /\ (x <=? 1)%float = true.

(** [m] is an item of [l] that no item is below. *)
Definition is_least (m : float) (l : list float) : Prop :=
  In m l /\ forall x, In x l -> (m <=? x)%float = true.

(** [m] is an item of [l] that no item is above. *)
Definition is_greatest (m : float) (l : list float) : Prop :=
  In m l /\ forall x, In x l -> (x <=? m)%float = true.

(** The coordinates of a list of vertices, as a label line has them. *)
Definition flatten (vertices : list (float * float)) : list float :=
  flat_map (fun v => [fst v; snd v]) vertices.

(** The truncated mantissa [mrs] at exponent [e] stands for the value [v]
    (in units of [2^-1075]): [v] lies from the mantissa up to the next one,
    and the two flags are off exactly when [v] is the mantissa's value. *)
Definition stands_for (mrs : shr_record) (e : Z) (v : Z) : Prop :=
  0 <= shr_m mrs /\
  shr_m mrs * 2 ^ (e + 1075) <= v < (shr_m mrs + 1) * 2 ^ (e + 1075) /\
  (shr_r mrs || shr_s mrs = false <-> v = shr_m mrs * 2 ^ (e + 1075)).

(** The float 2.0, by which the converter divides. *)
Definition SF_two : spec_float := S754_finite false 4503599627370496 (-51).

(** The value of a float, in units of [2^-1075]. *)
Definition fval (x : float) : Z := sval (Prim2SF x).

(** *** The text of a number with six decimals *)

(** The character of the decimal digit [d]. *)
Definition digit_char (d : Z) : ascii := ascii_of_nat (48 + Z.to_nat d).

(** [t] is the text of [n] millionths, [0 <= n < 10000000], with one digit
    before the point and exactly six digits after it. *)
Definition six_decimals (t : string) (n : Z) : Prop :=
  exists d0 d1 d2 d3 d4 d5 d6,
    Forall (fun d => 0 <= d <= 9) [d0; d1; d2; d3; d4; d5; d6] /\
    n = d0 * 1000000 + d1 * 100000 + d2 * 10000 + d3 * 1000 + d4 * 100 + d5 * 10 + d6 /\
    t = String (digit_char d0) (String "."
          (String (digit_char d1) (String (digit_char d2) (String (digit_char d3)
          (String (digit_char d4) (String (digit_char d5) (String (digit_char d6)
          EmptyString))))))).

(** [t] is a text of the number [x] rounded to six decimals: the text of a
    number [n] of millionths that is at most half a millionth away from [x]
    (both sides counted in units of [2^-1075]), after a minus sign exactly
    when [x] is the negative zero. *)
Definition printed_6f (x : float) (t : string) : Prop :=
  exists (neg : bool) (n : Z) (digits : string),
    t = ((if neg then "-" else "") ++ digits)%string /\
    six_decimals digits n /\
    2 * Z.abs (n * 2 ^ 1075 - 1000000 * fval x) <= 2 ^ 1075 /\
    (neg = true <-> Prim2SF x = S754_zero true).

(* ================================================================= *)
(** ** The loop over the images

    The cell that fills the two mappings [ground_truth_masks] and
    [bbox_coords]: for every file of the image directory it reads the image,
    calls the extractor on the label file of the same stem, thresholds the
    masks and stores masks and boxes under the stem. *)

Module Path.

(** [s.rfind(c)]: the index of the last [c], or -1. *)
Fixpoint rfind (c : ascii) (s : string) : Z :=
  match s with
  | EmptyString => -1
  | String a r =>
      let i := rfind c r in
      if 0 <=? i then i + 1 else if Ascii.eqb a c then 0 else -1
  end.

(** [s[i:]] and [s[:i]] for [0 <= i]. *)
Definition from (i : Z) (s : string) : string :=
  substring (Z.to_nat i) (String.length s - Z.to_nat i) s.

Definition upto (i : Z) (s : string) : string := substring 0 (Z.to_nat i) s.

(** Some character of [s] is not [c]. *)
Fixpoint has_other (c : ascii) (s : string) : bool :=
  match s with
  | EmptyString => false
  | String a r => negb (Ascii.eqb a c) || has_other c r
  end.

(** [genericpath._splitext(p, sep, altsep, extsep)]: the extension starts
    at the last dot of the last component, unless only dots come before it
    in that component. *)
Definition splitext_generic (p : string) (sep : ascii) (altsep : option ascii)
  (extsep : ascii) : string * string :=
  let sepIndex :=
    match altsep with
    | Some a => Z.max (rfind sep p) (rfind a p)
    | None => rfind sep p
    end in
  let dotIndex := rfind extsep p in
  if (sepIndex <? dotIndex) && has_other extsep (from (sepIndex + 1) (upto dotIndex p))
  then (upto dotIndex p, from dotIndex p)
  else (p, EmptyString).

(** [os.path.splitext] on Windows, where the notebook ran: the separators
    are the backslash and the slash. *)
Definition splitext (p : string) : string * string :=
  splitext_generic p "092"%char (Some "/"%char) "."%char.

End Path.

(** A [dict] with [str] keys: the items in the order of their insertion. *)
Module Dict.
Section Dict.
Context {V : Type}.

Definition t := list (string * V).

(** [d[k] = v]: a key that is present keeps its place. *)
Fixpoint setitem (d : t) (k : string) (v : V) : t :=
  match d with
  | [] => [(k, v)]
  | (k', v') :: r => if String.eqb k' k then (k', v) :: r else (k', v') :: setitem r k v
  end.

(** [d.get(k)] *)
Definition get (d : t) (k : string) : option V :=
  option_map snd (find (fun e => String.eqb (fst e) k) d).

(** [list(d.keys())] *)
Definition keys (d : t) : list string := map fst d.

End Dict.
Arguments t V : clear implicits.
End Dict.

(** [(a > v).astype(np.uint8)] *)
Definition gt_scalar (a : Np.image) (v : Z) : Np.image :=
  map (map (fun x => if v <? x then 1 else 0)) a.

(** What the cell can raise: the error of OpenCV, or an exception of the
    extractor. *)
Inductive cell_exn : Set :=
| cv2_error
| raised (e : exn).

(** The two mappings [ground_truth_masks] and [bbox_coords]. *)
Definition mappings : Type := Dict.t (list Np.image) * Dict.t (list (list Z)).

Section Aggregator.

Context {D : Type}.

(** [imread bytes] is the shape [(height, width)] of the image that
    [cv2.imread] decodes from a file with these bytes, [None] when it
    cannot; the loop uses the shape of the image only. *)
Variable imread : string -> option (Z * Z).
Variable fillPoly : Np.image -> list (Z * Z) -> result Np.image.
Variable connectedComponentsWithStats : Np.image -> result components.

(** [read_image(os.path.join(image_dir, file)).shape[:2]]: [cv2.imread]
    gives [None] for a file that is missing or cannot be decoded, on which
    [cv2.cvtColor] raises; the conversion keeps the shape. *)
Definition read_image (image_dir : D) (file : string) (s : FS.t D) : option (Z * Z) :=
  match FS.file s image_dir file with
  | Some bytes => imread bytes
  | None => None
  end.

(** [extract_masks_and_bboxes(os.path.join(label_dir, name), img_shape)]:
    the accumulator is made before the label file is opened. *)
Definition extract_masks_and_bboxes_at (label_dir : D) (name : string) (img_shape : Z * Z)
  (s : FS.t D) : result (list Np.image * list (list Z)) :=
  let '(h, w) := img_shape in
  base_mask <- Np.zeros h w ;;
  text <- FS.read label_dir name s ;;
  base_mask' <- fill_lines fillPoly h w (Str.readlines text) base_mask ;;
  out <- connectedComponentsWithStats base_mask' ;;
  let '(num_labels, labels, stats) := out in
  components_loop labels stats (range_from_1 num_labels) [] [].

(** [for file in os.listdir(image_dir): ...] on the two mappings: the
    mappings after the loop, and what ended it early, if anything. *)
Fixpoint aggregate_files (image_dir label_dir : D) (files : list string)
  (s : FS.t D) (m : mappings) : mappings * option cell_exn :=
  match files with
  | [] => (m, None)
  | file :: rest =>
      let k := fst (Path.splitext file) in
      match read_image image_dir file s with
      | None => (m, Some cv2_error)
      | Some img_shape =>
          match extract_masks_and_bboxes_at label_dir (k ++ ".txt") img_shape s with
          | Raise e => (m, Some (raised e))
          | Ok (masks, boxes) =>
              let masks' := map (fun mask => gt_scalar mask 0) masks in
              aggregate_files image_dir label_dir rest s
                (Dict.setitem (fst m) k masks', Dict.setitem (snd m) k boxes)
          end
      end
  end.

(** The cell, from the two empty mappings. *)
Definition aggregate (image_dir label_dir : D) (s : FS.t D)
  : mappings * option cell_exn :=
  match FS.listdir image_dir s with
  | Raise e => (([], []), Some (raised e))
  | Ok files => aggregate_files image_dir label_dir files s ([], [])
  end.

End Aggregator.

(* ================================================================= *)
(** ** Further notions for the properties *)

(** Every token of every line of the text is a float literal. *)
Definition all_tokens_parse (text : string) : bool :=
  forallb (fun line =>
             forallb (fun tok => match Float.of_string tok with Some _ => true | None => false end)
                     (Str.split (Str.strip line)))
          (Str.readlines text).

(** The line is not skipped by the length filter of the converter: it has
    a token that is no float, or at least 6 values. *)
Definition kept_by_converter (line : string) : bool :=
  match parse_floats line with
  | Ok parts => negb (List.length parts <? 6)%nat
  | Raise _ => true
  end.

(** The same for the filter of the extractor: at least 6 values after the
    first. *)
Definition kept_by_extractor (line : string) : bool :=
  match parse_floats line with
  | Ok items => negb (List.length (tl items) <? 6)%nat
  | Raise _ => true
  end.

(** What holds of the two mappings at every turn of the loop over the
    images: they have the same keys, and the entries of a key are the masks and
    the boxes that the extractor returned for an image with that stem. *)
Definition entries_from_extractor {D : Type}
  (imread : string -> option (Z * Z))
  (fillPoly : Np.image -> list (Z * Z) -> result Np.image)
  (connectedComponentsWithStats : Np.image -> result components)
  (image_dir label_dir : D) (s : FS.t D) (m : mappings) : Prop :=
  Dict.keys (fst m) = Dict.keys (snd m) /\
  forall k masks,
    Dict.get (fst m) k = Some masks ->
    exists file img_shape boxes,
      fst (Path.splitext file) = k /\
      read_image imread image_dir file s = Some img_shape /\
      extract_masks_and_bboxes_at fillPoly connectedComponentsWithStats
        label_dir (k ++ ".txt") img_shape s = Ok (masks, boxes) /\
      Dict.get (snd m) k = Some boxes /\
      List.length masks = List.length boxes.

(** The pixel of row [r] and column [c]. *)
Definition pixel (m : Np.image) (r c : nat) : option Z :=
  match nth_error m r with
  | Some row => nth_error row c
  | None => None
  end.

(** The float is a NaN or an infinity. *)
Definition not_finite (x : float) : bool :=
  match Prim2SF x with
  | S754_nan | S754_infinity _ => true
  | _ => false
  end.

(** A label directory whose second file has a token that is not a number. *)
Definition labels_with_bad_file : FS.t Examples.folder :=
  FS.set_dir FS.empty Examples.Labels
    [("a.txt", Examples.square); ("b.txt", Examples.with_bad_token);
     ("c.txt", Examples.square)].

(** A decoder for the examples: the file with the bytes [image 10 12] is an
    image of height 10 and width 12. *)
Definition example_imread (bytes : string) : option (Z * Z) :=
  if String.eqb bytes "image 10 12" then Some (10, 12) else None.

(** An image with its label file, and a second image without one. *)
Definition image_without_label : FS.t Examples.folder :=
  FS.set_dir
    (FS.set_dir FS.empty Examples.Images [("t.jpg", "image 10 12"); ("u.jpg", "image 10 12")])
    Examples.Labels [("t.txt", Examples.two_triangles)].

(** Every character of the string passes the test. *)
Fixpoint string_forall (p : ascii -> bool) (s : string) : bool :=
  match s with
  | EmptyString => true
  | String c r => p c && string_forall p r
  end.

(** A character that is neither white space nor an underscore. *)
Definition plain (c : ascii) : bool :=
  negb (Str.isspace c) && negb (Ascii.eqb c "_").

(** A field of a record: a string without white space that [float]
    accepts. *)
Definition float_field (t : string) : Prop :=
  t <> EmptyString /\ string_forall plain t = true /\
  exists x, Float.of_string t = Some x.

(** A character that does not end a line. *)
Definition within_line (c : ascii) : bool :=
  negb (Ascii.eqb c Str.nl) && negb (Ascii.eqb c Str.cr).

(** A valid polygon record: a class id and at least three vertices, with
    coordinates in the interval [[0, 1]]. *)
Definition valid_polygon_line (line : string) : Prop :=
  exists cls vertices,
    parse_floats line = Ok (cls :: flatten vertices) /\
    (3 <= List.length vertices)%nat /\
    Forall (fun v => in_unit (fst v) /\ in_unit (snd v)) vertices.

(** The character [c] does not occur in the string. *)
Definition no_char (c : ascii) (s : string) : bool :=
  string_forall (fun a => negb (Ascii.eqb a c)) s.

(** The float is a NaN. *)
Definition isnan (x : float) : bool :=
  match Prim2SF x with
  | S754_nan => true
  | _ => false
  end.

(** An image directory with an image and a file that is no image. *)
Definition image_and_other_file : FS.t Examples.folder :=
  FS.set_dir
    (FS.set_dir FS.empty Examples.Images [("t.jpg", "image 10 12"); ("Thumbs.db", "thumbnails")])
    Examples.Labels [("t.txt", Examples.two_triangles)].

(** A decoder for images of two sizes. *)
Definition example_imread_sizes (bytes : string) : option (Z * Z) :=
  if String.eqb bytes "image 10 12" then Some (10, 12)
  else if String.eqb bytes "image 20 24" then Some (20, 24)
  else None.

(** Two images of the stem [a], of different sizes, with an image [b]
    between them, and one label file for each stem. *)
Definition images_of_one_stem : FS.t Examples.folder :=
  FS.set_dir
    (FS.set_dir FS.empty Examples.Images
       [("a.jpg", "image 10 12"); ("b.jpg", "image 10 12"); ("a.png", "image 20 24")])
    Examples.Labels [("a.txt", Examples.two_triangles); ("b.txt", Examples.square)].

(** Two images of different stems, not in the order of the alphabet. *)
Definition images_b_then_a : FS.t Examples.folder :=
  FS.set_dir
    (FS.set_dir FS.empty Examples.Images [("b.jpg", "image 10 12"); ("a.png", "image 20 24")])
    Examples.Labels [("a.txt", Examples.two_triangles); ("b.txt", Examples.square)].

(* ================================================================= *)
(** ** The model of the interpreter on examples *)

Example split_line :
  Str.split (Str.strip ("  0 0.25" ++ String "009" "0.5 1e-1" ++ Examples.newline))
  = ["0"; "0.25"; "0.5"; "1e-1"].
Proof. reflexivity. Qed.

Example readlines_universal :
  Str.readlines ("a b" ++ String Str.cr (String Str.nl "c") ++ String Str.cr "d")
  = ["a b" ++ Examples.newline; "c" ++ Examples.newline; "d"]%string.
Proof. reflexivity. Qed.

(** [float] rounds a decimal literal to the nearest binary64 number. *)
Example float_of_literals :
  map Float.of_string ["0.1"; ".5"; "5."; "1e-1"; "1_0.0"; "-0"; "+1.5E+2"]
  = [Some 0x1.999999999999ap-4; Some 0x1p-1; Some 5; Some 0x1.999999999999ap-4;
     Some 10; Some (-0); Some 150]%float.
Proof. vm_compute. reflexivity. Qed.

Example float_of_halfway_integer :
  Float.of_string "9007199254740993" = Some 9007199254740992%float.
Proof. vm_compute. reflexivity. Qed.

Example float_of_special :
  map Float.of_string ["inf"; "-Infinity"; "NaN"; "1e400"]
  = [Some infinity; Some neg_infinity; Some nan; Some infinity].
Proof. vm_compute. reflexivity. Qed.

Example float_rejects :
  map Float.of_string ["abc"; ""; "."; "1e"; "1__0"; "_1"; "1_"; "0x10"; "1,5"; "--1"]
  = [None; None; None; None; None; None; None; None; None; None].
Proof. vm_compute. reflexivity. Qed.

Example format_6f_examples :
  map Float.format_6f
      [0x1.999999999999ap-4; 0x1p-1; 2.5; 1234567.125; -0; 0x1p-20; infinity; nan]%float
  = ["0.100000"; "0.500000"; "2.500000"; "1234567.125000"; "-0.000000"; "0.000001";
     "inf"; "nan"]%string.
Proof. vm_compute. reflexivity. Qed.

(** [round] goes to the even integer at a tie. *)
Example round_examples :
  map Float.round [0x1p-1; 1.5; 2.5; -0x1p-1; -1.5; 63.75; nan; infinity]%float
  = [Ok 0; Ok 2; Ok 2; Ok 0; Ok (-2); Ok 64; Raise ValueError; Raise OverflowError].
Proof. vm_compute. reflexivity. Qed.

Example slices : slice_even [1; 2; 3; 4; 5] = [1; 3; 5] /\ slice_odd [1; 2; 3; 4; 5] = [2; 4].
Proof. split; reflexivity. Qed.

(** *** The scenarios of the converter *)

(** A line with two vertices gives no record, and the output file is
    empty. *)
Example two_vertices_filtered : convert_text 0 "0 0.1 0.1 0.5 0.5" = Ok "".
Proof. vm_compute. reflexivity. Qed.

Example empty_label_file : convert_text 0 "" = Ok "".
Proof. vm_compute. reflexivity. Qed.

(** *** The scenarios of the extractor, on the reference implementations *)

(** Two triangles apart on a 50 x 50 image: two instances. *)
Example two_triangles_50 :
  exists mask_1 mask_2,
    Reference.extract Examples.two_triangles (50, 50)
    = Ok ([mask_1; mask_2], [[5; 5; 16; 16]; [30; 30; 46; 46]]).
Proof. eexists. eexists. vm_compute. reflexivity. Qed.

(** Two triangles that overlap are filled into the same accumulator and come
    out as one instance. *)
Example overlapping_triangles_50 :
  exists mask,
    Reference.extract
      ("0 0.1 0.1 0.5 0.1 0.3 0.5" ++ Examples.newline ++ "0 0.3 0.3 0.9 0.3 0.9 0.9")
      (50, 50)
    = Ok ([mask], [[5; 5; 46; 46]]).
Proof. eexists. vm_compute. reflexivity. Qed.
(* ================================================================= *)
(** ** The error results *)

Lemma bind_ok {A B : Type} (r : result A) (k : A -> result B) (b : B) :
  bind r k = Ok b -> exists a, r = Ok a /\ k a = Ok b.
Proof.
  destruct r as [a | e]; simpl; intros H; [exists a; auto | discriminate].
Qed.

(** Inverts a sequence that ended normally: [x <- r ;; k = Ok b] gives the
    [x] that [r] returned. *)
Tactic Notation "inv_bind" hyp(H) "as" ident(x) ident(Hx) :=
  apply bind_ok in H; destruct H as [x [Hx H]].

Lemma mapM_in_raise {A B : Type} (f : A -> result B) (l : list A) (x : A) (e : exn) :
  In x l -> f x = Raise e ->
  (forall y e', f y = Raise e' -> e' = e) ->
  mapM f l = Raise e.
Proof.
  intros Hin Hx Hall. induction l as [| y r IH]; [contradiction |].
  simpl. destruct (f y) as [b | e'] eqn:Hy; simpl.
  - destruct Hin as [-> | Hin]; [congruence |].
    rewrite (IH Hin). reflexivity.
  - f_equal. eauto.
Qed.

Lemma float_of_str_raise (s : string) (e : exn) :
  Float.float_of_str s = Raise e -> e = ValueError.
Proof.
  unfold Float.float_of_str. destruct (Float.of_string s); congruence.
Qed.

Lemma parse_floats_raise (line : string) (e : exn) :
  parse_floats line = Raise e -> e = ValueError.
Proof.
  unfold parse_floats. generalize (Str.split (Str.strip line)) as toks.
  induction toks as [| t r IH]; simpl; [discriminate |].
  destruct (Float.float_of_str t) eqn:Ht; simpl.
  - destruct (mapM Float.float_of_str r); simpl; [discriminate |].
    intros H. injection H as <-. auto.
  - intros H. injection H as <-. eauto using float_of_str_raise.
Qed.

Lemma parse_floats_bad_token (line tok : string) :
  In tok (Str.split (Str.strip line)) -> Float.of_string tok = None ->
  parse_floats line = Raise ValueError.
Proof.
  intros Hin Hbad. unfold parse_floats.
  apply mapM_in_raise with (x := tok); auto.
  - unfold Float.float_of_str. rewrite Hbad. reflexivity.
  - intros y e. apply float_of_str_raise.
Qed.

(* ================================================================= *)
(** ** The length filter of the converter *)

Lemma bbox_of_parts_skips (class_id : Z) (parts : list float) :
  (List.length parts < 6)%nat -> bbox_of_parts class_id parts = Ok None.
Proof.
  intros H. unfold bbox_of_parts.
  destruct (Nat.ltb_spec (List.length parts) 6); [reflexivity | lia].
Qed.

Lemma bbox_of_parts_emits (class_id : Z) (parts : list float) :
  (6 <= List.length parts)%nat ->
  exists rec, bbox_of_parts class_id parts = Ok (Some rec).
Proof.
  intros H. unfold bbox_of_parts.
  destruct (Nat.ltb_spec (List.length parts) 6); [lia |].
  destruct parts as [| c [| x [| y rest]]]; simpl in H; try lia.
  cbn [tl slice_odd slice_even Float.min Float.max bind]. eauto.
Qed.

Lemma bbox_of_parts_raise (class_id : Z) (parts : list float) (e : exn) :
  bbox_of_parts class_id parts <> Raise e.
Proof.
  destruct (Nat.lt_ge_cases (List.length parts) 6) as [H | H].
  - rewrite bbox_of_parts_skips by assumption. discriminate.
  - destruct (bbox_of_parts_emits class_id parts H) as [rec ->]. discriminate.
Qed.

(** C1. What the filter of [convert_polygons_to_bboxes] does: a line whose
    tokens are all numbers is skipped when it has fewer than 6 values in
    all, the class id counted, and gives one record when it has at least 6.
    A line with 5 values after the class id is therefore converted, not
    skipped. *)
Theorem converter_filter_counts_class_id (class_id : Z) (line : string) (parts : list float) :
  parse_floats line = Ok parts ->
  ((List.length parts < 6)%nat ->
   forall bbox_lines,
     convert_lines class_id [line] bbox_lines = Ok bbox_lines) /\
  ((6 <= List.length parts)%nat ->
   exists rec, forall bbox_lines,
     convert_lines class_id [line] bbox_lines = Ok (bbox_lines ++ [rec])).
Proof.
  intros Hparse. split; intros Hlen.
  - intros acc. simpl. unfold bbox_of_line. rewrite Hparse. simpl.
    rewrite bbox_of_parts_skips by assumption. reflexivity.
  - destruct (bbox_of_parts_emits class_id parts Hlen) as [rec Hrec].
    exists rec. intros acc. simpl. unfold bbox_of_line. rewrite Hparse. simpl.
    rewrite Hrec. reflexivity.
Qed.

(** The filter at a line with five values after the class id: the record
    written for it. *)
Lemma converter_filter_at_five_values :
  exists parts,
    parse_floats Examples.five_values = Ok parts /\
    List.length parts = 6%nat /\
    exists rec, forall bbox_lines,
      convert_lines 0 [Examples.five_values] bbox_lines = Ok (bbox_lines ++ [rec]).
Proof.
  destruct (parse_floats Examples.five_values) as [parts | e] eqn:Hparse;
    [| vm_compute in Hparse; discriminate].
  assert (Hlen : List.length parts = 6%nat).
  { vm_compute in Hparse. injection Hparse as <-. reflexivity. }
  exists parts. split; [reflexivity | split; [exact Hlen |]].
  apply (converter_filter_counts_class_id 0 Examples.five_values parts Hparse).
  rewrite Hlen. apply le_n.
Defined.

Example five_values_record :
  convert_text 0 Examples.five_values = Ok "0 0.500000 0.300000 0.800000 0.400000".
Proof. vm_compute. reflexivity. Qed.

(* ================================================================= *)
(** ** A token that is not a number *)

Lemma bbox_of_line_raise (class_id : Z) (line : string) (e : exn) :
  bbox_of_line class_id line = Raise e -> e = ValueError.
Proof.
  unfold bbox_of_line. destruct (parse_floats line) as [parts | e'] eqn:Hp; simpl.
  - intros H. exfalso. exact (bbox_of_parts_raise class_id parts e H).
  - intros H. injection H as <-. eauto using parse_floats_raise.
Qed.

Lemma convert_lines_raise (class_id : Z) (lines bbox_lines : list string) (e : exn) :
  convert_lines class_id lines bbox_lines = Raise e -> e = ValueError.
Proof.
  revert bbox_lines. induction lines as [| line rest IH]; intros acc; simpl; [discriminate |].
  destruct (bbox_of_line class_id line) as [[rec |] | e'] eqn:Hl; simpl; eauto.
  intros H. injection H as <-. eauto using bbox_of_line_raise.
Qed.

Lemma convert_lines_bad_token (class_id : Z) (lines bbox_lines : list string)
  (line tok : string) :
  In line lines -> In tok (Str.split (Str.strip line)) -> Float.of_string tok = None ->
  convert_lines class_id lines bbox_lines = Raise ValueError.
Proof.
  intros Hin Htok Hbad. revert bbox_lines.
  induction lines as [| l rest IH]; intros acc; [contradiction |].
  simpl. destruct (bbox_of_line class_id l) as [[rec |] | e] eqn:Hl; simpl.
  - destruct Hin as [-> | Hin]; [| auto].
    unfold bbox_of_line in Hl.
    rewrite (parse_floats_bad_token line tok Htok Hbad) in Hl. discriminate.
  - destruct Hin as [-> | Hin]; [| auto].
    unfold bbox_of_line in Hl.
    rewrite (parse_floats_bad_token line tok Htok Hbad) in Hl. discriminate.
  - f_equal. eauto using bbox_of_line_raise.
Qed.

Lemma fill_lines_bad_token (fillPoly : Np.image -> list (Z * Z) -> result Np.image)
  (h w : Z) (lines : list string) (base_mask : Np.image) (line tok : string) :
  In line lines -> In tok (Str.split (Str.strip line)) -> Float.of_string tok = None ->
  is_ok (fill_lines fillPoly h w lines base_mask) = false.
Proof.
  intros Hin Htok Hbad. revert base_mask.
  induction lines as [| l rest IH]; intros m; [contradiction |].
  simpl. destruct (parse_floats l) as [items | e] eqn:Hl; simpl; [| reflexivity].
  destruct Hin as [-> | Hin].
  { rewrite (parse_floats_bad_token line tok Htok Hbad) in Hl. discriminate. }
  destruct (List.length (tl items) <? 6)%nat; [auto |].
  destruct (polygon_loop _ _ _ _ _); simpl; [| reflexivity].
  destruct (fillPoly m a); simpl; auto.
Qed.

(** C2 (as the code has it). A line of an ASCII label file with a token
    that [float] rejects is not skipped: the [ValueError] of the conversion
    is not caught. The converter raises it for the file, whose output is then
    not written, and the files after it are not converted; the extractor
    does not return either. *)
Theorem non_numeric_token_raises (class_id : Z) (text line tok : string) :
  Str.isascii text = true ->
  In line (Str.readlines text) ->
  In tok (Str.split (Str.strip line)) ->
  Float.of_string tok = None ->
  convert_text class_id text = Raise ValueError /\
  (forall (D : Type) (HD : Directory D) (label_dir bbox_dir : D) filename rest s,
      Str.endswith filename ".txt" = true ->
      FS.read label_dir filename s = Ok text ->
      convert_files label_dir bbox_dir class_id (filename :: rest) s = (s, Raise ValueError)) /\
  (forall fillPoly connectedComponentsWithStats img_shape,
      is_ok (extract_masks_and_bboxes fillPoly connectedComponentsWithStats text img_shape)
      = false).
Proof.
  intros _ Hin Htok Hbad.
  assert (Hc : convert_text class_id text = Raise ValueError).
  { unfold convert_text.
    rewrite (convert_lines_bad_token class_id _ [] line tok Hin Htok Hbad). reflexivity. }
  split; [exact Hc | split].
  - intros D HD label_dir bbox_dir filename rest s Hext Hread.
    simpl. rewrite Hext, Hread, Hc. reflexivity.
  - intros fillPoly cc [h w]. unfold extract_masks_and_bboxes, rasterize.
    destruct (Np.zeros h w) as [base | e]; simpl; [| reflexivity].
    pose proof (fill_lines_bad_token fillPoly h w _ base line tok Hin Htok Hbad) as Hf.
    destruct (fill_lines fillPoly h w (Str.readlines text) base); simpl in *;
      [discriminate | reflexivity].
Qed.

(** The theorem at a file whose first line ends with the token [abc]. *)
Lemma non_numeric_token_raises_at_abc :
  convert_text 0 Examples.with_bad_token = Raise ValueError /\
  (forall (D : Type) (HD : Directory D) (label_dir bbox_dir : D) filename rest s,
      Str.endswith filename ".txt" = true ->
      FS.read label_dir filename s = Ok Examples.with_bad_token ->
      convert_files label_dir bbox_dir 0 (filename :: rest) s = (s, Raise ValueError)) /\
  (forall fillPoly connectedComponentsWithStats img_shape,
      is_ok (extract_masks_and_bboxes fillPoly connectedComponentsWithStats
               Examples.with_bad_token img_shape) = false).
Proof.
  apply (non_numeric_token_raises 0 Examples.with_bad_token
           ("0 0.1 0.1 0.5 0.1 0.5 abc" ++ Examples.newline) "abc").
  - reflexivity.
  - vm_compute. left. reflexivity.
  - vm_compute. do 6 right. left. reflexivity.
  - vm_compute. reflexivity.
Defined.

(** Against C2 as stated: the file with the bad line and the square does not
    give the record of the square, as skipping the bad line would; both
    functions raise [ValueError]. *)
Lemma bad_token_line_is_not_skipped :
  convert_text 0 Examples.square = Ok "0 0.300000 0.300000 0.400000 0.400000" /\
  convert_text 0 Examples.with_bad_token = Raise ValueError /\
  is_ok (Reference.extract Examples.square (10, 10)) = true /\
  Reference.extract Examples.with_bad_token (10, 10) = Raise ValueError.
Proof. vm_compute. repeat split; reflexivity. Qed.

(* ================================================================= *)
(** ** Binary64 numbers between 0 and 1 *)

Lemma pow2_pos (k : Z) : 0 <= k -> 0 < 2 ^ k.
Proof. intros. apply Z.pow_pos_nonneg; lia. Qed.

Lemma pow2_split (a b : Z) : 0 <= a -> 0 <= b -> 2 ^ (a + b) = 2 ^ a * 2 ^ b.
Proof. intros. apply Z.pow_add_r; assumption. Qed.

Lemma pow2_le (a b : Z) : 0 <= a <= b -> 2 ^ a <= 2 ^ b.
Proof. intros. apply Z.pow_le_mono_r; lia. Qed.

Lemma digits2_pos_bounds (p : positive) :
  2 ^ (Zpos (digits2_pos p) - 1) <= Zpos p < 2 ^ Zpos (digits2_pos p).
Proof.
  induction p as [p IH | p IH |]; simpl digits2_pos.
  - rewrite Pos2Z.inj_succ. replace (Z.succ (Zpos (digits2_pos p)) - 1)
      with (Z.succ (Zpos (digits2_pos p) - 1)) by lia.
    rewrite !Z.pow_succ_r by lia. lia.
  - rewrite Pos2Z.inj_succ. replace (Z.succ (Zpos (digits2_pos p)) - 1)
      with (Z.succ (Zpos (digits2_pos p) - 1)) by lia.
    rewrite !Z.pow_succ_r by lia. lia.
  - simpl. lia.
Qed.

Lemma fexp_eq (k : Z) : fexp prec emax k = Z.max (k - 53) (-1074).
Proof. reflexivity. Qed.

Lemma bounded_inv (m : positive) (e : Z) :
  bounded prec emax m e = true ->
  Z.max (Zpos (digits2_pos m) + e - 53) (-1074) = e /\ e <= 971.
Proof.
  unfold bounded, canonical_mantissa. rewrite fexp_eq.
  intros H. apply andb_prop in H. destruct H as [H1 H2].
  apply Z.eqb_eq in H1. apply Z.leb_le in H2.
  change (emax - prec) with 971 in H2. split; assumption.
Qed.

Lemma bounded_intro (m : positive) (e : Z) :
  Z.max (Zpos (digits2_pos m) + e - 53) (-1074) = e -> e <= 971 ->
  bounded prec emax m e = true.
Proof.
  intros H1 H2. unfold bounded, canonical_mantissa. rewrite fexp_eq.
  apply andb_true_intro. split; [apply Z.eqb_eq; exact H1 |].
  apply Z.leb_le. exact H2.
Qed.

(** The mantissa of a canonical number: below [2^53], and at least [2^52]
    above the least exponent. *)
Lemma bounded_mantissa (m : positive) (e : Z) :
  bounded prec emax m e = true ->
  -1074 <= e <= 971 /\ Zpos m < 2 ^ 53 /\ (-1074 < e -> 2 ^ 52 <= Zpos m).
Proof.
  intros H. apply bounded_inv in H. destruct H as [H1 H2].
  pose proof (digits2_pos_bounds m) as [Hlo Hhi].
  set (d := Zpos (digits2_pos m)) in *.
  assert (Hd : d <= 53) by lia.
  split; [lia | split].
  - eapply Z.lt_le_trans; [exact Hhi |]. apply pow2_le. lia.
  - intros He. assert (d = 53) by lia. replace 52 with (d - 1) by lia. exact Hlo.
Qed.

Lemma sval_nonneg (x : spec_float) : 0 <= sval x.
Proof.
  destruct x as [s | s | | [|] m e]; cbn [sval]; try (apply Z.le_refl).
  apply Z.mul_nonneg_nonneg; [lia | apply Z.pow_nonneg; lia].
Qed.

Lemma sval_pos (m : positive) (e : Z) :
  -1074 <= e -> 0 < sval (S754_finite false m e).
Proof. intros H. cbn [sval]. pose proof (pow2_pos (e + 1075)). lia. Qed.

Lemma sval_lt_exponent (m1 m2 : positive) (e1 e2 : Z) :
  bounded prec emax m1 e1 = true -> bounded prec emax m2 e2 = true ->
  e1 < e2 ->
  Zpos m1 * 2 ^ (e1 + 1075) < Zpos m2 * 2 ^ (e2 + 1075).
Proof.
  intros H1 H2 He.
  apply bounded_mantissa in H1, H2.
  destruct H1 as [He1 [Hm1 _]]. destruct H2 as [He2 [_ Hm2]].
  specialize (Hm2 ltac:(lia)).
  replace (e2 + 1075) with ((e1 + 1075) + (e2 - e1)) by lia.
  rewrite (pow2_split (e1 + 1075) (e2 - e1)) by lia.
  pose proof (pow2_pos (e1 + 1075) ltac:(lia)) as Hc.
  assert (Ht : 2 <= 2 ^ (e2 - e1)).
  { change 2 with (2 ^ 1) at 1. apply pow2_le. lia. }
  change (2 ^ 53) with (2 * 2 ^ 52) in Hm1.
  set (c := 2 ^ (e1 + 1075)) in *. set (t := 2 ^ (e2 - e1)) in *.
  set (p := 2 ^ 52) in *.
  assert (Zpos m1 * c < 2 * p * c) by nia.
  assert (p * c <= Zpos m2 * c) by nia.
  assert (0 <= Zpos m2 * c) by nia.
  assert (Zpos m2 * c * 2 <= Zpos m2 * c * t)
    by (apply Z.mul_le_mono_nonneg_l; assumption).
  lia.
Qed.

(** On numbers that are not negative the order of the format is the order
    of the values. *)
Lemma SFcompare_sval (x y : spec_float) :
  nonneg x -> nonneg y -> SFcompare x y = Some (sval x ?= sval y).
Proof.
  intros [Vx Nx] [Vy Ny].
  destruct x as [sx | sx | | [|] mx ex]; try contradiction;
    destruct y as [sy | sy | | [|] my ey]; try contradiction; cbn [valid_binary] in Vx, Vy.
  - reflexivity.
  - apply bounded_mantissa in Vy. destruct Vy as [He _].
    pose proof (sval_pos my ey ltac:(lia)) as Hp. cbn [SFcompare sval] in *.
    symmetry. f_equal. apply Z.compare_lt_iff. exact Hp.
  - apply bounded_mantissa in Vx. destruct Vx as [He _].
    pose proof (sval_pos mx ex ltac:(lia)) as Hp. cbn [SFcompare sval] in *.
    symmetry. f_equal. apply Z.compare_gt_iff. exact Hp.
  - cbn [SFcompare sval]. f_equal. destruct (Z.compare_spec ex ey) as [-> | Hlt | Hgt].
    + pose proof (proj1 (bounded_mantissa _ _ Vy)) as He.
      pose proof (pow2_pos (ey + 1075) ltac:(lia)) as Hc.
      rewrite Pos.compare_cont_spec. cbn [Pos.switch_Eq].
      rewrite <- (Zmult_compare_compat_r (Zpos mx) (Zpos my) (2 ^ (ey + 1075)))
        by lia.
      destruct (mx ?= my)%positive eqn:E; simpl; rewrite E; reflexivity.
    + symmetry. apply Z.compare_lt_iff. apply sval_lt_exponent; assumption.
    + symmetry. apply Z.compare_gt_iff. apply sval_lt_exponent; assumption.
Qed.

Lemma SFleb_sval (x y : spec_float) :
  nonneg x -> nonneg y -> SFleb x y = (sval x <=? sval y).
Proof.
  intros Hx Hy. unfold SFleb. rewrite (SFcompare_sval x y Hx Hy).
  unfold Z.leb. destruct (sval x ?= sval y); reflexivity.
Qed.

Lemma SFltb_sval (x y : spec_float) :
  nonneg x -> nonneg y -> SFltb x y = (sval x <? sval y).
Proof.
  intros Hx Hy. unfold SFltb. rewrite (SFcompare_sval x y Hx Hy).
  unfold Z.ltb. destruct (sval x ?= sval y); reflexivity.
Qed.

(* ================================================================= *)
(** ** Rounding to the format *)

Lemma Zdigits2_bounds (z : Z) :
  0 < z -> 2 ^ (Zdigits2 z - 1) <= z < 2 ^ Zdigits2 z.
Proof.
  destruct z as [| p | p]; try lia. intros _. apply digits2_pos_bounds.
Qed.

Lemma Zdigits2_le (z k : Z) : 0 <= k -> 0 <= z < 2 ^ k -> Zdigits2 z <= k.
Proof.
  intros Hk Hz. destruct (Z.eq_dec z 0) as [-> | Hnz]; [simpl; lia |].
  pose proof (Zdigits2_bounds z ltac:(lia)) as [Hlo _].
  destruct (Z.le_gt_cases (Zdigits2 z) k) as [H | H]; [exact H | exfalso].
  assert (2 ^ k <= 2 ^ (Zdigits2 z - 1)) by (apply pow2_le; lia).
  lia.
Qed.

Lemma Zdigits2_ge (z k : Z) : 2 ^ (k - 1) <= z -> 0 < z -> k <= Zdigits2 z.
Proof.
  intros Hz Hp. pose proof (Zdigits2_bounds z Hp) as [_ Hhi].
  destruct (Z.le_gt_cases k (Zdigits2 z)) as [H | H]; [exact H | exfalso].
  assert (0 <= Zdigits2 z).
  { destruct z; simpl; lia. }
  assert (2 ^ Zdigits2 z <= 2 ^ (k - 1)) by (apply pow2_le; lia).
  lia.
Qed.

Lemma shr_1_stands_for (mrs : shr_record) (e v : Z) :
  -1075 <= e -> stands_for mrs e v -> stands_for (shr_1 mrs) (e + 1) v.
Proof.
  intros He. destruct mrs as [m r s]. unfold stands_for. cbn [shr_m shr_r shr_s].
  replace (e + 1 + 1075) with (Z.succ (e + 1075)) by lia.
  rewrite Z.pow_succ_r by lia.
  pose proof (pow2_pos (e + 1075) ltac:(lia)) as Hc.
  set (c := 2 ^ (e + 1075)) in *.
  intros [Hm [Hv Hx]].
  destruct m as [| p | p]; [| | lia].
  - cbn [shr_1 shr_m shr_r shr_s]. rewrite orb_false_l.
    split; [lia | split; [lia |]]. rewrite Hx. lia.
  - destruct p as [p | p |]; cbn [shr_1 shr_m shr_r shr_s].
    + rewrite orb_true_l. rewrite Pos2Z.inj_xI in *.
      split; [lia | split; [lia |]]. split; [discriminate | nia].
    + rewrite orb_false_l. rewrite Pos2Z.inj_xO in *.
      split; [lia | split; [lia |]]. rewrite Hx. lia.
    + rewrite orb_true_l. split; [lia | split; [lia |]]. split; [discriminate | lia].
Qed.

Lemma iter_shr_1_stands_for (n : positive) (v : Z) :
  forall mrs e, -1075 <= e -> stands_for mrs e v ->
                stands_for (iter_pos shr_1 n mrs) (e + Zpos n) v.
Proof.
  induction n as [n IH | n IH |]; intros mrs e He H; cbn [iter_pos].
  - rewrite Pos2Z.inj_xI.
    replace (e + (2 * Zpos n + 1)) with (e + 1 + Zpos n + Zpos n) by lia.
    apply IH; [lia |]. apply IH; [lia |]. apply shr_1_stands_for; assumption.
  - rewrite Pos2Z.inj_xO.
    replace (e + 2 * Zpos n) with (e + Zpos n + Zpos n) by lia.
    apply IH; [lia |]. apply IH; assumption.
  - apply shr_1_stands_for; assumption.
Qed.

Lemma shr_stands_for (mrs : shr_record) (e n v : Z) :
  -1075 <= e -> 0 <= n -> stands_for mrs e v ->
  stands_for (fst (shr mrs e n)) (e + n) v /\ snd (shr mrs e n) = e + n.
Proof.
  intros He Hn H. destruct n as [| p | p]; [| | lia]; cbn [shr fst snd].
  - rewrite Z.add_0_r. split; [exact H | reflexivity].
  - split; [| reflexivity]. apply iter_shr_1_stands_for; assumption.
Qed.

Lemma shr_record_of_loc_stands_for (m e v : Z) (l : location) :
  0 <= m ->
  m * 2 ^ (e + 1075) <= v < (m + 1) * 2 ^ (e + 1075) ->
  (l = loc_Exact <-> v = m * 2 ^ (e + 1075)) ->
  stands_for (shr_record_of_loc m l) e v.
Proof.
  intros Hm Hv Hx. unfold stands_for.
  assert (E : shr_m (shr_record_of_loc m l) = m) by (destruct l as [| []]; reflexivity).
  rewrite E. split; [exact Hm | split; [exact Hv |]].
  rewrite <- Hx. destruct l as [| []]; simpl; split; congruence.
Qed.

Lemma round_nearest_even_cases (mrs : shr_record) :
  let m := round_nearest_even (shr_m mrs) (loc_of_shr_record mrs) in
  (shr_r mrs || shr_s mrs = false -> m = shr_m mrs) /\
  (m = shr_m mrs \/ m = shr_m mrs + 1).
Proof.
  destruct mrs as [m [|] [|]]; cbn [shr_m shr_r shr_s loc_of_shr_record round_nearest_even orb];
    split; try discriminate; auto.
  destruct (Z.even m); auto.
Qed.

(** The mantissa left by the shift to the exponent of the format. *)
Lemma shifted_mantissa_bounds (mx m1 d k0 n v : Z) :
  0 < mx -> 2 ^ (d - 1) <= mx < 2 ^ d -> 1 <= d -> 0 <= k0 -> 0 <= n -> 0 <= m1 ->
  mx * 2 ^ k0 <= v < (mx + 1) * 2 ^ k0 ->
  m1 * 2 ^ (k0 + n) <= v < (m1 + 1) * 2 ^ (k0 + n) ->
  d - n <= 53 ->
  m1 < 2 ^ 53 /\ (n = d - 53 -> 2 ^ 52 <= m1).
Proof.
  intros Hmx Hd Hd1 Hk0 Hn Hm1 Hv0 Hv1 Hdn.
  rewrite (pow2_split k0 n) in Hv1 by assumption.
  pose proof (pow2_pos k0 Hk0) as Hc. pose proof (pow2_pos n Hn) as Ht.
  set (c := 2 ^ k0) in *. set (t := 2 ^ n) in *.
  split.
  - assert (H1 : m1 * t < 2 ^ d) by nia.
    assert (H2 : 2 ^ d <= t * 2 ^ 53).
    { unfold t. rewrite <- pow2_split by lia. apply pow2_le. lia. }
    nia.
  - intros ->.
    assert (H1 : 2 ^ (d - 1) < (m1 + 1) * t) by nia.
    assert (H2 : 2 ^ (d - 1) = t * 2 ^ 52).
    { unfold t. rewrite <- pow2_split by lia. f_equal. lia. }
    nia.
Qed.

(** A value between two neighbours of the format, moved to one of them and
    left alone when it is the lower one, stays between any two values of the
    format around it. *)
Lemma sandwich_arith (m1 m2 K v : Z) :
  1 <= K -> 0 <= m1 ->
  m1 * 2 ^ K <= v < (m1 + 1) * 2 ^ K ->
  (v = m1 * 2 ^ K -> m2 = m1) ->
  (m2 = m1 \/ m2 = m1 + 1) ->
  (1 < K -> 2 ^ 52 <= m1) ->
  (forall l, representable l -> l <= v -> l <= m2 * 2 ^ K) /\
  (forall u, representable u -> v <= u -> m2 * 2 ^ K <= u).
Proof.
  intros HK Hm1 Hv Hexact Hm2 Hnormal.
  pose proof (pow2_pos K ltac:(lia)) as HC.
  assert (Hsmall : forall m k, 0 <= m < 2 ^ 53 -> 1 <= k < K -> m * 2 ^ k < m1 * 2 ^ K).
  { intros m k Hm Hk. specialize (Hnormal ltac:(lia)).
    replace K with (k + (K - k)) by lia. rewrite (pow2_split k (K - k)) by lia.
    pose proof (pow2_pos k ltac:(lia)) as Hc.
    assert (Ht : 2 <= 2 ^ (K - k)).
    { change 2 with (2 ^ 1) at 1. apply pow2_le. lia. }
    change (2 ^ 53) with (2 * 2 ^ 52) in Hm.
    set (c := 2 ^ k) in *. set (t := 2 ^ (K - k)) in *. set (p := 2 ^ 52) in *.
    assert (m * c < 2 * p * c) by nia.
    assert (p * c <= m1 * c) by nia.
    assert (0 <= m1 * c) by nia.
    assert (m1 * c * 2 <= m1 * c * t) by (apply Z.mul_le_mono_nonneg_l; lia).
    lia. }
  assert (Hbig : forall m k, 0 <= m -> K <= k -> exists q, m * 2 ^ k = q * 2 ^ K).
  { intros m k Hm Hk. exists (m * 2 ^ (k - K)).
    replace k with ((k - K) + K) at 1 by lia.
    rewrite (pow2_split (k - K) K) by lia. ring. }
  set (C := 2 ^ K) in *.
  split.
  - intros l [m [k [-> [Hm Hk]]]] Hl.
    destruct (Z.lt_ge_cases k K) as [Hlt | Hge].
    + specialize (Hsmall m k Hm ltac:(lia)). destruct Hm2 as [-> | ->]; nia.
    + destruct (Hbig m k ltac:(lia) Hge) as [q Hq]. rewrite Hq in *.
      assert (q <= m1) by nia. destruct Hm2 as [-> | ->]; nia.
  - intros u [m [k [-> [Hm Hk]]]] Hu.
    destruct (Z.lt_ge_cases k K) as [Hlt | Hge].
    + specialize (Hsmall m k Hm ltac:(lia)). lia.
    + destruct (Hbig m k ltac:(lia) Hge) as [q Hq]. rewrite Hq in *.
      destruct (Z.eq_dec v (m1 * C)) as [E | E].
      * rewrite (Hexact E). lia.
      * assert (m1 < q) by nia. destruct Hm2 as [-> | ->]; nia.
Qed.

Lemma shr_nonpos (mrs : shr_record) (e n : Z) : n <= 0 -> shr mrs e n = (mrs, e).
Proof. intros H. destruct n; [reflexivity | lia | reflexivity]. Qed.

(** Rounding a truncated value to the format, short of overflow: the result
    is a number of the format that is not negative, and it stays between any
    two values of the format around the value rounded. *)
Lemma binary_round_aux_sandwich_wide (mx ex : Z) (lx : location) (v : Z) :
  0 <= mx -> -1074 <= ex ->
  mx * 2 ^ (ex + 1075) <= v < (mx + 1) * 2 ^ (ex + 1075) ->
  (lx = loc_Exact <-> v = mx * 2 ^ (ex + 1075)) ->
  ex <= fexp prec emax (Zdigits2 mx + ex) ->
  v <= 2 ^ 2097 ->
  nonneg (binary_round_aux prec emax false mx ex lx) /\
  (forall l, representable l -> l <= v ->
             l <= sval (binary_round_aux prec emax false mx ex lx)) /\
  (forall u, representable u -> v <= u ->
             sval (binary_round_aux prec emax false mx ex lx) <= u).
Proof.
  intros Hmx Hex Hv Hlx Hpre Hbound.
  rewrite fexp_eq in Hpre.
  remember (binary_round_aux prec emax false mx ex lx) as res eqn:Hres.
  unfold binary_round_aux, shr_fexp in Hres. rewrite fexp_eq in Hres.
  set (e1 := Z.max (Zdigits2 mx + ex - 53) (-1074)) in *.
  destruct (shr_stands_for (shr_record_of_loc mx lx) ex (e1 - ex) v
              ltac:(lia) ltac:(lia)
              (shr_record_of_loc_stands_for mx ex v lx Hmx Hv Hlx)) as [Hst Hsnd].
  replace (ex + (e1 - ex)) with e1 in * by lia.
  destruct (shr (shr_record_of_loc mx lx) ex (e1 - ex)) as [mrs1 e1'].
  cbn [fst snd] in Hst, Hsnd. subst e1'.
  destruct Hst as [Hm1 [Hv1 Hx1]].
  pose proof (round_nearest_even_cases mrs1) as [Hr1 Hr2]. cbv zeta in Hr1, Hr2.
  rewrite fexp_eq in Hres. change (emax - prec) with 971 in Hres.
  set (m1 := shr_m mrs1) in *.
  set (m2 := round_nearest_even m1 (loc_of_shr_record mrs1)) in *.
  assert (Hb : m1 < 2 ^ 53 /\ (-1074 < e1 -> 2 ^ 52 <= m1) /\ e1 <= 970).
  { destruct (Z.eq_dec mx 0) as [E | Hnz].
    - subst mx. cbn [Zdigits2] in *. assert (e1 = -1074) by lia.
      assert (ex = -1074) by lia.
      replace (e1 + 1075) with 1 in * by lia. replace (ex + 1075) with 1 in * by lia.
      change (2 ^ 1) with 2 in *. lia.
    - pose proof (Zdigits2_bounds mx ltac:(lia)) as Hd.
      assert (Hd1 : 1 <= Zdigits2 mx) by (destruct mx; simpl in *; lia).
      set (d := Zdigits2 mx) in *.
      replace (e1 + 1075) with (ex + 1075 + (e1 - ex)) in Hv1 by lia.
      destruct (shifted_mantissa_bounds mx m1 d (ex + 1075) (e1 - ex) v
                  ltac:(lia) Hd Hd1 ltac:(lia) ltac:(lia) Hm1 Hv Hv1 ltac:(lia))
        as [B1 B2].
      split; [exact B1 | split; [intros He1; apply B2; lia |]].
      assert (Hp : 2 ^ (d - 1 + (ex + 1075)) <= 2 ^ 2097).
      { rewrite (pow2_split (d - 1) (ex + 1075)) by lia.
        pose proof (pow2_pos (ex + 1075) ltac:(lia)). nia. }
      apply Z.pow_le_mono_r_iff in Hp; lia. }
  destruct Hb as [Hm1' [Hnormal He1]].
  assert (Hsand : (forall l, representable l -> l <= v -> l <= m2 * 2 ^ (e1 + 1075)) /\
                  (forall u, representable u -> v <= u -> m2 * 2 ^ (e1 + 1075) <= u)).
  { apply (sandwich_arith m1 m2 (e1 + 1075) v); try assumption; try lia.
    intros E. apply Hr1. apply Hx1. exact E. }
  destruct (Z.eq_dec m2 (2 ^ 53)) as [E | Hne].
  - rewrite E in *. change (2 ^ 53) with 9007199254740992 in *.
    cbn [Zdigits2 digits2_pos Pos.succ] in Hres.
    replace (Z.max (54 + e1 - 53) (-1074) - e1) with 1 in Hres by lia.
    cbn [shr iter_pos shr_record_of_loc shr_1 shr_m] in Hres.
    destruct (Z.leb_spec (e1 + 1) 971); [| lia]. subst res.
    split; [| cbn [sval]].
    + split; [| exact I]. apply bounded_intro; [| lia].
      cbn [digits2_pos Pos.succ]. lia.
    + replace (e1 + 1 + 1075) with (Z.succ (e1 + 1075)) by lia.
      rewrite Z.pow_succ_r by lia.
      replace (4503599627370496 * (2 * 2 ^ (e1 + 1075)))
        with (9007199254740992 * 2 ^ (e1 + 1075)) by ring.
      exact Hsand.
  - assert (Hlt : m2 < 2 ^ 53) by lia.
    assert (Hd2 : Zdigits2 m2 <= 53) by (apply Zdigits2_le; lia).
    rewrite shr_nonpos in Hres by lia.
    assert (Em : shr_m (shr_record_of_loc m2 loc_Exact) = m2) by reflexivity.
    rewrite Em in Hres.
    destruct m2 as [| p | p] eqn:Ep; [| | lia].
    + subst res. split; [split; [reflexivity | exact I] |]. cbn [sval].
      rewrite Z.mul_0_l in Hsand. exact Hsand.
    + destruct (Z.leb_spec e1 971); [| lia]. subst res.
      split; [| cbn [sval]; exact Hsand].
      split; [| exact I]. apply bounded_intro; [| lia].
      change (Zpos (digits2_pos p)) with (Zdigits2 (Zpos p)).
      destruct (Z.eq_dec e1 (-1074)) as [E1 | E1]; [lia |].
      assert (53 <= Zdigits2 (Zpos p)).
      { apply Zdigits2_ge; [| lia]. specialize (Hnormal ltac:(lia)). lia. }
      lia.
Qed.

(** The same for the values up to 4, where the sums of the converter are. *)
Lemma binary_round_aux_sandwich (mx ex : Z) (lx : location) (v : Z) :
  0 <= mx -> -1074 <= ex ->
  mx * 2 ^ (ex + 1075) <= v < (mx + 1) * 2 ^ (ex + 1075) ->
  (lx = loc_Exact <-> v = mx * 2 ^ (ex + 1075)) ->
  ex <= fexp prec emax (Zdigits2 mx + ex) ->
  v <= 2 ^ 1077 ->
  nonneg (binary_round_aux prec emax false mx ex lx) /\
  (forall l, representable l -> l <= v ->
             l <= sval (binary_round_aux prec emax false mx ex lx)) /\
  (forall u, representable u -> v <= u ->
             sval (binary_round_aux prec emax false mx ex lx) <= u).
Proof.
  intros Hmx Hex Hv Hlx Hpre Hbound.
  apply binary_round_aux_sandwich_wide; try assumption.
  eapply Z.le_trans; [exact Hbound | apply pow2_le; lia].
Qed.

(* ================================================================= *)
(** ** Sum and half of numbers that are not negative *)

Lemma nonneg_representable (x : spec_float) :
  nonneg x -> representable (sval x) /\ representable (2 * sval x).
Proof.
  intros [V N]. destruct x as [s | s | | [|] m e]; try contradiction; cbn [sval].
  - split; exists 0, 1; lia.
  - cbn [valid_binary] in V. apply bounded_mantissa in V. destruct V as [He [Hm _]].
    split.
    + exists (Zpos m), (e + 1075). lia.
    + exists (Zpos m), (e + 1076). split; [| lia].
      replace (e + 1076) with (Z.succ (e + 1075)) by lia.
      rewrite Z.pow_succ_r by lia. ring.
Qed.

Lemma iter_xO (d m : positive) : Zpos (Pos.iter xO m d) = Zpos m * 2 ^ Zpos d.
Proof.
  induction d as [| d IH] using Pos.peano_ind.
  - cbn [Pos.iter]. rewrite Z.pow_1_r. lia.
  - rewrite Pos.iter_succ, Pos2Z.inj_xO, IH, Pos2Z.inj_succ, Z.pow_succ_r by lia. ring.
Qed.

Lemma shl_align_low (m : positive) (e e' : Z) :
  e' <= e ->
  Zpos (fst (shl_align m e e')) = Zpos m * 2 ^ (e - e').
Proof.
  intros H. unfold shl_align. destruct (e' - e) as [| d | d] eqn:E; cbn [fst]; try lia.
  - replace (e - e') with 0 by lia. change (2 ^ 0) with 1. ring.
  - rewrite iter_xO. f_equal. f_equal. lia.
Qed.

Lemma shl_align_high (m : positive) (e e' : Z) : e <= e' -> shl_align m e e' = (m, e).
Proof.
  intros H. unfold shl_align. destruct (e' - e) as [| d | d] eqn:E; try reflexivity. lia.
Qed.

(** The sum of two numbers that are not negative, short of overflow. *)
Lemma SFadd_sandwich (x y : spec_float) :
  nonneg x -> nonneg y -> sval x + sval y <= 2 ^ 1077 ->
  nonneg (SF64add x y) /\
  (forall l, representable l -> l <= sval x + sval y -> l <= sval (SF64add x y)) /\
  (forall u, representable u -> sval x + sval y <= u -> sval (SF64add x y) <= u).
Proof.
  intros Hx Hy Hb. pose proof Hx as [Vx Nx]. pose proof Hy as [Vy Ny].
  destruct x as [sx | sx | | [|] mx ex]; try contradiction;
    destruct y as [sy | sy | | [|] my ey]; try contradiction.
  - assert (E : sval (SF64add (S754_zero sx) (S754_zero sy)) = 0
                /\ nonneg (SF64add (S754_zero sx) (S754_zero sy))).
    { destruct sx, sy; split; try reflexivity; split; try reflexivity; exact I. }
    destruct E as [E N]. rewrite E. cbn [sval]. split; [exact N | split; intros; lia].
  - change (SF64add (S754_zero sx) (S754_finite false my ey)) with (S754_finite false my ey).
    cbn [sval] in *. split; [exact Hy | split; intros; lia].
  - change (SF64add (S754_finite false mx ex) (S754_zero sy)) with (S754_finite false mx ex).
    cbn [sval] in *. split; [exact Hx | split; intros; lia].
  - cbn [valid_binary] in Vx, Vy.
    pose proof (bounded_inv _ _ Vx) as [Cx _]. pose proof (bounded_inv _ _ Vy) as [Cy _].
    pose proof (bounded_mantissa _ _ Vx) as [Hex _].
    pose proof (bounded_mantissa _ _ Vy) as [Hey _].
    remember (SF64add (S754_finite false mx ex) (S754_finite false my ey)) as res eqn:Hres.
    unfold SF64add, SFadd in Hres. cbn [cond_Zopp] in Hres.
    set (ez := Z.min ex ey) in *.
    pose proof (shl_align_low mx ex ez ltac:(lia)) as Ea.
    pose proof (shl_align_low my ey ez ltac:(lia)) as Eb.
    set (ma := fst (shl_align mx ex ez)) in *. set (mb := fst (shl_align my ey ez)) in *.
    change (Zpos ma + Zpos mb) with (Zpos (ma + mb)) in Hres.
    cbn [binary_normalize] in Hres. unfold binary_round in Hres.
    assert (Hv : Zpos (ma + mb) * 2 ^ (ez + 1075)
                 = sval (S754_finite false mx ex) + sval (S754_finite false my ey)).
    { cbn [sval]. rewrite Pos2Z.inj_add, Ea, Eb.
      replace (ex + 1075) with ((ex - ez) + (ez + 1075)) by lia.
      replace (ey + 1075) with ((ey - ez) + (ez + 1075)) by lia.
      rewrite (pow2_split (ex - ez) (ez + 1075)), (pow2_split (ey - ez) (ez + 1075)) by lia.
      ring. }
    assert (Hpre : ez <= fexp prec emax (Zdigits2 (Zpos (ma + mb)) + ez)).
    { rewrite fexp_eq.
      pose proof (pow2_pos (ex - ez) ltac:(lia)). pose proof (pow2_pos (ey - ez) ltac:(lia)).
      destruct (Z.le_ge_cases ex ey) as [Hle | Hle].
      - (* ez = ex, the other operand carries the larger exponent *)
        pose proof (digits2_pos_bounds my) as [Hlo _].
        assert (Zpos (digits2_pos my) + (ey - ez) <= Zdigits2 (Zpos (ma + mb))).
        { apply Zdigits2_ge; [| lia].
          replace (Zpos (digits2_pos my) + (ey - ez) - 1)
            with ((Zpos (digits2_pos my) - 1) + (ey - ez)) by lia.
          rewrite pow2_split by lia. rewrite Pos2Z.inj_add, Eb. nia. }
        lia.
      - pose proof (digits2_pos_bounds mx) as [Hlo _].
        assert (Zpos (digits2_pos mx) + (ex - ez) <= Zdigits2 (Zpos (ma + mb))).
        { apply Zdigits2_ge; [| lia].
          replace (Zpos (digits2_pos mx) + (ex - ez) - 1)
            with ((Zpos (digits2_pos mx) - 1) + (ex - ez)) by lia.
          rewrite pow2_split by lia. rewrite Pos2Z.inj_add, Ea. nia. }
        lia. }
    change (Zpos (digits2_pos (ma + mb))) with (Zdigits2 (Zpos (ma + mb))) in Hres.
    rewrite shl_align_high in Hres by exact Hpre.
    subst res. rewrite <- Hv in *.
    pose proof (pow2_pos (ez + 1075) ltac:(lia)).
    apply binary_round_aux_sandwich; try lia; try exact Hpre.
    split; reflexivity.
Qed.

(** The half of a number that is not negative. *)
Lemma SFdiv_two_sandwich (x : spec_float) :
  nonneg x -> sval x <= 2 ^ 1077 ->
  nonneg (SF64div x SF_two) /\
  (forall l, representable l -> 2 * l <= sval x -> l <= sval (SF64div x SF_two)) /\
  (forall u, representable u -> sval x <= 2 * u -> sval (SF64div x SF_two) <= u).
Proof.
  intros Hx Hb. pose proof Hx as [Vx Nx].
  destruct x as [sx | sx | | [|] mx ex]; try contradiction.
  - change (SF64div (S754_zero sx) SF_two) with (S754_zero (xorb sx false)).
    cbn [sval] in *.
    split; [split; [reflexivity | exact I] | split; intros; lia].
  - cbn [valid_binary] in Vx.
    pose proof (bounded_inv _ _ Vx) as [Cx _].
    pose proof (bounded_mantissa _ _ Vx) as [Hex [Hmx _]].
    pose proof (digits2_pos_bounds mx) as [Hlo Hhi].
    remember (SF64div (S754_finite false mx ex) SF_two) as res eqn:Hres.
    unfold SF64div, SFdiv, SF_two, SFdiv_core_binary in Hres. cbn [xorb] in Hres.
    cbn [Zdigits2 digits2_pos Pos.succ] in Hres. rewrite fexp_eq in Hres.
    set (d := Zpos (digits2_pos mx)) in *.
    set (e' := Z.max (d + ex - 55) (-1074)).
    replace (Z.min (Z.max (d + ex - (53 + -51) - 53) (-1074)) (ex - -51)) with e'
      in Hres by (unfold e'; lia).
    assert (Hs : 0 < ex - -51 - e') by (unfold e'; lia).
    destruct (ex - -51 - e') as [| s | s] eqn:Es; try lia.
    rewrite <- Es in Hres. rewrite Z.shiftl_mul_pow2 in Hres by lia.
    pose proof (Z_div_mod (Zpos mx * 2 ^ (ex - -51 - e')) 4503599627370496 ltac:(lia)) as Hdm.
    destruct (Z.div_eucl (Zpos mx * 2 ^ (ex - -51 - e')) 4503599627370496) as [q r].
    destruct Hdm as [Hdiv Hr].
    unfold new_location in Hres.
    change (Z.even 4503599627370496) with true in Hres. cbv iota in Hres.
    unfold new_location_even in Hres.
    (* the value halved, and the powers of two around it *)
    set (v := Zpos mx * 2 ^ (ex + 1074)).
    assert (Hv2 : sval (S754_finite false mx ex) = 2 * v).
    { cbn [sval]. unfold v. replace (ex + 1075) with (Z.succ (ex + 1074)) by lia.
      rewrite Z.pow_succ_r by lia. ring. }
    rewrite Hv2 in *.
    assert (HK : 1 <= e' + 1075) by (unfold e'; lia).
    pose proof (pow2_pos (e' + 1075) ltac:(lia)) as HC.
    assert (Hpow : 2 ^ (ex + 1074) * 4503599627370496
                   = 2 ^ (ex - -51 - e') * 2 ^ (e' + 1075)).
    { change 4503599627370496 with (2 ^ 52). rewrite <- !pow2_split by lia.
      f_equal. lia. }
    assert (HvP : v * 4503599627370496
                  = (4503599627370496 * q + r) * 2 ^ (e' + 1075)).
    { unfold v. rewrite <- Hdiv. rewrite <- !Z.mul_assoc. rewrite Hpow. ring. }
    assert (Hq : 0 <= q) by nia.
    assert (Hbounds : q * 2 ^ (e' + 1075) <= v < (q + 1) * 2 ^ (e' + 1075)) by nia.
    assert (Hexact : r = 0 <-> v = q * 2 ^ (e' + 1075)) by (split; nia).
    assert (Hpre : e' <= fexp prec emax (Zdigits2 q + e')).
    { rewrite fexp_eq. destruct (Z.eq_dec e' (-1074)) as [E | E]; [lia |].
      assert (Ee : e' = d + ex - 55) by (unfold e' in *; lia).
      assert (53 <= Zdigits2 q); [| lia].
      assert (Hs' : ex - -51 - e' = (106 - d)) by lia.
      assert (Hbig : 2 ^ 105 <= Zpos mx * 2 ^ (ex - -51 - e')).
      { rewrite Hs'. replace 105 with ((d - 1) + (106 - d)) by lia.
        rewrite pow2_split by lia.
        pose proof (pow2_pos (106 - d) ltac:(lia)). nia. }
      change (2 ^ 105) with (4503599627370496 * 9007199254740992) in Hbig.
      apply Zdigits2_ge; [| lia]. change (2 ^ (53 - 1)) with 4503599627370496. lia. }
    assert (Hloc : (if r =? 0 then loc_Exact else loc_Inexact (2 * r ?= 4503599627370496))
                   = loc_Exact <-> v = q * 2 ^ (e' + 1075)).
    { rewrite <- Hexact. destruct (Z.eqb_spec r 0); split; intros; congruence. }
    subst res.
    destruct (binary_round_aux_sandwich q e' _ v Hq ltac:(unfold e'; lia) Hbounds Hloc
                Hpre ltac:(lia)) as [N [L U]].
    split; [exact N | split].
    + intros l Hl Hle. apply L; [exact Hl | lia].
    + intros u Hu Hle. apply U; [exact Hu | lia].
Qed.

(* ================================================================= *)
(** ** Floats of the unit interval *)

Lemma Prim2SF_two : Prim2SF 2 = SF_two.
Proof. reflexivity. Qed.

Lemma in_unit_nonneg (x : float) :
  in_unit x -> nonneg (Prim2SF x) /\ fval x <= 2 ^ 1075.
Proof.
  intros [H0 H1]. rewrite leb_spec in H0, H1.
  change (Prim2SF 0) with (S754_zero false) in H0.
  change (Prim2SF 1) with (S754_finite false 4503599627370496 (-52)) in H1.
  pose proof (Prim2SF_valid x) as V. unfold fval.
  assert (N : nonneg (Prim2SF x)).
  { split; [exact V |].
    destruct (Prim2SF x) as [s | [|] | | [|] m e]; try exact I; discriminate. }
  split; [exact N |].
  assert (N1 : nonneg (S754_finite false 4503599627370496 (-52))).
  { split; [reflexivity | exact I]. }
  rewrite (SFleb_sval _ _ N N1) in H1. apply Z.leb_le in H1.
  assert (E : sval (S754_finite false 4503599627370496 (-52)) = 2 ^ 1075).
  { cbn [sval]. change 4503599627370496 with (2 ^ 52).
    rewrite <- pow2_split by lia. f_equal. }
  rewrite E in H1. exact H1.
Qed.

Lemma leb_fval (x y : float) :
  in_unit x -> in_unit y -> (x <=? y)%float = (fval x <=? fval y).
Proof.
  intros Hx Hy. rewrite leb_spec. apply SFleb_sval; apply in_unit_nonneg; assumption.
Qed.

Lemma ltb_fval (x y : float) :
  in_unit x -> in_unit y -> (x <? y)%float = (fval x <? fval y).
Proof.
  intros Hx Hy. rewrite ltb_spec. apply SFltb_sval; apply in_unit_nonneg; assumption.
Qed.

(** The midpoint that the converter computes lies between its two ends. *)
Lemma midpoint_between (a b : float) :
  in_unit a -> in_unit b -> (a <=? b)%float = true ->
  (a <=? (a + b) / 2)%float = true /\ ((a + b) / 2 <=? b)%float = true.
Proof.
  intros Ha Hb Hab.
  rewrite (leb_fval a b Ha Hb) in Hab. apply Z.leb_le in Hab.
  destruct (in_unit_nonneg a Ha) as [Na Ba]. destruct (in_unit_nonneg b Hb) as [Nb Bb].
  unfold fval in *.
  destruct (nonneg_representable _ Na) as [Ra Ra2].
  destruct (nonneg_representable _ Nb) as [Rb Rb2].
  assert (Hp : 2 ^ 1077 = 4 * 2 ^ 1075).
  { change 1077 with (2 + 1075). rewrite pow2_split by lia. reflexivity. }
  destruct (SFadd_sandwich (Prim2SF a) (Prim2SF b) Na Nb ltac:(lia)) as [Ns [Ls Us]].
  specialize (Ls _ Ra2 ltac:(lia)). specialize (Us _ Rb2 ltac:(lia)).
  rewrite <- add_spec in Ns, Ls, Us.
  destruct (SFdiv_two_sandwich (Prim2SF (a + b)) Ns ltac:(lia)) as [Nd [Ld Ud]].
  specialize (Ld _ Ra Ls). specialize (Ud _ Rb Us).
  rewrite <- Prim2SF_two, <- div_spec in Nd, Ld, Ud.
  rewrite !leb_spec.
  rewrite (SFleb_sval _ _ Na Nd), (SFleb_sval _ _ Nd Nb).
  split; apply Z.leb_le; assumption.
Qed.

(** *** [min] and [max] *)

Lemma fold_min_step (r : list float) :
  forall x, Forall in_unit (x :: r) ->
            In (fold_left Float.min_step r x) (x :: r) /\
            forall y, In y (x :: r) -> fval (fold_left Float.min_step r x) <= fval y.
Proof.
  induction r as [| a r IH]; intros x Hall; cbn [fold_left].
  - split; [left; reflexivity |]. intros y [<- | []]. lia.
  - inversion Hall as [| ? ? Hx Hr]; subst. inversion Hr as [| ? ? Ha Hr']; subst.
    assert (Hc : (Float.min_step x a = x \/ Float.min_step x a = a) /\
                 fval (Float.min_step x a) <= fval x /\
                 fval (Float.min_step x a) <= fval a).
    { unfold Float.min_step. rewrite (ltb_fval a x Ha Hx).
      destruct (Z.ltb_spec (fval a) (fval x)); split; auto; lia. }
    destruct Hc as [Hc [Hcx Hca]].
    assert (Hin : in_unit (Float.min_step x a)) by (destruct Hc as [-> | ->]; assumption).
    destruct (IH (Float.min_step x a) (Forall_cons _ Hin Hr')) as [Hm Hle].
    split.
    + destruct Hm as [Hm | Hm]; [| right; right; exact Hm].
      rewrite <- Hm. destruct Hc as [-> | ->]; [left | right; left]; reflexivity.
    + pose proof (Hle _ (or_introl eq_refl)) as H0.
      intros y [<- | [<- | Hy]]; [lia | lia |]. apply Hle. right. exact Hy.
Qed.

Lemma fold_max_step (r : list float) :
  forall x, Forall in_unit (x :: r) ->
            In (fold_left Float.max_step r x) (x :: r) /\
            forall y, In y (x :: r) -> fval y <= fval (fold_left Float.max_step r x).
Proof.
  induction r as [| a r IH]; intros x Hall; cbn [fold_left].
  - split; [left; reflexivity |]. intros y [<- | []]. lia.
  - inversion Hall as [| ? ? Hx Hr]; subst. inversion Hr as [| ? ? Ha Hr']; subst.
    assert (Hc : (Float.max_step x a = x \/ Float.max_step x a = a) /\
                 fval x <= fval (Float.max_step x a) /\
                 fval a <= fval (Float.max_step x a)).
    { unfold Float.max_step. rewrite (ltb_fval x a Hx Ha).
      destruct (Z.ltb_spec (fval x) (fval a)); split; auto; lia. }
    destruct Hc as [Hc [Hcx Hca]].
    assert (Hin : in_unit (Float.max_step x a)) by (destruct Hc as [-> | ->]; assumption).
    destruct (IH (Float.max_step x a) (Forall_cons _ Hin Hr')) as [Hm Hle].
    split.
    + destruct Hm as [Hm | Hm]; [| right; right; exact Hm].
      rewrite <- Hm. destruct Hc as [-> | ->]; [left | right; left]; reflexivity.
    + pose proof (Hle _ (or_introl eq_refl)) as H0.
      intros y [<- | [<- | Hy]]; [lia | lia |]. apply Hle. right. exact Hy.
Qed.

Lemma min_is_least (l : list float) :
  l <> [] -> Forall in_unit l ->
  exists m, Float.min l = Ok m /\ is_least m l /\ in_unit m.
Proof.
  intros Hne Hall. destruct l as [| x r]; [congruence |].
  exists (fold_left Float.min_step r x). split; [reflexivity |].
  destruct (fold_min_step r x Hall) as [Hin Hle].
  assert (Hu : in_unit (fold_left Float.min_step r x)).
  { rewrite Forall_forall in Hall. apply Hall. exact Hin. }
  split; [| exact Hu]. split; [exact Hin |].
  intros y Hy. rewrite leb_fval; [| exact Hu |].
  - apply Z.leb_le. apply Hle. exact Hy.
  - rewrite Forall_forall in Hall. apply Hall. exact Hy.
Qed.

Lemma max_is_greatest (l : list float) :
  l <> [] -> Forall in_unit l ->
  exists m, Float.max l = Ok m /\ is_greatest m l /\ in_unit m.
Proof.
  intros Hne Hall. destruct l as [| x r]; [congruence |].
  exists (fold_left Float.max_step r x). split; [reflexivity |].
  destruct (fold_max_step r x Hall) as [Hin Hle].
  assert (Hu : in_unit (fold_left Float.max_step r x)).
  { rewrite Forall_forall in Hall. apply Hall. exact Hin. }
  split; [| exact Hu]. split; [exact Hin |].
  intros y Hy. rewrite leb_fval; [| | exact Hu].
  - apply Z.leb_le. apply Hle. exact Hy.
  - rewrite Forall_forall in Hall. apply Hall. exact Hy.
Qed.

(* ================================================================= *)
(** ** The box of a polygon *)

Lemma slice_even_cons_flatten (b : float) (vertices : list (float * float)) :
  slice_even (b :: flatten vertices) = b :: map snd vertices.
Proof.
  revert b. induction vertices as [| v vs IH]; intros b; [reflexivity |].
  cbn [flatten flat_map app map]. cbn [slice_even]. f_equal. apply IH.
Qed.

Lemma slice_even_flatten (vertices : list (float * float)) :
  slice_even (flatten vertices) = map fst vertices.
Proof.
  induction vertices as [| v vs IH]; [reflexivity |].
  cbn [flatten flat_map app map]. cbn [slice_even]. f_equal. exact IH.
Qed.

Lemma slice_odd_flatten (vertices : list (float * float)) :
  slice_odd (flatten vertices) = map snd vertices.
Proof.
  destruct vertices as [| v vs]; [reflexivity |].
  unfold slice_odd. cbn [flatten flat_map app tl map].
  apply slice_even_cons_flatten.
Qed.

Lemma length_flatten (vertices : list (float * float)) :
  List.length (flatten vertices) = (2 * List.length vertices)%nat.
Proof.
  induction vertices as [| v vs IH]; [reflexivity |].
  cbn [flatten flat_map app List.length]. fold (flatten vs). rewrite IH. lia.
Qed.

(** The integer that [.6f] prints for a quotient is a nearest one. *)
Lemma div_half_even_nearest (n d : Z) :
  0 < d -> 2 * Z.abs (Float.div_half_even n d * d - n) <= d.
Proof.
  intros Hd. unfold Float.div_half_even.
  pose proof (Z_div_mod_eq_full n d) as E.
  pose proof (Z.mod_pos_bound n d Hd) as Hr.
  destruct (Z.compare_spec (2 * (n mod d)) d) as [H | H | H].
  - destruct (Z.even (n / d)); nia.
  - nia.
  - nia.
Qed.

(** What [.6f] prints for a finite float [m * 2^e]: the fixed-point text of
    an integer number [n] of millionths at most half a millionth away from
    the float (both sides counted in units of [2^-1075]). *)
Lemma format_6f_nearest (x : float) (s : bool) (m : positive) (e : Z) :
  Prim2SF x = S754_finite s m e ->
  exists n,
    Float.format_6f x = Float.fixed6 s n /\
    2 * Z.abs (n * 2 ^ 1075 - 1000000 * (Zpos m * 2 ^ (e + 1075))) <= 2 ^ 1075.
Proof.
  intros E. pose proof (Prim2SF_valid x) as V. rewrite E in V. cbn [valid_binary] in V.
  apply bounded_mantissa in V. destruct V as [He _].
  exists (Float.scaled_half_even m e 6). split.
  - unfold Float.format_6f. rewrite E. reflexivity.
  - unfold Float.scaled_half_even. change (10 ^ 6) with 1000000.
    pose proof (pow2_pos 1075 ltac:(lia)) as H1075.
    destruct (Z.leb_spec 0 e) as [Hpos | Hneg].
    + replace (e + 1075) with (1075 + e) by lia. rewrite pow2_split by lia.
      replace (Zpos m * 2 ^ e * 1000000 * 2 ^ 1075
               - 1000000 * (Zpos m * (2 ^ 1075 * 2 ^ e))) with 0 by ring.
      simpl Z.abs. lia.
    + pose proof (div_half_even_nearest (Zpos m * 1000000) (2 ^ (- e))
                    (pow2_pos (- e) ltac:(lia))) as Hn.
      set (n := Float.div_half_even (Zpos m * 1000000) (2 ^ (- e))) in *.
      pose proof (pow2_pos (e + 1075) ltac:(lia)) as Hc.
      assert (Hd : 2 ^ 1075 = 2 ^ (- e) * 2 ^ (e + 1075)).
      { rewrite <- pow2_split by lia. f_equal. lia. }
      rewrite Hd.
      replace (n * (2 ^ (- e) * 2 ^ (e + 1075)) - 1000000 * (Zpos m * 2 ^ (e + 1075)))
        with ((n * 2 ^ (- e) - Zpos m * 1000000) * 2 ^ (e + 1075)) by ring.
      rewrite Z.abs_mul, (Z.abs_eq (2 ^ (e + 1075))) by lia.
      nia.
Qed.


(** *** Differences, and the numbers of the unit interval *)

Lemma Zdigits2_shift (p : positive) (k : Z) :
  0 <= k -> Zdigits2 (Zpos p * 2 ^ k) = Zdigits2 (Zpos p) + k.
Proof.
  intros Hk. pose proof (digits2_pos_bounds p) as [Hlo Hhi].
  change (Zdigits2 (Zpos p)) with (Zpos (digits2_pos p)).
  assert (Hd : 1 <= Zpos (digits2_pos p)) by lia.
  set (d := Zpos (digits2_pos p)) in *.
  pose proof (pow2_pos k Hk) as Hc.
  apply Z.le_antisymm.
  - apply Zdigits2_le; [lia |]. rewrite pow2_split by lia. nia.
  - apply Zdigits2_ge; [| nia].
    replace (d + k - 1) with ((d - 1) + k) by lia. rewrite pow2_split by lia. nia.
Qed.

(** Rounding a positive integer multiple of a power of two. *)
Lemma binary_round_sandwich (p : positive) (e : Z) :
  -1074 <= e -> Zpos p * 2 ^ (e + 1075) <= 2 ^ 2097 ->
  nonneg (binary_round prec emax false p e) /\
  (forall l, representable l -> l <= Zpos p * 2 ^ (e + 1075) ->
             l <= sval (binary_round prec emax false p e)) /\
  (forall u, representable u -> Zpos p * 2 ^ (e + 1075) <= u ->
             sval (binary_round prec emax false p e) <= u).
Proof.
  intros He Hb. unfold binary_round. rewrite fexp_eq.
  set (d := Zpos (digits2_pos p)). set (e' := Z.max (d + e - 53) (-1074)).
  pose proof (pow2_pos (e + 1075) ltac:(lia)) as Hc.
  destruct (Z.le_gt_cases e e') as [Hle | Hgt].
  - rewrite shl_align_high by exact Hle.
    apply binary_round_aux_sandwich_wide; try lia.
    + split; reflexivity.
    + rewrite fexp_eq. exact Hle.
  - pose proof (shl_align_low p e e' ltac:(lia)) as Ea.
    assert (Es : snd (shl_align p e e') = e').
    { unfold shl_align. destruct (e' - e) eqn:E; try lia. reflexivity. }
    destruct (shl_align p e e') as [mz ez]. cbn [fst snd] in *. subst ez.
    assert (Hv : Zpos mz * 2 ^ (e' + 1075) = Zpos p * 2 ^ (e + 1075)).
    { rewrite Ea. replace (e + 1075) with ((e - e') + (e' + 1075)) by lia.
      rewrite (pow2_split (e - e') (e' + 1075)) by lia. ring. }
    rewrite <- Hv in *.
    pose proof (pow2_pos (e' + 1075) ltac:(lia)) as Hc'.
    apply binary_round_aux_sandwich_wide; try lia.
    + split; reflexivity.
    + rewrite fexp_eq, Ea, Zdigits2_shift by lia.
      change (Zdigits2 (Zpos p)) with d. lia.
Qed.

(** The difference of two numbers that are not negative, the greater
    first. *)
Lemma SFsub_sandwich (x y : spec_float) :
  nonneg x -> nonneg y -> sval y <= sval x -> sval x <= 2 ^ 2097 ->
  nonneg (SF64sub x y) /\
  (forall l, representable l -> l <= sval x - sval y -> l <= sval (SF64sub x y)) /\
  (forall u, representable u -> sval x - sval y <= u -> sval (SF64sub x y) <= u).
Proof.
  intros Hx Hy Hle Hb. pose proof Hx as [Vx Nx]. pose proof Hy as [Vy Ny].
  destruct x as [sx | sx | | [|] mx ex]; try contradiction;
    destruct y as [sy | sy | | [|] my ey]; try contradiction.
  - assert (E : sval (SF64sub (S754_zero sx) (S754_zero sy)) = 0
                /\ nonneg (SF64sub (S754_zero sx) (S754_zero sy))).
    { destruct sx, sy; split; try reflexivity; split; try reflexivity; exact I. }
    destruct E as [E N]. rewrite E. cbn [sval]. split; [exact N | split; intros; lia].
  - exfalso. cbn [valid_binary] in Vy. apply bounded_mantissa in Vy. destruct Vy as [He _].
    pose proof (sval_pos my ey ltac:(lia)). cbn [sval] in *. lia.
  - change (SF64sub (S754_finite false mx ex) (S754_zero sy)) with (S754_finite false mx ex).
    cbn [sval] in *. split; [exact Hx | split; intros; lia].
  - cbn [valid_binary] in Vx, Vy.
    pose proof (bounded_mantissa _ _ Vx) as [Hex _].
    pose proof (bounded_mantissa _ _ Vy) as [Hey _].
    remember (SF64sub (S754_finite false mx ex) (S754_finite false my ey)) as res eqn:Hres.
    unfold SF64sub, SFsub in Hres. cbn [cond_Zopp] in Hres.
    set (ez := Z.min ex ey) in *.
    pose proof (shl_align_low mx ex ez ltac:(lia)) as Ea.
    pose proof (shl_align_low my ey ez ltac:(lia)) as Eb.
    set (ma := fst (shl_align mx ex ez)) in *. set (mb := fst (shl_align my ey ez)) in *.
    pose proof (pow2_pos (ez + 1075) ltac:(lia)) as Hc.
    assert (Hv : (Zpos ma - Zpos mb) * 2 ^ (ez + 1075)
                 = sval (S754_finite false mx ex) - sval (S754_finite false my ey)).
    { cbn [sval]. rewrite Ea, Eb.
      replace (ex + 1075) with ((ex - ez) + (ez + 1075)) by lia.
      replace (ey + 1075) with ((ey - ez) + (ez + 1075)) by lia.
      rewrite (pow2_split (ex - ez) (ez + 1075)), (pow2_split (ey - ez) (ez + 1075)) by lia.
      ring. }
    rewrite <- Hv in *.
    assert (Hpos : 0 < sval (S754_finite false my ey)) by (apply sval_pos; lia).
    destruct (Zpos ma - Zpos mb) as [| q | q] eqn:D.
    + cbn [binary_normalize] in Hres. subst res. cbn [sval].
      split; [split; [reflexivity | exact I] | split; intros; lia].
    + cbn [binary_normalize] in Hres. subst res.
      apply binary_round_sandwich; [lia |]. lia.
    + exfalso. nia.
Qed.

(** *** Floats of the unit interval, again *)

Lemma sval_one : sval (S754_finite false 4503599627370496 (-52)) = 2 ^ 1075.
Proof.
  cbn [sval]. change 4503599627370496 with (2 ^ 52).
  rewrite <- pow2_split by lia. f_equal.
Qed.

Lemma in_unit_intro (x : float) :
  nonneg (Prim2SF x) -> fval x <= 2 ^ 1075 -> in_unit x.
Proof.
  intros N B. unfold in_unit. rewrite !leb_spec.
  change (Prim2SF 0) with (S754_zero false).
  change (Prim2SF 1) with (S754_finite false 4503599627370496 (-52)).
  assert (N0 : nonneg (S754_zero false)) by (split; [reflexivity | exact I]).
  assert (N1 : nonneg (S754_finite false 4503599627370496 (-52)))
    by (split; [reflexivity | exact I]).
  rewrite (SFleb_sval _ _ N0 N), (SFleb_sval _ _ N N1), sval_one.
  split; apply Z.leb_le; [apply sval_nonneg | exact B].
Qed.

Lemma pow2_1075_le : 2 ^ 1075 <= 2 ^ 2097.
Proof. apply pow2_le. lia. Qed.

Lemma pow2_1077 : 2 ^ 1077 = 4 * 2 ^ 1075.
Proof. change 1077 with (2 + 1075). rewrite pow2_split by lia. reflexivity. Qed.

(** The width and the height of the converter. *)
Lemma difference_in_unit (a b : float) :
  in_unit a -> in_unit b -> (a <=? b)%float = true -> in_unit (b - a).
Proof.
  intros Ha Hb Hab.
  rewrite (leb_fval a b Ha Hb) in Hab. apply Z.leb_le in Hab.
  destruct (in_unit_nonneg a Ha) as [Na Ba]. destruct (in_unit_nonneg b Hb) as [Nb Bb].
  unfold fval in *. pose proof pow2_1075_le.
  destruct (nonneg_representable _ Nb) as [Rb _].
  destruct (SFsub_sandwich (Prim2SF b) (Prim2SF a) Nb Na Hab ltac:(lia)) as [N [_ U]].
  pose proof (sval_nonneg (Prim2SF a)).
  specialize (U _ Rb ltac:(lia)). rewrite <- sub_spec in N, U.
  apply in_unit_intro; [exact N | unfold fval; lia].
Qed.

(** The centres of the converter. *)
Lemma midpoint_in_unit (a b : float) :
  in_unit a -> in_unit b -> (a <=? b)%float = true -> in_unit ((a + b) / 2).
Proof.
  intros Ha Hb Hab.
  rewrite (leb_fval a b Ha Hb) in Hab. apply Z.leb_le in Hab.
  destruct (in_unit_nonneg a Ha) as [Na Ba]. destruct (in_unit_nonneg b Hb) as [Nb Bb].
  unfold fval in *.
  destruct (nonneg_representable _ Nb) as [Rb Rb2].
  pose proof pow2_1077 as Hp.
  destruct (SFadd_sandwich (Prim2SF a) (Prim2SF b) Na Nb ltac:(lia)) as [Ns [_ Us]].
  specialize (Us _ Rb2 ltac:(lia)).
  rewrite <- add_spec in Ns, Us.
  destruct (SFdiv_two_sandwich (Prim2SF (a + b)) Ns ltac:(lia)) as [Nd [_ Ud]].
  specialize (Ud _ Rb Us).
  rewrite <- Prim2SF_two, <- div_spec in Nd, Ud.
  apply in_unit_intro; [exact Nd | unfold fval; lia].
Qed.

(** A number of the unit interval is printed as a number of millionths from
    0 to 1000000, with a minus sign on a negative zero only. *)
Lemma format_6f_in_unit (x : float) :
  in_unit x ->
  exists s n,
    Float.format_6f x = Float.fixed6 s n /\ 0 <= n <= 1000000 /\ (s = true -> n = 0).
Proof.
  intros Hx. destruct (in_unit_nonneg x Hx) as [[V N] B]. unfold fval in B.
  destruct (Prim2SF x) as [s | s | | s m e] eqn:E; try contradiction.
  - exists s, 0. split; [| split; [lia | reflexivity]].
    unfold Float.format_6f. rewrite E. reflexivity.
  - destruct s; [contradiction |].
    destruct (format_6f_nearest x false m e E) as [n [Hf Hn]].
    exists false, n. split; [exact Hf |]. split; [| discriminate]. cbn [sval] in B.
    pose proof (pow2_pos 1075 ltac:(lia)) as H1075.
    cbn [valid_binary] in V. apply bounded_mantissa in V. destruct V as [He _].
    pose proof (pow2_pos (e + 1075) ltac:(lia)) as Hc.
    set (v := Zpos m * 2 ^ (e + 1075)) in *. set (P := 2 ^ 1075) in *.
    assert (0 < v) by (unfold v; nia).
    split; nia.
Qed.

(** *** The record of a valid polygon *)

Lemma fixed6_six_decimals (n : Z) :
  0 <= n <= 1000000 ->
  six_decimals (Float.fixed6 false n) n.
Proof.
  intros Hn. unfold Float.fixed6. cbn [append].
  set (v := n mod 1000000).
  assert (Hv : 0 <= v < 1000000) by (apply Z.mod_pos_bound; lia).
  exists (n / 1000000), ((v / 100000) mod 10), ((v / 10000) mod 10), ((v / 1000) mod 10),
    ((v / 100) mod 10), ((v / 10) mod 10), ((v / 1) mod 10).
  split; [| split].
  - assert (Hd : forall q, 0 <= q mod 10 <= 9)
      by (intros q; pose proof (Z.mod_pos_bound q 10 ltac:(lia)); lia).
    apply Forall_cons; [| repeat (apply Forall_cons; [apply Hd |]); apply Forall_nil].
    split; [apply Z.div_pos; lia | apply Z.div_le_upper_bound; lia].
  - unfold v. Z.div_mod_to_equations. lia.
  - assert (Hq : n / 1000000 = 0 \/ n / 1000000 = 1).
    { assert (0 <= n / 1000000 <= 1); [| lia].
      split; [apply Z.div_pos; lia | apply Z.div_le_upper_bound; lia]. }
    assert (Hi : Str.of_int (n / 1000000)
                 = String (digit_char (n / 1000000)) EmptyString).
    { destruct Hq as [-> | ->]; reflexivity. }
    rewrite Hi. cbn [append]. reflexivity.
Qed.

(** What [.6f] prints for a number of the unit interval. *)
Lemma format_6f_printed (x : float) : in_unit x -> printed_6f x (Float.format_6f x).
Proof.
  intros Hx. destruct (in_unit_nonneg x Hx) as [[V N] B]. unfold fval in B.
  unfold printed_6f, fval.
  destruct (Prim2SF x) as [s | s | | s m e] eqn:E; try contradiction.
  - exists s, 0, (Float.fixed6 false 0). split; [| split; [| split]].
    + unfold Float.format_6f. rewrite E. destruct s; reflexivity.
    + apply fixed6_six_decimals. lia.
    + cbn [sval]. simpl Z.abs. pose proof (pow2_pos 1075 ltac:(lia)). lia.
    + split; [intros -> | intros H; injection H as ->]; reflexivity.
  - destruct s; [contradiction |].
    destruct (format_6f_nearest x false m e E) as [n [Hf Hn]].
    exists false, n, (Float.fixed6 false n). split; [| split; [| split]].
    + rewrite Hf. reflexivity.
    + apply fixed6_six_decimals. cbn [sval] in B.
      pose proof (pow2_pos 1075 ltac:(lia)) as H1075.
      cbn [valid_binary] in V. apply bounded_mantissa in V. destruct V as [He _].
      pose proof (pow2_pos (e + 1075) ltac:(lia)) as Hc.
      set (v := Zpos m * 2 ^ (e + 1075)) in *. set (P := 2 ^ 1075) in *.
      assert (0 < v) by (unfold v; nia).
      split; nia.
    + cbn [sval]. exact Hn.
    + split; discriminate.
Qed.



(* ================================================================= *)
(** ** The scenario of the square *)

(** C4. The label line of the square gives the record
    [0 0.300000 0.300000 0.400000 0.400000] under the class id 0, and under
    any class id the same four fields after that class id: the class id of
    the line is not used. The converter takes no image size. The record is
    the whole text of the output file, as the run on a label directory
    shows. *)
Theorem square_record (class_id : Z) :
  convert_text class_id Examples.square
  = Ok (Str.of_int class_id ++ " 0.300000 0.300000 0.400000 0.400000")%string /\
  convert_text 0 Examples.square = Ok "0 0.300000 0.300000 0.400000 0.400000" /\
  (let s := fst (convert_polygons_to_bboxes Examples.Labels Examples.Bbox 0
                   Examples.labels_only) in
   s Examples.Bbox = Some [("a.txt", "0 0.300000 0.300000 0.400000 0.400000")]).
Proof.
  split; [| split].
  - vm_compute. reflexivity.
  - vm_compute. reflexivity.
  - vm_compute. reflexivity.
Qed.

(* ================================================================= *)
(** ** Running the converter twice *)

Lemma lookup_store_same (d : FS.dir) (name text : string) :
  FS.lookup (FS.store d name text) name = Some text.
Proof.
  unfold FS.lookup. induction d as [| [n x] r IH]; simpl.
  - rewrite String.eqb_refl. reflexivity.
  - destruct (String.eqb n name) eqn:E; simpl; rewrite E; [reflexivity | exact IH].
Qed.

Lemma lookup_store_other (d : FS.dir) (name name' text : string) :
  name' <> name -> FS.lookup (FS.store d name text) name' = FS.lookup d name'.
Proof.
  intros Hne. unfold FS.lookup. induction d as [| [n x] r IH]; simpl.
  - destruct (String.eqb_spec name name'); [congruence | reflexivity].
  - destruct (String.eqb_spec n name) as [-> | Hn]; simpl.
    + destruct (String.eqb_spec name name'); [congruence | reflexivity].
    + destruct (String.eqb n name'); [reflexivity | exact IH].
Qed.

Lemma store_same (d : FS.dir) (name text : string) :
  FS.lookup d name = Some text -> FS.store d name text = d.
Proof.
  unfold FS.lookup. induction d as [| [n x] r IH]; simpl; [discriminate |].
  destruct (String.eqb_spec n name) as [-> | Hn]; simpl.
  - intros H. injection H as ->. reflexivity.
  - intros H. rewrite (IH H). reflexivity.
Qed.

Lemma store_all_fixed (d : FS.dir) (ws : list (string * string)) :
  (forall n t, In (n, t) ws -> FS.lookup d n = Some t) -> store_all d ws = d.
Proof.
  unfold store_all. induction ws as [| [n t] ws IH]; intros H; simpl; [reflexivity |].
  rewrite store_same by (apply H; left; reflexivity).
  apply IH. intros n' t' Hin. apply H. right. exact Hin.
Qed.

Lemma lookup_store_all_other (ws : list (string * string)) (d : FS.dir) (name : string) :
  ~ In name (map fst ws) -> FS.lookup (store_all d ws) name = FS.lookup d name.
Proof.
  unfold store_all. revert d. induction ws as [| [n t] ws IH]; intros d Hni; simpl;
    [reflexivity |].
  simpl in Hni. rewrite IH by tauto. apply lookup_store_other. intros ->. tauto.
Qed.

(** When equal names carry equal texts, every write is still in place after
    all of them. *)
Lemma lookup_store_all (ws : list (string * string)) (d : FS.dir) (name text : string) :
  (forall n t t', In (n, t) ws -> In (n, t') ws -> t = t') ->
  In (name, text) ws -> FS.lookup (store_all d ws) name = Some text.
Proof.
  revert d. induction ws as [| [n t] ws IH]; intros d Hfun Hin; [contradiction |].
  change (store_all d ((n, t) :: ws)) with (store_all (FS.store d n t) ws).
  destruct (in_dec string_dec name (map fst ws)) as [Hi | Hni].
  - apply in_map_iff in Hi. destruct Hi as [[n' t'] [Hn Hin']]. simpl in Hn. subst n'.
    assert (t' = text) by (eapply Hfun; [right; exact Hin' | exact Hin]). subst t'.
    apply IH; [| exact Hin'].
    intros n0 t0 t0' H1 H2. eapply Hfun; right; eassumption.
  - rewrite lookup_store_all_other by exact Hni.
    destruct Hin as [Heq | Hin].
    + injection Heq as -> ->. apply lookup_store_same.
    + exfalso. apply Hni. apply in_map_iff. exists (name, text). auto.
Qed.

Lemma planned_writes_determined (class_id : Z) (labels : FS.dir) (names : list string)
  (n t : string) :
  In (n, t) (fst (planned_writes class_id labels names)) ->
  exists text, FS.lookup labels n = Some text /\ convert_text class_id text = Ok t.
Proof.
  induction names as [| filename rest IH]; simpl; [contradiction |].
  destruct (negb (Str.endswith filename ".txt")); [exact IH |].
  destruct (FS.lookup labels filename) as [text |] eqn:Hl; simpl; [| contradiction].
  destruct (convert_text class_id text) as [out | e] eqn:Hc; simpl; [| contradiction].
  destruct (planned_writes class_id labels rest) as [ws r]. simpl in *.
  intros [Heq | Hin]; [| auto].
  injection Heq as <- <-. eauto.
Qed.

Lemma store_all_twice (class_id : Z) (labels d : FS.dir) (names : list string) :
  let ws := fst (planned_writes class_id labels names) in
  store_all (store_all d ws) ws = store_all d ws.
Proof.
  intros ws. apply store_all_fixed. intros n t Hin.
  apply lookup_store_all; [| exact Hin].
  intros n0 t0 t0' H1 H2.
  destruct (planned_writes_determined _ _ _ _ _ H1) as [x [Hx Hx']].
  destruct (planned_writes_determined _ _ _ _ _ H2) as [y [Hy Hy']].
  congruence.
Qed.

(** With the output directory apart from the label directory, the loop makes
    the planned writes and ends as planned. *)
Lemma same_dir_refl {D : Type} {HD : Directory D} (a : D) : same_dir a a = true.
Proof. destruct (same_dir_spec a a); [reflexivity | contradiction]. Qed.

Lemma same_dir_other {D : Type} {HD : Directory D} (a b : D) : a <> b -> same_dir a b = false.
Proof. intros Hne. destruct (same_dir_spec a b); [contradiction | reflexivity]. Qed.

Lemma convert_files_planned {D : Type} {HD : Directory D} (label_dir bbox_dir : D)
  (class_id : Z) (labels : FS.dir) (names : list string) :
  label_dir <> bbox_dir ->
  forall (s : FS.t D) (d : FS.dir),
    s label_dir = Some labels -> s bbox_dir = Some d ->
    let '(ws, r) := planned_writes class_id labels names in
    snd (convert_files label_dir bbox_dir class_id names s) = r /\
    same_fs (fst (convert_files label_dir bbox_dir class_id names s))
            (FS.set_dir s bbox_dir (store_all d ws)).
Proof.
  intros Hne. induction names as [| filename rest IH]; intros s d Hl Hb.
  - simpl. split; [reflexivity |]. intros p. unfold FS.set_dir.
    destruct (same_dir_spec p bbox_dir) as [-> | _]; auto.
  - simpl. destruct (negb (Str.endswith filename ".txt")); [apply IH; assumption |].
    unfold FS.read. rewrite Hl.
    destruct (FS.lookup labels filename) as [text |]; simpl.
    2:{ split; [reflexivity |]. intros p. unfold FS.set_dir.
        destruct (same_dir_spec p bbox_dir) as [-> | _]; auto. }
    destruct (convert_text class_id text) as [out | e]; simpl.
    2:{ split; [reflexivity |]. intros p. unfold FS.set_dir.
        destruct (same_dir_spec p bbox_dir) as [-> | _]; auto. }
    unfold FS.write. rewrite Hb.
    specialize (IH (FS.set_dir s bbox_dir (FS.store d filename out))
                   (FS.store d filename out)).
    destruct (planned_writes class_id labels rest) as [ws r].
    destruct IH as [IHr IHs].
    + unfold FS.set_dir. rewrite (same_dir_other _ _ Hne). exact Hl.
    + unfold FS.set_dir. rewrite same_dir_refl. reflexivity.
    + split; [exact IHr |]. intros p. rewrite IHs. unfold FS.set_dir.
      destruct (same_dir p bbox_dir); reflexivity.
Qed.

Lemma makedirs_exists {D : Type} {HD : Directory D} (path : D) (s : FS.t D) :
  exists d, FS.makedirs path s path = Some d.
Proof.
  unfold FS.makedirs. destruct (s path) as [d |] eqn:E; [eauto |].
  exists []. unfold FS.set_dir. rewrite same_dir_refl. reflexivity.
Qed.

Lemma makedirs_present {D : Type} {HD : Directory D} (path : D) (s : FS.t D) (d : FS.dir) :
  s path = Some d -> FS.makedirs path s = s.
Proof. intros H. unfold FS.makedirs. rewrite H. reflexivity. Qed.

(** *** No newline at the end of an output file *)

Lemma endswith_char (s : string) (c : ascii) :
  Str.endswith s (String c EmptyString) = true <-> last_char s = Some c.
Proof.
  unfold Str.endswith. simpl String.length.
  induction s as [| a r IH]; simpl; [split; discriminate |].
  destruct r as [| b r'].
  - simpl. destruct (Ascii.eqb_spec a c) as [-> | Hn]; split; intros H;
      try reflexivity; try discriminate; congruence.
  - simpl String.length in *. rewrite <- IH. clear IH.
    replace (S (String.length r') - 0)%nat with (S (String.length r')) by lia.
    simpl. replace (String.length r' - 0)%nat with (String.length r') by lia.
    reflexivity.
Qed.

Lemma append_empty (s t : string) :
  (s ++ t)%string = EmptyString -> s = EmptyString /\ t = EmptyString.
Proof. destruct s; simpl; [auto | discriminate]. Qed.

Lemma last_char_append (s t : string) :
  t <> EmptyString -> last_char (s ++ t) = last_char t.
Proof.
  intros Ht. induction s as [| a r IH]; simpl; [reflexivity |].
  destruct (r ++ t)%string eqn:E; [| exact IH].
  destruct r; simpl in E; [contradiction | discriminate].
Qed.

Lemma pad_digits_last (n : nat) (v : Z) :
  exists c, last_char (Float.pad_digits (S n) v) = Some c /\ Str.isdigit c = true.
Proof.
  induction n as [| n IH].
  - simpl. eexists. split; [reflexivity |].
    assert (H : 0 <= (v / 1) mod 10 < 10) by (apply Z.mod_pos_bound; lia).
    unfold Str.isdigit. rewrite nat_ascii_embedding by lia.
    apply andb_true_intro. split; apply Nat.leb_le; lia.
  - destruct IH as [c [Hc Hd]]. exists c. split; [| exact Hd].
    change (Float.pad_digits (S (S n)) v)
      with (String (ascii_of_nat (48 + Z.to_nat ((v / 10 ^ Z.of_nat (S n)) mod 10)))
                   (Float.pad_digits (S n) v)).
    remember (Float.pad_digits (S n) v) as p eqn:Hp.
    destruct p as [| a r]; [simpl in Hc; discriminate | exact Hc].
Qed.

Lemma format_6f_last (x : float) :
  exists c, last_char (Float.format_6f x) = Some c /\ c <> Str.nl.
Proof.
  assert (Hfix : forall neg v, exists c,
             last_char (Float.fixed6 neg v) = Some c /\ c <> Str.nl).
  { intros neg v. destruct (pad_digits_last 5 (v mod 1000000)) as [c [Hc Hd]].
    assert (Hp : Float.pad_digits 6 (v mod 1000000) <> EmptyString).
    { intros E. rewrite E in Hc. discriminate. }
    exists c. split.
    - unfold Float.fixed6. rewrite !last_char_append; try exact Hc; try exact Hp;
        intros E; repeat (apply append_empty in E; destruct E as [_ E]); contradiction.
    - intros ->. discriminate. }
  unfold Float.format_6f. destruct (Prim2SF x) as [s | s | | s m e]; auto.
  - destruct s; eexists; (split; [reflexivity | discriminate]).
  - eexists; (split; [reflexivity | discriminate]).
Qed.

Lemma bbox_record_last (class_id : Z) (a b c d : float) :
  exists ch, last_char (bbox_record class_id a b c d) = Some ch /\ ch <> Str.nl.
Proof.
  destruct (format_6f_last d) as [ch [Hc Hn]]. exists ch. split; [| exact Hn].
  unfold bbox_record.
  assert (Hd : Float.format_6f d <> EmptyString) by (intros E; rewrite E in Hc; discriminate).
  rewrite !last_char_append; auto;
    intros E; repeat (apply append_empty in E; destruct E as [_ E]); contradiction.
Qed.

Lemma bbox_of_line_last (class_id : Z) (line rec : string) :
  bbox_of_line class_id line = Ok (Some rec) ->
  exists ch, last_char rec = Some ch /\ ch <> Str.nl.
Proof.
  unfold bbox_of_line, bbox_of_parts. destruct (parse_floats line) as [parts |]; simpl;
    [| discriminate].
  destruct (List.length parts <? 6)%nat; [discriminate |].
  destruct (Float.min _); simpl; [| discriminate].
  destruct (Float.max _); simpl; [| discriminate].
  destruct (Float.min _); simpl; [| discriminate].
  destruct (Float.max _); simpl; [| discriminate].
  intros H. injection H as <-. apply bbox_record_last.
Qed.

Lemma convert_lines_last (class_id : Z) (lines acc out : list string) :
  Forall (fun rec => exists ch, last_char rec = Some ch /\ ch <> Str.nl) acc ->
  convert_lines class_id lines acc = Ok out ->
  Forall (fun rec => exists ch, last_char rec = Some ch /\ ch <> Str.nl) out.
Proof.
  revert acc. induction lines as [| line rest IH]; intros acc Hacc; simpl.
  - intros H. injection H as <-. exact Hacc.
  - destruct (bbox_of_line class_id line) as [[rec |] |] eqn:Hl; simpl; [| | discriminate].
    + apply IH. apply Forall_app. split; [exact Hacc |].
      constructor; [| constructor]. eapply bbox_of_line_last. exact Hl.
    + apply IH. exact Hacc.
Qed.

Lemma join_last (sep : string) (l : list string) :
  Forall (fun rec => exists ch, last_char rec = Some ch /\ ch <> Str.nl) l ->
  last_char (Str.join sep l) <> Some Str.nl.
Proof.
  unfold Str.join. induction 1 as [| rec l [ch [Hc Hn]] Hl IH]; simpl; [discriminate |].
  destruct l as [| rec' l'].
  - rewrite Hc. congruence.
  - assert (Hx : String.concat sep (rec' :: l') <> EmptyString).
    { inversion Hl as [| ? ? [ch' [Hc' _]] _]; subst.
      simpl. destruct l'; intros E.
      - rewrite E in Hc'. discriminate.
      - apply append_empty in E. destruct E as [E _]. rewrite E in Hc'. discriminate. }
    rewrite !last_char_append; auto.
    intros E. apply append_empty in E. destruct E as [_ E]. contradiction.
Qed.

Lemma convert_text_last (class_id : Z) (text out : string) :
  convert_text class_id text = Ok out ->
  Str.endswith out (String Str.nl EmptyString) = false.
Proof.
  unfold convert_text.
  destruct (convert_lines class_id (Str.readlines text) []) as [recs |] eqn:Hc; simpl;
    [| discriminate].
  intros H. injection H as <-.
  apply convert_lines_last in Hc; [| constructor].
  apply join_last with (sep := String Str.nl EmptyString) in Hc.
  destruct (Str.endswith _ _) eqn:E; [| reflexivity].
  apply endswith_char in E. contradiction.
Qed.

Lemma convert_polygons_to_bboxes_eq {D : Type} {HD : Directory D} (label_dir bbox_dir : D)
  (class_id : Z) (s : FS.t D) :
  convert_polygons_to_bboxes label_dir bbox_dir class_id s
  = match FS.makedirs bbox_dir s label_dir with
    | Some labels =>
        convert_files label_dir bbox_dir class_id (map fst labels) (FS.makedirs bbox_dir s)
    | None => (FS.makedirs bbox_dir s, Raise FileNotFoundError)
    end.
Proof.
  unfold convert_polygons_to_bboxes, FS.listdir.
  destruct (FS.makedirs bbox_dir s label_dir); reflexivity.
Qed.

(** C5 (as the code has it). With an output directory that is not the label
    directory (the two paths do not lead to one directory), a second run of
    the converter with the same arguments ends as the first did and leaves
    every directory as the first run left it, so the output files are the
    same byte for byte; and the text written for a label file never ends with
    a newline. *)
Theorem convert_twice_same_files {D : Type} {HD : Directory D} (label_dir bbox_dir : D)
  (class_id : Z) (s : FS.t D) :
  label_dir <> bbox_dir ->
  let run1 := convert_polygons_to_bboxes label_dir bbox_dir class_id s in
  let run2 := convert_polygons_to_bboxes label_dir bbox_dir class_id (fst run1) in
  snd run2 = snd run1 /\
  same_fs (fst run2) (fst run1) /\
  (forall name, FS.file (fst run2) bbox_dir name = FS.file (fst run1) bbox_dir name) /\
  (forall text out,
      convert_text class_id text = Ok out ->
      Str.endswith out (String Str.nl EmptyString) = false).
Proof.
  intros Hne run1 run2.
  assert (Hmain : snd run2 = snd run1 /\ same_fs (fst run2) (fst run1)).
  { subst run2. assert (E1 := convert_polygons_to_bboxes_eq label_dir bbox_dir class_id s).
    fold run1 in E1. clearbody run1.
    destruct (makedirs_exists bbox_dir s) as [d Hd].
    set (s1 := FS.makedirs bbox_dir s) in *.
    rewrite convert_polygons_to_bboxes_eq.
    destruct (s1 label_dir) as [labels |] eqn:Hl.
    - pose proof (convert_files_planned label_dir bbox_dir class_id labels
                    (map fst labels) Hne s1 d Hl Hd) as H1.
      pose proof (store_all_twice class_id labels d (map fst labels)) as Htw.
      destruct (planned_writes class_id labels (map fst labels)) as [ws r] eqn:Hp.
      simpl in Htw. rewrite <- E1 in H1. destruct H1 as [Hr1 Hs1].
      assert (HlF : fst run1 label_dir = Some labels).
      { rewrite Hs1. unfold FS.set_dir. rewrite (same_dir_other _ _ Hne). exact Hl. }
      assert (HbF : fst run1 bbox_dir = Some (store_all d ws)).
      { rewrite Hs1. unfold FS.set_dir. rewrite same_dir_refl. reflexivity. }
      rewrite (makedirs_present _ _ _ HbF), HlF.
      pose proof (convert_files_planned label_dir bbox_dir class_id labels
                    (map fst labels) Hne (fst run1) (store_all d ws) HlF HbF) as H2.
      rewrite Hp in H2. destruct H2 as [Hr2 Hs2]. split; [congruence |].
      intros p. rewrite Hs2, Htw. unfold FS.set_dir.
      destruct (same_dir_spec p bbox_dir) as [-> | _]; [symmetry; exact HbF | reflexivity].
    - subst run1. cbn [fst snd]. rewrite (makedirs_present _ _ _ Hd), Hl.
      split; [reflexivity | intros p; reflexivity]. }
  destruct Hmain as [Hr Hs]. repeat split; auto.
  - intros name. unfold FS.file. rewrite Hs. reflexivity.
  - apply convert_text_last.
Qed.

(** The theorem on the label directory of the examples, converted into the
    directory [bbox]. *)
Lemma convert_twice_labels_to_bbox :
  let run1 := convert_polygons_to_bboxes Examples.Labels Examples.Bbox 0
                Examples.labels_only in
  let run2 := convert_polygons_to_bboxes Examples.Labels Examples.Bbox 0 (fst run1) in
  snd run2 = snd run1 /\
  same_fs (fst run2) (fst run1) /\
  (forall name,
      FS.file (fst run2) Examples.Bbox name = FS.file (fst run1) Examples.Bbox name) /\
  (forall text out,
      convert_text 0 text = Ok out ->
      Str.endswith out (String Str.nl EmptyString) = false).
Proof.
  apply (convert_twice_same_files Examples.Labels Examples.Bbox 0 Examples.labels_only).
  discriminate.
Defined.

(** Against C5 as stated: with the label directory as the output directory
    the first run replaces the label file by its boxes, and the second run,
    which finds no polygon in them, writes an empty file. *)
Lemma convert_twice_in_place_differs :
  let run1 := convert_polygons_to_bboxes Examples.Labels Examples.Labels 0
                Examples.labels_only in
  let run2 := convert_polygons_to_bboxes Examples.Labels Examples.Labels 0 (fst run1) in
  FS.file (fst run1) Examples.Labels "a.txt"
  = Some "0 0.300000 0.300000 0.400000 0.400000" /\
  FS.file (fst run2) Examples.Labels "a.txt" = Some "".
Proof. vm_compute. split; reflexivity. Qed.

(* ================================================================= *)
(** ** The loop over the labels *)

Lemma components_loop_spec (labels : Np.image) (stats : list (list Z)) (idx : list Z) :
  forall masks boxes ms bs,
    components_loop labels stats idx masks boxes = Ok (ms, bs) ->
    ms = masks ++ map (Np.eq_scalar labels) idx /\
    exists bs',
      bs = boxes ++ bs' /\
      Forall2 (fun i b => exists row, nth_error stats (Z.to_nat i) = Some row /\
                                      box_of_row row = Some b) idx bs'.
Proof.
  induction idx as [| i rest IH]; intros masks boxes ms bs; simpl.
  - intros H. injection H as <- <-. rewrite !app_nil_r.
    split; [reflexivity |]. exists []. rewrite app_nil_r. split; [reflexivity | constructor].
  - unfold getitem. destruct (nth_error stats (Z.to_nat i)) as [row |] eqn:Hrow; simpl;
      [| discriminate].
    destruct row as [| x [| y [| wb [| hb [| a [| ? ?]]]]]]; try discriminate.
    intros H. apply IH in H. destruct H as [Hm [bs' [Hb Hf]]].
    split.
    + rewrite Hm, <- app_assoc. reflexivity.
    + exists ([x; y; Np.add32 x wb; Np.add32 y hb] :: bs'). split.
      * rewrite Hb, <- app_assoc. reflexivity.
      * constructor; [| exact Hf]. exists [x; y; wb; hb; a]. split; [exact Hrow | reflexivity].
Qed.

Lemma nth_error_range_from_1 (n : Z) (i : nat) (v : Z) :
  nth_error (range_from_1 n) i = Some v -> v = Z.of_nat (S i) /\ 1 <= v < n.
Proof.
  unfold range_from_1. intros H.
  rewrite nth_error_map in H.
  destruct (nth_error (seq 1 (Z.to_nat n - 1)) i) as [k |] eqn:Hk; [| discriminate].
  injection H as <-.
  assert (Hi : (i < Z.to_nat n - 1)%nat).
  { assert (Hs : nth_error (seq 1 (Z.to_nat n - 1)) i <> None) by congruence.
    apply nth_error_Some in Hs. rewrite length_seq in Hs. exact Hs. }
  rewrite nth_error_nth' with (d := O) in Hk by (rewrite length_seq; exact Hi).
  rewrite seq_nth in Hk by exact Hi. injection Hk as <-. lia.
Qed.

Lemma in_range_from_1 (n v : Z) : In v (range_from_1 n) -> 1 <= v < n.
Proof.
  intros H. apply In_nth_error in H. destruct H as [i Hi].
  apply nth_error_range_from_1 in Hi. tauto.
Qed.

(** *** Masks of different labels *)

Lemma eq_scalar_disjoint_row (row : list Z) (a b : Z) :
  a <> b ->
  forallb (fun v => v =? 0)
    (map (fun p => Z.land (fst p) (snd p))
       (combine (map (fun v => if v =? a then 1 else 0) row)
                (map (fun v => if v =? b then 1 else 0) row))) = true.
Proof.
  intros Hne. induction row as [| v r IH]; simpl; [reflexivity |].
  rewrite IH, andb_true_r.
  destruct (Z.eqb_spec v a), (Z.eqb_spec v b); try reflexivity. congruence.
Qed.

Lemma eq_scalar_disjoint (labels : Np.image) (a b : Z) :
  a <> b ->
  Np.all_zero (Np.logical_and (Np.eq_scalar labels a) (Np.eq_scalar labels b)) = true.
Proof.
  intros Hne. unfold Np.all_zero, Np.logical_and, Np.eq_scalar.
  induction labels as [| row r IH]; simpl; [reflexivity |].
  rewrite (eq_scalar_disjoint_row row a b Hne). exact IH.
Qed.


(* ================================================================= *)
(** ** Pixels, extents and shapes *)

Lemma in_combine_seq {A : Type} (l : list A) (s k : nat) (x : A) :
  In (k, x) (combine (seq s (List.length l)) l) ->
  (s <= k)%nat /\ nth_error l (k - s) = Some x.
Proof.
  revert s. induction l as [| a r IH]; intros s; simpl; [contradiction |].
  intros [H | H].
  - injection H as <- <-. rewrite Nat.sub_diag. split; [lia | reflexivity].
  - apply IH in H. destruct H as [Hle Hn]. split; [lia |].
    replace (k - s)%nat with (S (k - S s)) by lia. exact Hn.
Qed.

Lemma in_foreground (m : Np.image) (c r : Z) :
  In (c, r) (Np.foreground m) ->
  exists rn cn row v,
    r = Z.of_nat rn /\ c = Z.of_nat cn /\
    nth_error m rn = Some row /\ nth_error row cn = Some v /\ v <> 0.
Proof.
  unfold Np.foreground. intros H. apply in_flat_map in H.
  destruct H as [[rn row] [Hrow H]]. simpl in H.
  apply in_combine_seq in Hrow. rewrite Nat.sub_0_r in Hrow. destruct Hrow as [_ Hrow].
  unfold Np.row_foreground in H. apply in_map_iff in H.
  destruct H as [[cn v] [Heq H]]. simpl in Heq. injection Heq as <- <-.
  apply filter_In in H. destruct H as [Hc Hv]. simpl in Hv.
  apply in_combine_seq in Hc. rewrite Nat.sub_0_r in Hc. destruct Hc as [_ Hc].
  exists rn, cn, row, v. repeat split; auto.
  intros ->. discriminate.
Qed.

Lemma fold_min_le (l : list Z) (a : Z) : fold_left Z.min l a <= a.
Proof.
  revert a. induction l as [| x r IH]; intros a; simpl; [lia |].
  specialize (IH (Z.min a x)). lia.
Qed.

Lemma fold_max_ge (l : list Z) (a : Z) : a <= fold_left Z.max l a.
Proof.
  revert a. induction l as [| x r IH]; intros a; simpl; [lia |].
  specialize (IH (Z.max a x)). lia.
Qed.

Lemma fold_min_ge (l : list Z) (a lo : Z) :
  lo <= a -> (forall x, In x l -> lo <= x) -> lo <= fold_left Z.min l a.
Proof.
  revert a. induction l as [| x r IH]; intros a Ha Hl; simpl; [exact Ha |].
  apply IH; [| intros y Hy; apply Hl; right; exact Hy].
  specialize (Hl x (or_introl eq_refl)). lia.
Qed.

Lemma fold_max_lt (l : list Z) (a hi : Z) :
  a < hi -> (forall x, In x l -> x < hi) -> fold_left Z.max l a < hi.
Proof.
  revert a. induction l as [| x r IH]; intros a Ha Hl; simpl; [exact Ha |].
  apply IH; [| intros y Hy; apply Hl; right; exact Hy].
  specialize (Hl x (or_introl eq_refl)). lia.
Qed.

(** The extent of a mask lies inside the mask. *)
Lemma extent_bounds (m : Np.image) (hb wb c0 r0 c1 r1 : Z) :
  Z.of_nat (List.length m) <= hb ->
  Forall (fun row => Z.of_nat (List.length row) <= wb) m ->
  Np.extent m = Some (c0, r0, c1, r1) ->
  0 <= c0 <= c1 /\ c1 < wb /\ 0 <= r0 <= r1 /\ r1 < hb.
Proof.
  intros Hh Hw. unfold Np.extent.
  destruct (Np.foreground m) as [| [c r] ps] eqn:Hf; [discriminate |].
  intros H. injection H as <- <- <- <-.
  assert (Hin : forall c' r', In (c', r') ((c, r) :: ps) ->
                              0 <= c' < wb /\ 0 <= r' < hb).
  { intros c' r' Hi. rewrite <- Hf in Hi. apply in_foreground in Hi.
    destruct Hi as [rn [cn [row [v [-> [-> [Hrow [Hv _]]]]]]]].
    assert (Hr : (rn < List.length m)%nat) by (apply nth_error_Some; congruence).
    assert (Hc : (cn < List.length row)%nat) by (apply nth_error_Some; congruence).
    apply nth_error_In in Hrow. rewrite Forall_forall in Hw. specialize (Hw row Hrow).
    lia. }
  assert (Hc : forall x, In x (map fst ps) -> 0 <= x < wb).
  { intros x Hx. apply in_map_iff in Hx. destruct Hx as [[c' r'] [<- Hx]].
    apply (Hin c' r'). right. exact Hx. }
  assert (Hr : forall x, In x (map snd ps) -> 0 <= x < hb).
  { intros x Hx. apply in_map_iff in Hx. destruct Hx as [[c' r'] [<- Hx]].
    apply (Hin c' r'). right. exact Hx. }
  destruct (Hin c r (or_introl eq_refl)) as [Hc0 Hr0].
  pose proof (fold_min_le (map fst ps) c). pose proof (fold_max_ge (map fst ps) c).
  pose proof (fold_min_le (map snd ps) r). pose proof (fold_max_ge (map snd ps) r).
  pose proof (fold_min_ge (map fst ps) c 0 (proj1 Hc0) (fun x Hx => proj1 (Hc x Hx))).
  pose proof (fold_min_ge (map snd ps) r 0 (proj1 Hr0) (fun x Hx => proj1 (Hr x Hx))).
  pose proof (fold_max_lt (map fst ps) c wb (proj2 Hc0) (fun x Hx => proj2 (Hc x Hx))).
  pose proof (fold_max_lt (map snd ps) r hb (proj2 Hr0) (fun x Hx => proj2 (Hr x Hx))).
  lia.
Qed.

(** A mask with an extent has a pixel that is not zero. *)
Lemma extent_pixel (m : Np.image) (e : Z * Z * Z * Z) :
  Np.extent m = Some e ->
  1 <= Np.count_foreground m /\
  exists rn cn row v, nth_error m rn = Some row /\ nth_error row cn = Some v /\ v <> 0.
Proof.
  unfold Np.extent, Np.count_foreground.
  destruct (Np.foreground m) as [| [c r] ps] eqn:Hf; [discriminate |]. intros _.
  split; [simpl; lia |].
  assert (Hi : In (c, r) (Np.foreground m)) by (rewrite Hf; left; reflexivity).
  apply in_foreground in Hi. destruct Hi as [rn [cn [row [v [_ [_ [Hrow [Hv Hnz]]]]]]]].
  exists rn, cn, row, v. auto.
Qed.

Lemma eq_scalar_pixel (labels : Np.image) (i : Z) (rn cn : nat) (row : list Z) (v : Z) :
  nth_error (Np.eq_scalar labels i) rn = Some row ->
  nth_error row cn = Some v -> v <> 0 ->
  exists lrow, nth_error labels rn = Some lrow /\ nth_error lrow cn = Some i.
Proof.
  unfold Np.eq_scalar. intros Hrow Hv Hnz. rewrite nth_error_map in Hrow.
  destruct (nth_error labels rn) as [lrow |]; [| discriminate].
  injection Hrow as <-. rewrite nth_error_map in Hv.
  destruct (nth_error lrow cn) as [l |] eqn:Hl; [| discriminate].
  injection Hv as <-. exists lrow. split; [reflexivity |].
  destruct (Z.eqb_spec l i); congruence.
Qed.

Lemma eq_scalar_lengths (labels : Np.image) (i : Z) :
  map (@List.length Z) (Np.eq_scalar labels i) = map (@List.length Z) labels.
Proof.
  unfold Np.eq_scalar. rewrite map_map. apply map_ext. intros row. apply length_map.
Qed.

Lemma eq_scalar_binary (labels : Np.image) (i : Z) : binary (Np.eq_scalar labels i).
Proof.
  unfold binary, Np.eq_scalar. apply Forall_map, Forall_forall. intros row _.
  apply Forall_map, Forall_forall. intros v _. destruct (v =? i); auto.
Qed.

Lemma forallb2_nth {A B : Type} (f : A -> B -> bool) (l : list A) (l' : list B) :
  forallb2 f l l' = true ->
  forall k y, nth_error l' k = Some y -> exists x, nth_error l k = Some x /\ f x y = true.
Proof.
  revert l'. induction l as [| a r IH]; intros [| b r']; simpl; try discriminate.
  - intros _ [| k] y; discriminate.
  - intros H. apply andb_prop in H. destruct H as [Hf Hr].
    intros [| k] y; simpl.
    + intros E. injection E as <-. eauto.
    + apply IH. exact Hr.
Qed.

Lemma forallb2_lengths {A B : Type} (f : list A -> list B -> bool)
  (l : list (list A)) (l' : list (list B)) :
  (forall x y, f x y = true -> List.length y = List.length x) ->
  forallb2 f l l' = true ->
  map (@List.length B) l' = map (@List.length A) l.
Proof.
  intros Hf. revert l'. induction l as [| a r IH]; intros [| b r']; simpl; try discriminate;
    [reflexivity |].
  intros H. apply andb_prop in H. destruct H as [Hab Hr].
  rewrite (Hf _ _ Hab), (IH _ Hr). reflexivity.
Qed.

Lemma forallb2_length {A B : Type} (f : A -> B -> bool) (l : list A) (l' : list B) :
  forallb2 f l l' = true -> List.length l' = List.length l.
Proof.
  revert l'. induction l as [| a r IH]; intros [| b r']; simpl; try discriminate;
    [reflexivity |].
  intros H. apply andb_prop in H. destruct H as [_ Hr]. rewrite (IH _ Hr). reflexivity.
Qed.

Lemma has_shape_lengths (h w : Z) (m m' : Np.image) :
  map (@List.length Z) m' = map (@List.length Z) m ->
  Np.has_shape h w m -> Np.has_shape h w m'.
Proof.
  intros E [Hh Hw]. split.
  - rewrite <- Hh. apply (f_equal (@List.length nat)) in E. rewrite !length_map in E.
    congruence.
  - apply (proj1 (Forall_map (@List.length Z) (fun n => Z.of_nat n = w) m')).
    rewrite E. apply Forall_map. exact Hw.
Qed.

Lemma zeros_shape (h w : Z) (m : Np.image) :
  Np.zeros h w = Ok m -> Np.has_shape h w m /\ m = repeat (repeat 0 (Z.to_nat w)) (Z.to_nat h).
Proof.
  unfold Np.zeros. destruct (h <? 0) eqn:Hh; simpl; [discriminate |].
  destruct (w <? 0) eqn:Hw; simpl; [discriminate |].
  intros H. injection H as <-. apply Z.ltb_ge in Hh, Hw.
  split; [| reflexivity]. split.
  - rewrite repeat_length. lia.
  - apply Forall_forall. intros row Hr. apply repeat_spec in Hr. subst row.
    rewrite repeat_length. lia.
Qed.

Lemma add32_small (a b : Z) :
  - 2147483648 <= a + b < 2147483648 -> Np.add32 a b = a + b.
Proof.
  intros H. unfold Np.add32. rewrite Z.mod_small by lia. lia.
Qed.

(** *** The pixels of a label and the mask of the label *)

Lemma combine_seq_map {A B : Type} (g : A -> B) (l : list A) :
  forall k,
    combine (seq k (List.length (map g l))) (map g l)
    = map (fun cv => (fst cv, g (snd cv))) (combine (seq k (List.length l)) l).
Proof.
  induction l as [| x r IH]; intros k; [reflexivity |].
  cbn [map List.length seq combine fst snd]. f_equal. apply IH.
Qed.

Lemma filter_map_commute {A B : Type} (h : A -> B) (p : B -> bool) (l : list A) :
  filter p (map h l) = map h (filter (fun x => p (h x)) l).
Proof.
  induction l as [| x r IH]; [reflexivity |].
  cbn [map filter]. destruct (p (h x)); cbn [map]; rewrite IH; reflexivity.
Qed.

Lemma filter_pointwise {A : Type} (p q : A -> bool) (l : list A) :
  (forall x, p x = q x) -> filter p l = filter q l.
Proof.
  intros H. induction l as [| x r IH]; [reflexivity |].
  cbn [filter]. rewrite H, IH. reflexivity.
Qed.

Lemma row_positions_eq_scalar (i r : Z) (row : list Z) :
  Np.row_positions (fun l => l =? i) r row
  = Np.row_foreground r (map (fun v => if v =? i then 1 else 0) row).
Proof.
  unfold Np.row_positions, Np.row_foreground.
  rewrite combine_seq_map, filter_map_commute, map_map. cbn [fst snd].
  f_equal. apply filter_pointwise. intros [k v]. cbn [snd].
  destruct (v =? i); reflexivity.
Qed.

Lemma flat_map_pointwise {A B : Type} (f g : A -> list B) (l : list A) :
  (forall x, f x = g x) -> flat_map f l = flat_map g l.
Proof.
  intros H. induction l as [| x r IH]; [reflexivity |].
  cbn [flat_map]. rewrite H, IH. reflexivity.
Qed.

Lemma flat_map_map {A B C : Type} (f : B -> list C) (h : A -> B) (l : list A) :
  flat_map f (map h l) = flat_map (fun x => f (h x)) l.
Proof.
  induction l as [| x r IH]; [reflexivity |].
  cbn [map flat_map]. rewrite IH. reflexivity.
Qed.

(** The pixels that carry the label [i] are the non-zero pixels of the mask
    [(labels == i)]. *)
Lemma positions_eq_scalar (labels : Np.image) (i : Z) :
  Np.positions (fun l => l =? i) labels = Np.foreground (Np.eq_scalar labels i).
Proof.
  unfold Np.positions, Np.foreground, Np.eq_scalar.
  rewrite combine_seq_map, flat_map_map.
  apply flat_map_pointwise. intros [k row]. cbn [fst snd].
  apply row_positions_eq_scalar.
Qed.

Lemma pixel_eq_scalar_map (labels : Np.image) (i : Z) (r c : nat) :
  pixel (Np.eq_scalar labels i) r c
  = option_map (fun l => if l =? i then 1 else 0) (pixel labels r c).
Proof.
  unfold pixel, Np.eq_scalar. rewrite nth_error_map.
  destruct (nth_error labels r) as [row |]; cbn [option_map]; [| reflexivity].
  rewrite nth_error_map. reflexivity.
Qed.

(** *** What the contract gives for a label *)

Lemma cc_contract_inv (img : Np.image) (num_labels : Z) (labels : Np.image)
  (stats : list (list Z)) :
  cc_contract img (num_labels, labels, stats) = true ->
  Z.of_nat (List.length img) < 2147483648 /\
  forallb (fun row => Z.of_nat (List.length row) <? 2147483648) img = true /\
  1 <= num_labels /\
  forallb2 (forallb2 (label_ok num_labels)) img labels = true /\
  Z.of_nat (List.length stats) = num_labels /\
  forallb (stats_row_ok labels stats) (range_from_1 num_labels) = true.
Proof.
  unfold cc_contract. rewrite !andb_true_iff, Z.ltb_lt, Z.leb_le, Z.eqb_eq. tauto.
Qed.

Lemma contract_label (img : Np.image) (num_labels : Z) (labels : Np.image)
  (stats : list (list Z)) (i : Z) :
  cc_contract img (num_labels, labels, stats) = true ->
  In i (range_from_1 num_labels) ->
  map (@List.length Z) labels = map (@List.length Z) img /\
  Forall (fun row => Z.of_nat (List.length row) < 2147483648) img /\
  Z.of_nat (List.length img) < 2147483648 /\
  exists c0 r0 c1 r1 area,
    nth_error stats (Z.to_nat i) = Some [c0; r0; c1 - c0 + 1; r1 - r0 + 1; area] /\
    Np.extent (Np.eq_scalar labels i) = Some (c0, r0, c1, r1).
Proof.
  intros H Hi. apply cc_contract_inv in H.
  destruct H as [Hh [Hw [Hn [Hl [Hs Hr]]]]].
  split; [| split; [| split]].
  - eapply forallb2_lengths; [| eassumption].
    intros x y. apply forallb2_length.
  - apply Forall_forall. intros row Hrow.
    rewrite forallb_forall in Hw. apply Z.ltb_lt. auto.
  - exact Hh.
  - rewrite forallb_forall in Hr. specialize (Hr i Hi).
    unfold stats_row_ok in Hr. cbv zeta in Hr. rewrite positions_eq_scalar in Hr.
    change (Np.extent_of (Np.foreground (Np.eq_scalar labels i)))
      with (Np.extent (Np.eq_scalar labels i)) in Hr.
    destruct (nth_error stats (Z.to_nat i)) as [row |]; [| discriminate].
    destruct row as [| x [| y [| wb [| hb [| a [| ? ?]]]]]]; try discriminate.
    destruct (Np.extent (Np.eq_scalar labels i)) as [[[[c0 r0] c1] r1] |]; [| discriminate].
    rewrite !andb_true_iff, !Z.eqb_eq in Hr.
    destruct Hr as [[[[-> ->] ->] ->] _].
    exists c0, r0, c1, r1, a. split; reflexivity.
Qed.

Lemma contract_pixel (img : Np.image) (num_labels : Z) (labels : Np.image)
  (stats : list (list Z)) (rn cn : nat) (lrow : list Z) (l : Z) :
  cc_contract img (num_labels, labels, stats) = true ->
  nth_error labels rn = Some lrow -> nth_error lrow cn = Some l ->
  exists irow v,
    nth_error img rn = Some irow /\ nth_error irow cn = Some v /\ (l = 0 <-> v = 0).
Proof.
  intros H Hrow Hl. apply cc_contract_inv in H.
  destruct H as [_ [_ [_ [H2 _]]]].
  destruct (forallb2_nth _ _ _ H2 rn lrow Hrow) as [irow [Hirow Hf]].
  destruct (forallb2_nth _ _ _ Hf cn l Hl) as [v [Hv Hok]].
  exists irow, v. split; [exact Hirow | split; [exact Hv |]].
  unfold label_ok in Hok. apply andb_prop in Hok. destruct Hok as [_ Hok].
  apply eqb_prop in Hok.
  destruct (Z.eqb_spec l 0), (Z.eqb_spec v 0); split; intros; congruence.
Qed.

(* ================================================================= *)
(** ** The statistics of a label *)

Lemma lengths_le (m m' : Np.image) (hb wb : Z) :
  map (@List.length Z) m' = map (@List.length Z) m ->
  Z.of_nat (List.length m) <= hb ->
  Forall (fun row => Z.of_nat (List.length row) <= wb) m ->
  Z.of_nat (List.length m') <= hb /\
  Forall (fun row => Z.of_nat (List.length row) <= wb) m'.
Proof.
  intros E Hh Hw. split.
  - apply (f_equal (@List.length nat)) in E. rewrite !length_map in E. lia.
  - apply (proj1 (Forall_map (@List.length Z) (fun n => Z.of_nat n <= wb) m')).
    rewrite E. apply Forall_map. exact Hw.
Qed.

(** The statistics row of a label and the extent of its mask. *)
Lemma label_box (img : Np.image) (num_labels : Z) (labels : Np.image)
  (stats : list (list Z)) (a hb wb : Z) :
  cc_contract img (num_labels, labels, stats) = true ->
  In a (range_from_1 num_labels) ->
  Z.of_nat (List.length img) <= hb ->
  Forall (fun row => Z.of_nat (List.length row) <= wb) img ->
  exists c0 r0 c1 r1 area,
    nth_error stats (Z.to_nat a) = Some [c0; r0; c1 - c0 + 1; r1 - r0 + 1; area] /\
    box_of_row [c0; r0; c1 - c0 + 1; r1 - r0 + 1; area] = Some [c0; r0; c1 + 1; r1 + 1] /\
    Np.extent (Np.eq_scalar labels a) = Some (c0, r0, c1, r1) /\
    0 <= c0 <= c1 /\ c1 < wb /\ 0 <= r0 <= r1 /\ r1 < hb.
Proof.
  intros Hc Ha Hh Hw.
  destruct (contract_label _ _ _ _ _ Hc Ha) as [Hl [Hw31 [Hh31 [c0 [r0 [c1 [r1 [area [Hs He]]]]]]]]].
  exists c0, r0, c1, r1, area.
  assert (Hlen : map (@List.length Z) (Np.eq_scalar labels a) = map (@List.length Z) img).
  { rewrite eq_scalar_lengths. exact Hl. }
  destruct (lengths_le _ _ hb wb Hlen Hh Hw) as [Hh' Hw'].
  assert (Hw31' : Forall (fun row => Z.of_nat (List.length row) <= 2147483647) img).
  { eapply Forall_impl; [| exact Hw31]. simpl. intros; lia. }
  destruct (lengths_le img (Np.eq_scalar labels a) 2147483647 2147483647 Hlen
              ltac:(lia) Hw31') as [Hh2 Hw2].
  pose proof (extent_bounds _ _ _ _ _ _ _ Hh' Hw' He) as B1.
  pose proof (extent_bounds _ _ _ _ _ _ _ Hh2 Hw2 He) as B2.
  split; [exact Hs | split; [| split; [exact He | tauto]]].
  unfold box_of_row. rewrite !add32_small by lia.
  replace (c0 + (c1 - c0 + 1)) with (c1 + 1) by lia.
  replace (r0 + (r1 - r0 + 1)) with (r1 + 1) by lia.
  reflexivity.
Qed.

Lemma Forall2_nth_error {A B : Type} (R : A -> B -> Prop) (l : list A) (l' : list B) :
  Forall2 R l l' ->
  forall k x, nth_error l k = Some x -> exists y, nth_error l' k = Some y /\ R x y.
Proof.
  induction 1 as [| a b r r' Hab Hr IH]; intros [| k] x; simpl; try discriminate.
  - intros E. injection E as <-. eauto.
  - apply IH.
Qed.

Lemma zeros_pixel (h w : nat) (rn cn : nat) (row : list Z) (v : Z) :
  nth_error (repeat (repeat 0 w) h) rn = Some row -> nth_error row cn = Some v -> v = 0.
Proof.
  intros Hrow Hv. apply nth_error_In, repeat_spec in Hrow. subst row.
  apply nth_error_In, repeat_spec in Hv. exact Hv.
Qed.


(* ================================================================= *)
(** ** The loop over the vertices *)

Lemma polygon_loop_out_of_range (coords : list float) (w h : Z) (idx : list nat) (i : nat) :
  In i idx -> (List.length coords <= i + 1)%nat ->
  forall polygon, is_ok (polygon_loop coords w h idx polygon) = false.
Proof.
  intros Hin Hlen. induction idx as [| j rest IH]; intros polygon; [contradiction |].
  simpl. destruct (getitem coords j) as [cx |]; simpl; [| reflexivity].
  destruct (scale_round cx w) as [x |]; simpl; [| reflexivity].
  destruct (getitem coords (j + 1)) as [cy |] eqn:Hy; simpl; [| reflexivity].
  destruct (scale_round cy h) as [y |]; simpl; [| reflexivity].
  destruct Hin as [-> | Hin]; [| auto].
  unfold getitem in Hy. destruct (nth_error coords (i + 1)) eqn:E; [| discriminate].
  assert (nth_error coords (i + 1) <> None) by congruence.
  apply nth_error_Some in H. lia.
Qed.

Lemma polygon_loop_index_error (coords : list float) (w h : Z) (idx : list nat) :
  (forall c, In c coords -> is_ok (scale_round c w) = true /\ is_ok (scale_round c h) = true) ->
  (forall i, In i idx -> (i < List.length coords)%nat) ->
  forall polygon,
    is_ok (polygon_loop coords w h idx polygon) = false ->
    polygon_loop coords w h idx polygon = Raise IndexError.
Proof.
  intros Hscale. induction idx as [| j rest IH]; intros Hidx polygon; simpl; [discriminate |].
  unfold getitem.
  destruct (nth_error coords j) as [cx |] eqn:Hx.
  2:{ apply nth_error_None in Hx. specialize (Hidx j (or_introl eq_refl)). lia. }
  simpl. destruct (Hscale cx (nth_error_In _ _ Hx)) as [Hw _].
  destruct (scale_round cx w) as [x |]; [| discriminate]. simpl.
  destruct (nth_error coords (j + 1)) as [cy |] eqn:Hy; simpl; [| reflexivity].
  destruct (Hscale cy (nth_error_In _ _ Hy)) as [_ Hh].
  destruct (scale_round cy h) as [y |]; [| discriminate]. simpl.
  apply IH. intros i Hi. apply Hidx. right. exact Hi.
Qed.

Lemma in_range_by_2 (n i : nat) : In i (range_by_2 n) -> (i < n)%nat.
Proof.
  unfold range_by_2. intros H. apply in_map_iff in H. destruct H as [k [<- Hk]].
  apply in_seq in Hk.
  destruct (Nat.Even_Odd_dec n) as [[m ->] | [m ->]].
  - replace (2 * m + 1)%nat with (S (2 * m)) in Hk by lia.
    rewrite Nat.div2_succ_double in Hk. lia.
  - replace (2 * m + 1 + 1)%nat with (2 * (S m))%nat in Hk by lia.
    rewrite Nat.div2_double in Hk. lia.
Qed.

Lemma last_of_range_by_2 (n : nat) : Nat.odd n = true -> In (n - 1)%nat (range_by_2 n).
Proof.
  intros H. apply Nat.odd_spec in H. destruct H as [m ->].
  unfold range_by_2. apply in_map_iff. exists m. split; [lia |].
  replace (2 * m + 1 + 1)%nat with (2 * (S m))%nat by lia.
  rewrite Nat.div2_double. apply in_seq. lia.
Qed.


(* ================================================================= *)
(** ** Properties of the extractor

    They hold for every [fillPoly] and every
    [connectedComponentsWithStats]; what a property asks of the two calls
    is among its hypotheses. *)

Section ExtractorProperties.

Variable fillPoly : Np.image -> list (Z * Z) -> result Np.image.
Variable connectedComponentsWithStats : Np.image -> result components.

Local Abbreviation extract := (extract_masks_and_bboxes fillPoly connectedComponentsWithStats).
Local Abbreviation contract := (contract_holds fillPoly connectedComponentsWithStats).
Local Abbreviation returns := (labelling_returns fillPoly connectedComponentsWithStats).

Lemma extract_ok_inv (text : string) (h w : Z)
  (masks : list Np.image) (boxes : list (list Z)) :
  extract text (h, w) = Ok (masks, boxes) ->
  exists base num_labels labels stats,
    rasterize fillPoly text h w = Ok base /\
    connectedComponentsWithStats base = Ok (num_labels, labels, stats) /\
    components_loop labels stats (range_from_1 num_labels) [] [] = Ok (masks, boxes).
Proof.
  unfold extract_masks_and_bboxes. intros H.
  inv_bind H as base Hb. inv_bind H as out Hc. destruct out as [[n labels] stats].
  exists base, n, labels, stats. auto.
Qed.

Lemma fill_lines_lengths (h w : Z) (lines : list string) :
  keeps_shape fillPoly ->
  forall m m', fill_lines fillPoly h w lines m = Ok m' ->
               map (@List.length Z) m' = map (@List.length Z) m.
Proof.
  intros Hk. induction lines as [| line rest IH]; intros m m'; simpl.
  - intros H. injection H as <-. reflexivity.
  - intros H. inv_bind H as items Hitems.
    destruct (List.length (tl items) <? 6)%nat; [eauto |].
    inv_bind H as polygon Hpolygon. inv_bind H as m1 Hf.
    rewrite (IH _ _ H). eapply Hk. exact Hf.
Qed.

Lemma rasterize_shape (text : string) (h w : Z) (base : Np.image) :
  keeps_shape fillPoly ->
  rasterize fillPoly text h w = Ok base -> Np.has_shape h w base.
Proof.
  intros Hk H. unfold rasterize in H. inv_bind H as z Hz.
  apply zeros_shape in Hz. destruct Hz as [Hz _].
  eapply has_shape_lengths; [| exact Hz].
  eapply fill_lines_lengths; eauto.
Qed.

Lemma fill_lines_skipped (h w : Z) (lines : list string) (m : Np.image) :
  Forall skipped_by_extractor lines -> fill_lines fillPoly h w lines m = Ok m.
Proof.
  induction 1 as [| line rest [items [Hp Hlen]] _ IH]; simpl; [reflexivity |].
  rewrite Hp. simpl. apply Nat.ltb_lt in Hlen. rewrite Hlen. exact IH.
Qed.

Lemma fill_lines_raises (h w : Z) (lines : list string) (line : string)
  (items : list float) :
  In line lines -> parse_floats line = Ok items ->
  (6 <= List.length (tl items))%nat ->
  is_ok (polygon_loop (tl items) w h (range_by_2 (List.length (tl items))) []) = false ->
  forall base_mask, is_ok (fill_lines fillPoly h w lines base_mask) = false.
Proof.
  intros Hin Hp Hlen Hpoly. induction lines as [| l rest IH]; intros m; [contradiction |].
  simpl. destruct (parse_floats l) as [it |] eqn:Hl; simpl; [| reflexivity].
  destruct Hin as [-> | Hin].
  - assert (it = items) by congruence. subst it.
    destruct (Nat.ltb_spec (List.length (tl items)) 6); [lia |].
    destruct (polygon_loop _ _ _ _ _); [discriminate | reflexivity].
  - destruct (List.length (tl it) <? 6)%nat; [auto |].
    destruct (polygon_loop (tl it) w h (range_by_2 (List.length (tl it))) [])
      as [polygon |]; simpl; [| reflexivity].
    destruct (fillPoly m polygon); simpl; auto.
Qed.

(** C6. The extractor returns as many boxes as masks, and, the labelling
    meeting its contract, the mask and the box at index [i] belong to the
    label [i + 1] of the labelling of the filled mask: the mask is 1 exactly
    on the pixels that carry that label and 0 on the others, the box is
    [[x, y, x + width, y + height]] of the statistics row of that label, and
    it is the bounding box of the non-zero pixels of the mask, in the corner
    form with exclusive maxima. *)
Theorem masks_and_boxes_aligned (text : string) (h w : Z)
  (masks : list Np.image) (boxes : list (list Z)) :
  extract text (h, w) = Ok (masks, boxes) ->
  List.length masks = List.length boxes /\
  (contract text h w ->
   exists base num_labels labels stats,
     rasterize fillPoly text h w = Ok base /\
     connectedComponentsWithStats base = Ok (num_labels, labels, stats) /\
     forall i mask,
       nth_error masks i = Some mask ->
       (forall r c,
           pixel mask r c
           = option_map (fun l => if l =? Z.of_nat (S i) then 1 else 0) (pixel labels r c)) /\
       exists x y width height area,
         nth_error stats (S i) = Some [x; y; width; height; area] /\
         nth_error boxes i = Some [x; y; x + width; y + height] /\
         Np.bounding_box mask = Some [x; y; x + width; y + height]).
Proof.
  intros H. apply extract_ok_inv in H.
  destruct H as [base [n [labels [stats [Hbase [Hcc H]]]]]].
  apply components_loop_spec in H. destruct H as [Hm [bs' [Hb Hf]]].
  simpl in Hm, Hb. subst masks boxes. split.
  - rewrite length_map. eapply Forall2_length. exact Hf.
  - intros Hcontract. exists base, n, labels, stats.
    split; [exact Hbase | split; [exact Hcc |]].
    intros i mask Hi.
    specialize (Hcontract base (n, labels, stats) Hbase Hcc).
    rewrite nth_error_map in Hi.
    destruct (nth_error (range_from_1 n) i) as [a |] eqn:Ha; [| discriminate].
    injection Hi as <-.
    destruct (Forall2_nth_error _ _ _ Hf i a Ha) as [box [Hbox [row [Hrow Hbr]]]].
    assert (Hw31 : Forall (fun row => Z.of_nat (List.length row) <= 2147483648) base).
    { destruct (contract_label _ _ _ _ _ Hcontract (nth_error_In _ _ Ha)) as [_ [Hw31 _]].
      eapply Forall_impl; [| exact Hw31]. simpl. intros; lia. }
    destruct (label_box base n labels stats a (Z.of_nat (List.length base)) 2147483648
                Hcontract (nth_error_In _ _ Ha) (Z.le_refl _) Hw31)
      as [c0 [r0 [c1 [r1 [area [Hs [Hbx [He _]]]]]]]].
    apply nth_error_range_from_1 in Ha. destruct Ha as [-> _].
    split; [intros r c; apply pixel_eq_scalar_map |].
    rewrite Nat2Z.id in Hs, Hrow.
    exists c0, r0, (c1 - c0 + 1), (r1 - r0 + 1), area.
    replace (c0 + (c1 - c0 + 1)) with (c1 + 1) by lia.
    replace (r0 + (r1 - r0 + 1)) with (r1 + 1) by lia.
    split; [exact Hs | split].
    + rewrite Hbox. congruence.
    + unfold Np.bounding_box. rewrite He. reflexivity.
Qed.

(** C7. The masks that the extractor returns are disjoint two by two: the
    pixel-wise AND of the masks at two different indices is zero
    everywhere. *)
Theorem masks_pairwise_disjoint (text : string) (h w : Z)
  (masks : list Np.image) (boxes : list (list Z)) :
  extract text (h, w) = Ok (masks, boxes) ->
  forall i j mask_i mask_j,
    i <> j ->
    nth_error masks i = Some mask_i ->
    nth_error masks j = Some mask_j ->
    Np.all_zero (Np.logical_and mask_i mask_j) = true.
Proof.
  intros H i j mi mj Hij Hi Hj.
  apply extract_ok_inv in H. destruct H as [base [n [labels [stats [_ [_ H]]]]]].
  apply components_loop_spec in H. destruct H as [Hm _]. simpl in Hm. subst masks.
  rewrite nth_error_map in Hi, Hj.
  destruct (nth_error (range_from_1 n) i) as [a |] eqn:Ha; [| discriminate].
  destruct (nth_error (range_from_1 n) j) as [b |] eqn:Hb; [| discriminate].
  injection Hi as <-. injection Hj as <-.
  apply nth_error_range_from_1 in Ha, Hb.
  apply eq_scalar_disjoint. lia.
Qed.

(** C8. For a label file whose lines are all skipped (or that has none) and
    an image shape [(h, w)], the accumulator stays the zero mask, and, the
    labelling returning and meeting its contract, no label but the
    background is found: the extractor returns two empty lists. *)
Theorem no_polygon_gives_empty_lists (text : string) (h w : Z) :
  0 <= h -> 0 <= w ->
  Forall skipped_by_extractor (Str.readlines text) ->
  returns text h w ->
  contract text h w ->
  rasterize fillPoly text h w = Np.zeros h w /\
  extract text (h, w) = Ok ([], []).
Proof.
  intros Hh Hw Hskip Hret Hcontract.
  destruct (Np.zeros h w) as [z |] eqn:Hz.
  2:{ unfold Np.zeros in Hz. destruct (Z.ltb_spec h 0); [lia |].
      destruct (Z.ltb_spec w 0); [lia | discriminate]. }
  assert (Hbase : rasterize fillPoly text h w = Ok z).
  { unfold rasterize. rewrite Hz. simpl. apply fill_lines_skipped. exact Hskip. }
  split; [exact Hbase |].
  specialize (Hret z Hbase). specialize (Hcontract z).
  unfold extract_masks_and_bboxes. rewrite Hbase. simpl.
  destruct (connectedComponentsWithStats z) as [[[n labels] stats] |]; [| discriminate].
  specialize (Hcontract _ Hbase eq_refl). simpl.
  destruct (range_from_1 n) as [| a rest] eqn:Hrange; [reflexivity |].
  exfalso.
  assert (Ha : In a (range_from_1 n)) by (rewrite Hrange; left; reflexivity).
  destruct (contract_label _ _ _ _ _ Hcontract Ha) as [_ [_ [_ [c0 [r0 [c1 [r1 [ar [_ He]]]]]]]]].
  apply extent_pixel in He. destruct He as [_ [rn [cn [row [v [Hrow [Hv Hnz]]]]]]].
  destruct (eq_scalar_pixel _ _ _ _ _ _ Hrow Hv Hnz) as [lrow [Hlrow Hl]].
  destruct (contract_pixel _ _ _ _ _ _ _ _ Hcontract Hlrow Hl) as [irow [v0 [Hi [Hv0 Hiff]]]].
  apply zeros_shape in Hz. destruct Hz as [_ ->].
  pose proof (zeros_pixel _ _ _ _ _ _ Hi Hv0) as E.
  apply in_range_from_1 in Ha. apply Hiff in E. lia.
Qed.

(** C9 (what the code does). A line that passes the length filter of the
    extractor with an odd number of coordinates is not processed: the loop
    over the vertices reads [coords[i + 1]] one past the end, so the loop
    does not end normally, it raises [IndexError] when the coordinates
    before were scaled and rounded without an error, and the extractor does
    not return for a label file with such a line. *)
Theorem odd_coordinate_count_raises (text : string) (h w : Z) (line : string)
  (items : list float) :
  In line (Str.readlines text) ->
  parse_floats line = Ok items ->
  (6 <= List.length (tl items))%nat ->
  Nat.odd (List.length (tl items)) = true ->
  let coords := tl items in
  is_ok (polygon_loop coords w h (range_by_2 (List.length coords)) []) = false /\
  ((forall c, In c coords ->
              is_ok (scale_round c w) = true /\ is_ok (scale_round c h) = true) ->
   polygon_loop coords w h (range_by_2 (List.length coords)) [] = Raise IndexError) /\
  is_ok (extract text (h, w)) = false.
Proof.
  intros Hin Hp Hlen Hodd coords.
  assert (Hloop : is_ok (polygon_loop coords w h (range_by_2 (List.length coords)) [])
                  = false).
  { apply polygon_loop_out_of_range with (i := (List.length coords - 1)%nat).
    - apply last_of_range_by_2. exact Hodd.
    - subst coords. lia. }
  split; [exact Hloop | split].
  - intros Hscale. apply polygon_loop_index_error; auto.
    intros i. apply in_range_by_2.
  - unfold extract_masks_and_bboxes, rasterize.
    destruct (Np.zeros h w) as [z |]; simpl; [| reflexivity].
    pose proof (fill_lines_raises h w _ line items Hin Hp Hlen Hloop z) as Hf.
    destruct (fill_lines fillPoly h w (Str.readlines text) z); [discriminate | reflexivity].
Qed.

(** C10. The labelling meeting its contract and [fillPoly] keeping the shape
    of the mask, every box that the extractor returns for an image of
    height [h] and width [w] has [0 <= x_min < x_max <= w] and
    [0 <= y_min < y_max <= h], and every mask has the shape [(h, w)], holds
    only 0 and 1 and has a pixel that is 1. *)
Theorem boxes_and_masks_well_formed (text : string) (h w : Z)
  (masks : list Np.image) (boxes : list (list Z)) :
  extract text (h, w) = Ok (masks, boxes) ->
  contract text h w ->
  keeps_shape fillPoly ->
  Forall (box_within h w) boxes /\
  Forall (fun mask => Np.has_shape h w mask /\ binary mask /\
                      1 <= Np.count_foreground mask) masks.
Proof.
  intros H Hcontract Hkeep. apply extract_ok_inv in H.
  destruct H as [base [n [labels [stats [Hbase [Hcc H]]]]]].
  specialize (Hcontract base (n, labels, stats) Hbase Hcc).
  pose proof (rasterize_shape _ _ _ _ Hkeep Hbase) as [Hh Hw].
  apply components_loop_spec in H. destruct H as [Hm [bs' [Hb Hf]]].
  simpl in Hm, Hb. subst masks boxes.
  assert (Hlab : forall a, In a (range_from_1 n) ->
            exists c0 r0 c1 r1 area,
              nth_error stats (Z.to_nat a) = Some [c0; r0; c1 - c0 + 1; r1 - r0 + 1; area] /\
              box_of_row [c0; r0; c1 - c0 + 1; r1 - r0 + 1; area]
              = Some [c0; r0; c1 + 1; r1 + 1] /\
              Np.extent (Np.eq_scalar labels a) = Some (c0, r0, c1, r1) /\
              0 <= c0 <= c1 /\ c1 < w /\ 0 <= r0 <= r1 /\ r1 < h).
  { intros a Ha. apply (label_box base n labels stats a h w Hcontract Ha); [lia |].
    eapply Forall_impl; [| exact Hw]. simpl. intros; lia. }
  split.
  - apply Forall_forall. intros box Hbox. apply In_nth_error in Hbox.
    destruct Hbox as [i Hi].
    assert (Ha : exists a, nth_error (range_from_1 n) i = Some a).
    { destruct (nth_error (range_from_1 n) i) as [a |] eqn:E; [eauto |].
      apply nth_error_None in E. rewrite (Forall2_length Hf) in E.
      apply nth_error_None in E. congruence. }
    destruct Ha as [a Ha].
    destruct (Forall2_nth_error _ _ _ Hf i a Ha) as [box' [Hbox' [row [Hrow Hbr]]]].
    assert (box' = box) by congruence. subst box'.
    destruct (Hlab a (nth_error_In _ _ Ha))
      as [c0 [r0 [c1 [r1 [area [Hs [Hbx [He B]]]]]]]].
    exists c0, r0, (c1 + 1), (r1 + 1). split; [congruence | lia].
  - apply Forall_forall. intros mask Hmask. apply in_map_iff in Hmask.
    destruct Hmask as [a [<- Ha]].
    destruct (Hlab a Ha) as [c0 [r0 [c1 [r1 [area [Hs [Hbx [He B]]]]]]]].
    destruct (contract_label _ _ _ _ _ Hcontract Ha) as [Hl _].
    split; [| split].
    + apply has_shape_lengths with (m := base); [| split; assumption].
      rewrite eq_scalar_lengths. exact Hl.
    + apply eq_scalar_binary.
    + apply (extent_pixel _ _ He).
Qed.

End ExtractorProperties.

(* ================================================================= *)
(** ** The properties on the reference implementations *)

Lemma reference_rows_lengths (f : nat -> nat -> Z -> Z) (m : Np.image) (s : nat) :
  map (@List.length Z)
      (map (fun rr => map (fun cv => f (fst rr) (fst cv) (snd cv))
                          (combine (seq 0 (List.length (snd rr))) (snd rr)))
           (combine (seq s (List.length m)) m))
  = map (@List.length Z) m.
Proof.
  revert s. induction m as [| row r IH]; intros s; simpl; [reflexivity |].
  rewrite IH. f_equal.
  rewrite length_map, length_combine, length_seq. apply Nat.min_id.
Qed.

Lemma reference_fillPoly_keeps_shape : keeps_shape Reference.fillPoly.
Proof.
  intros m polygon m' H. unfold Reference.fillPoly in H. injection H as <-.
  apply (reference_rows_lengths
           (fun r c v => if Reference.covers polygon (Z.of_nat c) (Z.of_nat r) then 1 else v)).
Qed.

Lemma reference_contract_two_triangles :
  contract_holds Reference.fillPoly Reference.connectedComponentsWithStats
    Examples.two_triangles 10 12.
Proof.
  intros base out Hb Hc.
  vm_compute in Hb. injection Hb as <-.
  vm_compute in Hc. injection Hc as <-.
  vm_compute. reflexivity.
Qed.

Lemma reference_contract_no_polygon :
  contract_holds Reference.fillPoly Reference.connectedComponentsWithStats
    Examples.no_polygon 3 4.
Proof.
  intros base out Hb Hc.
  vm_compute in Hb. injection Hb as <-.
  vm_compute in Hc. injection Hc as <-.
  vm_compute. reflexivity.
Qed.

Lemma reference_returns_no_polygon :
  labelling_returns Reference.fillPoly Reference.connectedComponentsWithStats
    Examples.no_polygon 3 4.
Proof. intros base Hb. reflexivity. Qed.

(** The two triangles on an image of height 10 and width 12: two masks, and
    the boxes of the two triangles. *)
Example two_triangles_boxes :
  exists mask_1 mask_2,
    Reference.extract Examples.two_triangles (10, 12)
    = Ok ([mask_1; mask_2], [[1; 1; 5; 4]; [7; 6; 12; 10]]).
Proof. eexists. eexists. vm_compute. reflexivity. Qed.

(** The alignment of masks and boxes on the two triangles. *)
Lemma masks_and_boxes_aligned_two_triangles :
  exists masks boxes,
    Reference.extract Examples.two_triangles (10, 12) = Ok (masks, boxes) /\
    List.length masks = 2%nat /\
    List.length masks = List.length boxes /\
    exists base num_labels labels stats,
      rasterize Reference.fillPoly Examples.two_triangles 10 12 = Ok base /\
      Reference.connectedComponentsWithStats base = Ok (num_labels, labels, stats) /\
      forall i mask,
        nth_error masks i = Some mask ->
        (forall r c,
            pixel mask r c
            = option_map (fun l => if l =? Z.of_nat (S i) then 1 else 0)
                         (pixel labels r c)) /\
        exists x y width height area,
          nth_error stats (S i) = Some [x; y; width; height; area] /\
          nth_error boxes i = Some [x; y; x + width; y + height] /\
          Np.bounding_box mask = Some [x; y; x + width; y + height].
Proof.
  destruct (Reference.extract Examples.two_triangles (10, 12)) as [[masks boxes] |] eqn:E;
    [| vm_compute in E; discriminate].
  exists masks, boxes. split; [reflexivity |]. split.
  { vm_compute in E. injection E as <- <-. reflexivity. }
  destruct (masks_and_boxes_aligned Reference.fillPoly
              Reference.connectedComponentsWithStats Examples.two_triangles 10 12
              masks boxes E) as [Hlen Hbox].
  split; [exact Hlen | exact (Hbox reference_contract_two_triangles)].
Defined.

(** The disjoint masks of the two triangles. *)
Lemma masks_pairwise_disjoint_two_triangles :
  exists masks boxes,
    Reference.extract Examples.two_triangles (10, 12) = Ok (masks, boxes) /\
    List.length masks = 2%nat /\
    (forall i j mask_i mask_j,
        i <> j ->
        nth_error masks i = Some mask_i ->
        nth_error masks j = Some mask_j ->
        Np.all_zero (Np.logical_and mask_i mask_j) = true).
Proof.
  destruct (Reference.extract Examples.two_triangles (10, 12)) as [[masks boxes] |] eqn:E;
    [| vm_compute in E; discriminate].
  exists masks, boxes. split; [reflexivity |]. split.
  { vm_compute in E. injection E as <- <-. reflexivity. }
  exact (masks_pairwise_disjoint Reference.fillPoly
           Reference.connectedComponentsWithStats Examples.two_triangles 10 12
           masks boxes E).
Defined.

(** The boxes and masks of the two triangles on their image of height 10 and
    width 12. *)
Lemma boxes_and_masks_well_formed_two_triangles :
  exists masks boxes,
    Reference.extract Examples.two_triangles (10, 12) = Ok (masks, boxes) /\
    List.length masks = 2%nat /\
    Forall (box_within 10 12) boxes /\
    Forall (fun mask => Np.has_shape 10 12 mask /\ binary mask /\
                        1 <= Np.count_foreground mask) masks.
Proof.
  destruct (Reference.extract Examples.two_triangles (10, 12)) as [[masks boxes] |] eqn:E;
    [| vm_compute in E; discriminate].
  exists masks, boxes. split; [reflexivity |]. split.
  { vm_compute in E. injection E as <- <-. reflexivity. }
  exact (boxes_and_masks_well_formed Reference.fillPoly
           Reference.connectedComponentsWithStats Examples.two_triangles 10 12
           masks boxes E reference_contract_two_triangles reference_fillPoly_keeps_shape).
Defined.

(** A label file with two short lines and an empty one, for an image of
    height 3 and width 4: no instance. *)
Lemma no_polygon_gives_empty_lists_example :
  Forall skipped_by_extractor (Str.readlines Examples.no_polygon) /\
  rasterize Reference.fillPoly Examples.no_polygon 3 4 = Np.zeros 3 4 /\
  Reference.extract Examples.no_polygon (3, 4) = Ok ([], []).
Proof.
  assert (Hskip : Forall skipped_by_extractor (Str.readlines Examples.no_polygon)).
  { assert (Hs : forall line,
               match parse_floats line with
               | Ok items => (List.length (tl items) <? 6)%nat
               | Raise _ => false
               end = true -> skipped_by_extractor line).
    { intros line H. destruct (parse_floats line) as [items |] eqn:Hp; [| discriminate].
      exists items. split; [exact Hp |]. apply Nat.ltb_lt. exact H. }
    let l := eval vm_compute in (Str.readlines Examples.no_polygon) in
    change (Str.readlines Examples.no_polygon) with l.
    repeat (apply Forall_cons; [apply Hs; vm_compute; reflexivity |]).
    apply Forall_nil. }
  split; [exact Hskip |].
  apply (no_polygon_gives_empty_lists Reference.fillPoly
           Reference.connectedComponentsWithStats Examples.no_polygon 3 4).
  - discriminate.
  - discriminate.
  - exact Hskip.
  - exact reference_returns_no_polygon.
  - exact reference_contract_no_polygon.
Defined.

(** The theorem at a line with seven coordinates, on a 10 x 10 image. *)
Lemma odd_coordinate_count_raises_at_seven :
  exists items,
    parse_floats Examples.seven_values = Ok items /\
    List.length (tl items) = 7%nat /\
    is_ok (polygon_loop (tl items) 10 10 (range_by_2 (List.length (tl items))) []) = false /\
    ((forall c, In c (tl items) ->
                is_ok (scale_round c 10) = true /\ is_ok (scale_round c 10) = true) ->
     polygon_loop (tl items) 10 10 (range_by_2 (List.length (tl items))) []
     = Raise IndexError) /\
    is_ok (Reference.extract Examples.seven_values (10, 10)) = false.
Proof.
  destruct (parse_floats Examples.seven_values) as [items |] eqn:Hp;
    [| vm_compute in Hp; discriminate].
  assert (Hlen : List.length (tl items) = 7%nat).
  { vm_compute in Hp. injection Hp as <-. reflexivity. }
  exists items. split; [reflexivity | split; [exact Hlen |]].
  apply (odd_coordinate_count_raises Reference.fillPoly
           Reference.connectedComponentsWithStats Examples.seven_values 10 10
           Examples.seven_values items).
  - vm_compute. left. reflexivity.
  - exact Hp.
  - rewrite Hlen. repeat constructor.
  - rewrite Hlen. reflexivity.
Defined.

Example seven_values_index_error :
  Reference.extract Examples.seven_values (10, 10) = Raise IndexError.
Proof. vm_compute. reflexivity. Qed.

(* ================================================================= *)
(** ** Further properties of the converter *)

(** *** When the converter returns *)

Lemma mapM_is_ok {A B : Type} (f : A -> result B) (l : list A) :
  is_ok (mapM f l) = forallb (fun x => is_ok (f x)) l.
Proof.
  induction l as [| x r IH]; simpl; [reflexivity |].
  destruct (f x) as [y | e]; simpl; [| reflexivity].
  rewrite <- IH. destruct (mapM f r); reflexivity.
Qed.

Lemma forallb_pointwise {A : Type} (f g : A -> bool) (l : list A) :
  (forall x, f x = g x) -> forallb f l = forallb g l.
Proof.
  intros H. induction l as [| x r IH]; simpl; [reflexivity |].
  rewrite H, IH. reflexivity.
Qed.

Lemma parse_floats_is_ok (line : string) :
  is_ok (parse_floats line)
  = forallb (fun tok => match Float.of_string tok with Some _ => true | None => false end)
            (Str.split (Str.strip line)).
Proof.
  unfold parse_floats. rewrite mapM_is_ok. apply forallb_pointwise. intros tok.
  unfold Float.float_of_str. destruct (Float.of_string tok); reflexivity.
Qed.

Lemma bbox_of_line_is_ok (class_id : Z) (line : string) :
  is_ok (bbox_of_line class_id line) = is_ok (parse_floats line).
Proof.
  unfold bbox_of_line. destruct (parse_floats line) as [parts | e]; simpl; [| reflexivity].
  destruct (bbox_of_parts class_id parts) as [r | e] eqn:E; [reflexivity |].
  exfalso. exact (bbox_of_parts_raise _ _ _ E).
Qed.

Lemma convert_lines_is_ok (class_id : Z) (lines : list string) :
  forall bbox_lines,
    is_ok (convert_lines class_id lines bbox_lines)
    = forallb (fun line => is_ok (parse_floats line)) lines.
Proof.
  induction lines as [| line rest IH]; intros acc; simpl; [reflexivity |].
  rewrite <- (bbox_of_line_is_ok class_id line).
  destruct (bbox_of_line class_id line) as [[rec |] | e]; simpl; auto.
Qed.

Lemma convert_text_is_ok (class_id : Z) (text : string) :
  is_ok (convert_text class_id text) = all_tokens_parse text.
Proof.
  unfold convert_text, all_tokens_parse.
  rewrite <- (forallb_pointwise _ _ _ parse_floats_is_ok).
  rewrite <- (convert_lines_is_ok class_id _ []).
  destruct (convert_lines class_id (Str.readlines text) []); reflexivity.
Qed.

(** X1. The ASCII text of a label file is converted exactly when every
    token of every line is a float literal: on such lines [min] and [max] are
    never given an empty sequence, and the only exception that the
    conversion of a text can raise is the [ValueError] of [float]. *)
Theorem convert_text_returns_iff_floats (class_id : Z) (text : string) :
  Str.isascii text = true ->
  is_ok (convert_text class_id text) = all_tokens_parse text /\
  (forall e, convert_text class_id text = Raise e -> e = ValueError).
Proof.
  intros _. split; [apply convert_text_is_ok |]. unfold convert_text.
  - intros e H.
    destruct (convert_lines class_id (Str.readlines text) []) as [ls | e'] eqn:E;
      simpl in H; [discriminate |].
    injection H as <-. eapply convert_lines_raise. exact E.
Qed.

(** The file with the token [abc]: a token is no float literal, and the
    conversion raises. *)
Lemma convert_text_returns_iff_floats_at_abc :
  is_ok (convert_text 0 Examples.with_bad_token) = all_tokens_parse Examples.with_bad_token /\
  (forall e, convert_text 0 Examples.with_bad_token = Raise e -> e = ValueError).
Proof.
  apply (convert_text_returns_iff_floats 0 Examples.with_bad_token).
  reflexivity.
Defined.

(** *** Lines that the filter skips *)

Lemma convert_lines_kept (class_id : Z) (lines : list string) :
  forall bbox_lines,
    convert_lines class_id (filter kept_by_converter lines) bbox_lines
    = convert_lines class_id lines bbox_lines.
Proof.
  induction lines as [| line rest IH]; intros acc; [reflexivity |].
  cbn [filter]. unfold kept_by_converter at 1.
  destruct (parse_floats line) as [parts |e] eqn:Hp.
  - destruct (Nat.ltb_spec (List.length parts) 6) as [Hlt | Hge]; cbn [negb].
    + rewrite IH. cbn [convert_lines]. unfold bbox_of_line. rewrite Hp. cbn [bind].
      rewrite (bbox_of_parts_skips _ _ Hlt). reflexivity.
    + cbn [convert_lines]. destruct (bbox_of_line class_id line) as [[rec |] | e]; cbn [bind];
        auto.
  - cbn [convert_lines]. destruct (bbox_of_line class_id line) as [[rec |] | e']; cbn [bind];
      auto.
Qed.

(** The conversion of a text in which every line is skipped. *)
Lemma convert_text_all_skipped (class_id : Z) (text : string) :
  Forall (fun line => kept_by_converter line = false) (Str.readlines text) ->
  convert_text class_id text = Ok "".
Proof.
  intros Hall. unfold convert_text. rewrite <- convert_lines_kept.
  replace (filter kept_by_converter (Str.readlines text)) with (@nil string);
    [reflexivity |].
  induction Hall as [| line rest Hl _ IH]; [reflexivity |].
  cbn [filter]. rewrite Hl. exact IH.
Qed.

(** X2. The converted text depends on the lines that pass the length
    filter only: two label files that differ in skipped lines (blank lines,
    lines with fewer than 6 values) are converted to the same text. *)
Theorem convert_text_ignores_skipped_lines (class_id : Z) (text text' : string) :
  filter kept_by_converter (Str.readlines text)
  = filter kept_by_converter (Str.readlines text') ->
  convert_text class_id text = convert_text class_id text'.
Proof.
  intros H. unfold convert_text.
  rewrite <- (convert_lines_kept class_id (Str.readlines text)).
  rewrite <- (convert_lines_kept class_id (Str.readlines text')).
  rewrite H. reflexivity.
Qed.

(** A label file with a blank line and a short line around the square, and
    the square alone. *)
Lemma convert_text_ignores_skipped_lines_example :
  filter kept_by_converter
    (Str.readlines (Examples.newline ++ Examples.square ++ Examples.newline ++ "0 0.5 0.5"))
  = filter kept_by_converter (Str.readlines (Examples.square ++ Examples.newline)) /\
  convert_text 0 (Examples.newline ++ Examples.square ++ Examples.newline ++ "0 0.5 0.5")
  = convert_text 0 (Examples.square ++ Examples.newline).
Proof.
  assert (H : filter kept_by_converter
                (Str.readlines (Examples.newline ++ Examples.square ++ Examples.newline
                                ++ "0 0.5 0.5"))
              = filter kept_by_converter (Str.readlines (Examples.square ++ Examples.newline)))
    by (vm_compute; reflexivity).
  split; [exact H |].
  exact (convert_text_ignores_skipped_lines 0 _ _ H).
Defined.

(** *** What a run leaves in the file system *)

Lemma file_set_dir_same {D : Type} {HD : Directory D} (s : FS.t D) (path : D) (d : FS.dir)
  (name : string) :
  FS.file (FS.set_dir s path d) path name = FS.lookup d name.
Proof. unfold FS.file, FS.set_dir. rewrite same_dir_refl. reflexivity. Qed.

Lemma set_dir_same {D : Type} {HD : Directory D} (s : FS.t D) (path : D) (d : FS.dir) :
  FS.set_dir s path d path = Some d.
Proof. unfold FS.set_dir. rewrite same_dir_refl. reflexivity. Qed.

Lemma set_dir_other {D : Type} {HD : Directory D} (s : FS.t D) (path path' : D)
  (d : FS.dir) :
  path' <> path -> FS.set_dir s path d path' = s path'.
Proof. intros Hne. unfold FS.set_dir. rewrite (same_dir_other _ _ Hne). reflexivity. Qed.

Lemma write_inv {D : Type} {HD : Directory D} (path : D) (name text : string)
  (s s' : FS.t D) :
  FS.write path name text s = Ok s' ->
  exists d, s path = Some d /\ s' = FS.set_dir s path (FS.store d name text).
Proof.
  unfold FS.write. destruct (s path) as [d |]; [| discriminate].
  intros H. injection H as <-. eauto.
Qed.

Lemma read_inv {D : Type} (path : D) (name text : string) (s : FS.t D) :
  FS.read path name s = Ok text <-> FS.file s path name = Some text.
Proof.
  unfold FS.read, FS.file. destruct (s path) as [d |]; [| split; discriminate].
  destruct (FS.lookup d name); split; congruence.
Qed.

Lemma lookup_in (d : FS.dir) (name text : string) :
  FS.lookup d name = Some text -> In name (map fst d).
Proof.
  unfold FS.lookup. induction d as [| [n x] r IH]; simpl; [discriminate |].
  destruct (String.eqb_spec n name) as [-> | Hn]; simpl; auto.
Qed.

Lemma in_lookup (d : FS.dir) (name : string) :
  In name (map fst d) -> exists text, FS.lookup d name = Some text.
Proof.
  unfold FS.lookup. induction d as [| [n x] r IH]; simpl; [contradiction |].
  destruct (String.eqb_spec n name) as [-> | Hn]; simpl; [eauto |].
  intros [E | Hin]; [congruence | auto].
Qed.

(** One pass of the loop over the files: the directories other than the
    output directory are left alone, and so is every file of the output
    directory but the label files of the list. *)
Lemma convert_files_frame {D : Type} {HD : Directory D} (label_dir bbox_dir : D)
  (class_id : Z) (names : list string) :
  forall s,
    let s' := fst (convert_files label_dir bbox_dir class_id names s) in
    (forall path, path <> bbox_dir -> s' path = s path) /\
    (forall name, ~ In name names \/ Str.endswith name ".txt" = false ->
                  FS.file s' bbox_dir name = FS.file s bbox_dir name) /\
    (forall name text, FS.file s bbox_dir name = Some text ->
                       exists text', FS.file s' bbox_dir name = Some text') /\
    (forall d, s bbox_dir = Some d -> exists d', s' bbox_dir = Some d').
Proof.
  induction names as [| filename rest IH]; intros s; cbn [convert_files].
  - cbn [fst]. repeat split; eauto.
  - destruct (Str.endswith filename ".txt") eqn:Etxt; cbn [negb].
    + destruct (FS.read label_dir filename s) as [text | e]; [| cbn [fst]; repeat split; eauto].
      destruct (convert_text class_id text) as [out | e];
        [| cbn [fst]; repeat split; eauto].
      destruct (FS.write bbox_dir filename out s) as [s1 | e] eqn:Ew;
        [| cbn [fst]; repeat split; eauto].
      apply write_inv in Ew. destruct Ew as [d [Hd ->]].
      specialize (IH (FS.set_dir s bbox_dir (FS.store d filename out))).
      cbv zeta in IH. destruct IH as [I1 [I2 [I3 I4]]].
      assert (Hfile : forall name, FS.file s bbox_dir name = FS.lookup d name).
      { intros name. unfold FS.file. rewrite Hd. reflexivity. }
      cbv zeta. repeat split.
      * intros path Hp. rewrite (I1 path Hp). apply set_dir_other. exact Hp.
      * intros name Hn. rewrite I2.
        -- rewrite file_set_dir_same, Hfile. apply lookup_store_other.
           intros ->. destruct Hn as [Hn | Hn]; [apply Hn; left; reflexivity | congruence].
        -- destruct Hn as [Hn | Hn]; [left; intros Hin; apply Hn; right; exact Hin | right; exact Hn].
      * intros name text0 Hn. rewrite Hfile in Hn.
        destruct (string_dec name filename) as [-> | Hne].
        -- apply (I3 filename out). rewrite file_set_dir_same. apply lookup_store_same.
        -- apply (I3 name text0). rewrite file_set_dir_same.
           rewrite lookup_store_other by exact Hne. exact Hn.
      * intros d0 _. apply (I4 (FS.store d filename out)). apply set_dir_same.
    + specialize (IH s). cbv zeta in IH. destruct IH as [I1 [I2 [I3 I4]]].
      cbv zeta. repeat split; auto.
      intros name Hn. apply I2.
      destruct Hn as [Hn | Hn]; [| right; exact Hn].
      left. intros Hin. apply Hn. right. exact Hin.
Qed.

Lemma file_makedirs {D : Type} {HD : Directory D} (path : D) (s : FS.t D) (path' : D)
  (name : string) :
  FS.file (FS.makedirs path s) path' name = FS.file s path' name.
Proof.
  unfold FS.makedirs, FS.file. destruct (s path) as [d |] eqn:E; [reflexivity |].
  unfold FS.set_dir. destruct (same_dir_spec path' path) as [-> | Hne]; [| reflexivity].
  rewrite E. reflexivity.
Qed.

Lemma makedirs_other {D : Type} {HD : Directory D} (path path' : D) (s : FS.t D) :
  path' <> path -> FS.makedirs path s path' = s path'.
Proof.
  intros H. unfold FS.makedirs. destruct (s path); [reflexivity |].
  apply set_dir_other. exact H.
Qed.



(** The loop over the files, when it runs to its end, has written the
    conversion of every label file of the list. *)
Lemma convert_files_written {D : Type} {HD : Directory D} (label_dir bbox_dir : D)
  (class_id : Z) (names : list string) :
  label_dir <> bbox_dir ->
  forall s,
    snd (convert_files label_dir bbox_dir class_id names s) = Ok tt ->
    forall name text,
      In name names -> Str.endswith name ".txt" = true ->
      FS.file s label_dir name = Some text ->
      exists out,
        convert_text class_id text = Ok out /\
        FS.file (fst (convert_files label_dir bbox_dir class_id names s)) bbox_dir name
        = Some out.
Proof.
  intros Hne. induction names as [| filename rest IH]; intros s Hok name text Hin Htxt Hf;
    [contradiction |].
  cbn [convert_files] in *.
  destruct (Str.endswith filename ".txt") eqn:Etxt; cbn [negb] in *.
  - destruct (FS.read label_dir filename s) as [text0 | e] eqn:Er; [| discriminate].
    destruct (convert_text class_id text0) as [out0 | e] eqn:Ec; [| discriminate].
    destruct (FS.write bbox_dir filename out0 s) as [s1 | e] eqn:Ew; [| discriminate].
    pose proof Ew as Ew'. apply write_inv in Ew'. destruct Ew' as [d [Hd Hs1]].
    assert (Hl : forall n, FS.file s1 label_dir n = FS.file s label_dir n).
    { intros n. unfold FS.file. rewrite Hs1. rewrite set_dir_other by exact Hne. reflexivity. }
    destruct (in_dec string_dec name rest) as [Hr | Hnr].
    + apply (IH s1 Hok name text Hr Htxt). rewrite Hl. exact Hf.
    + destruct Hin as [-> | Hin]; [| contradiction].
      apply read_inv in Er. rewrite Er in Hf. injection Hf as <-.
      exists out0. split; [exact Ec |].
      pose proof (convert_files_frame label_dir bbox_dir class_id rest s1) as F.
      cbv zeta in F. destruct F as [_ [F2 _]].
      rewrite F2 by (left; exact Hnr).
      rewrite Hs1, file_set_dir_same. apply lookup_store_same.
  - destruct Hin as [-> | Hin]; [congruence |].
    apply (IH s Hok name text Hin Htxt Hf).
Qed.

(** X4. When the output directory is not the label directory and the run
    ends without an exception, every [.txt] file of the label directory has
    its conversion in the file of the same name of the output directory. *)
Theorem converter_writes_every_label_file {D : Type} {HD : Directory D}
  (label_dir bbox_dir : D) (class_id : Z) (s : FS.t D) :
  label_dir <> bbox_dir ->
  snd (convert_polygons_to_bboxes label_dir bbox_dir class_id s) = Ok tt ->
  forall name text,
    Str.endswith name ".txt" = true ->
    FS.file s label_dir name = Some text ->
    exists out,
      convert_text class_id text = Ok out /\
      FS.file (fst (convert_polygons_to_bboxes label_dir bbox_dir class_id s)) bbox_dir name
      = Some out.
Proof.
  intros Hne. rewrite convert_polygons_to_bboxes_eq.
  intros Hok name text Htxt Hf.
  rewrite <- (file_makedirs bbox_dir) in Hf.
  destruct (FS.makedirs bbox_dir s label_dir) as [labels |] eqn:El; [| discriminate].
  apply (convert_files_written label_dir bbox_dir class_id (map fst labels) Hne _ Hok);
    [| exact Htxt | exact Hf].
  unfold FS.file in Hf. rewrite El in Hf. eapply lookup_in. exact Hf.
Qed.

(** The label directory with the square, converted to the directory
    [bbox]. *)
Lemma converter_writes_the_square :
  exists out,
    convert_text 0 Examples.square = Ok out /\
    FS.file (fst (convert_polygons_to_bboxes Examples.Labels Examples.Bbox 0
                    Examples.labels_only))
            Examples.Bbox "a.txt" = Some out.
Proof.
  apply (converter_writes_every_label_file Examples.Labels Examples.Bbox 0
           Examples.labels_only).
  - discriminate.
  - vm_compute. reflexivity.
  - reflexivity.
  - reflexivity.
Defined.

(** X5. A label file in which every line is skipped is not an error: its
    conversion is the empty text, and the run writes an empty file of its
    name. *)
Theorem label_file_without_records (class_id : Z) (text : string) :
  Forall (fun line => kept_by_converter line = false) (Str.readlines text) ->
  convert_text class_id text = Ok "" /\
  (forall (D : Type) (HD : Directory D) (label_dir bbox_dir : D) s name,
      label_dir <> bbox_dir ->
      Str.endswith name ".txt" = true ->
      FS.file s label_dir name = Some text ->
      snd (convert_polygons_to_bboxes label_dir bbox_dir class_id s) = Ok tt ->
      FS.file (fst (convert_polygons_to_bboxes label_dir bbox_dir class_id s)) bbox_dir name
      = Some "").
Proof.
  intros Hall.
  pose proof (convert_text_all_skipped class_id text Hall) as Hc.
  split; [exact Hc |].
  intros D HD label_dir bbox_dir s name Hne Htxt Hf Hok.
  rewrite convert_polygons_to_bboxes_eq in *.
  rewrite <- (file_makedirs bbox_dir) in Hf.
  destruct (FS.makedirs bbox_dir s label_dir) as [labels |] eqn:El; [| discriminate].
  destruct (convert_files_written label_dir bbox_dir class_id (map fst labels) Hne _ Hok
              name text) as [out [Ho Hw]]; [| exact Htxt | exact Hf |].
  - unfold FS.file in Hf. rewrite El in Hf. eapply lookup_in. exact Hf.
  - rewrite Hw. congruence.
Qed.

(** The label file with two short lines and an empty one. *)
Lemma label_file_without_records_example :
  convert_text 0 Examples.no_polygon = Ok "" /\
  (forall (D : Type) (HD : Directory D) (label_dir bbox_dir : D) s name,
      label_dir <> bbox_dir ->
      Str.endswith name ".txt" = true ->
      FS.file s label_dir name = Some Examples.no_polygon ->
      snd (convert_polygons_to_bboxes label_dir bbox_dir 0 s) = Ok tt ->
      FS.file (fst (convert_polygons_to_bboxes label_dir bbox_dir 0 s)) bbox_dir name
      = Some "").
Proof.
  apply (label_file_without_records 0 Examples.no_polygon).
  let l := eval vm_compute in (Str.readlines Examples.no_polygon) in
  change (Str.readlines Examples.no_polygon) with l.
  repeat constructor.
Defined.

(** *** Runs that end with an exception *)

Lemma convert_files_stops {D : Type} {HD : Directory D} (label_dir bbox_dir : D)
  (class_id : Z) (labels : FS.dir) (bad text : string) (after : list string) (e : exn) :
  label_dir <> bbox_dir ->
  Str.endswith bad ".txt" = true ->
  FS.lookup labels bad = Some text ->
  convert_text class_id text = Raise e ->
  forall (before : list string) (s : FS.t D) (d : FS.dir),
    s label_dir = Some labels -> s bbox_dir = Some d ->
    (forall name, In name before -> In name (map fst labels)) ->
    (forall name t, In name before -> Str.endswith name ".txt" = true ->
                    FS.lookup labels name = Some t ->
                    is_ok (convert_text class_id t) = true) ->
    let run := convert_files label_dir bbox_dir class_id (before ++ bad :: after) s in
    snd run = Raise e /\
    (forall name t, In name before -> Str.endswith name ".txt" = true ->
                    FS.lookup labels name = Some t ->
                    exists out, convert_text class_id t = Ok out /\
                                FS.file (fst run) bbox_dir name = Some out) /\
    (forall name, ~ In name before -> FS.file (fst run) bbox_dir name = FS.file s bbox_dir name).
Proof.
  intros Hne Hbad Hl Hc.
  induction before as [| f rest IH]; intros s d Hs Hd Hin Hok; cbv zeta.
  - cbn [app convert_files]. rewrite Hbad. cbn [negb].
    unfold FS.read. rewrite Hs, Hl, Hc. cbn [fst snd].
    split; [reflexivity | split; [intros name t [] | reflexivity]].
  - cbn [app convert_files].
    assert (Hin' : forall name, In name rest -> In name (map fst labels))
      by (intros name H; apply Hin; right; exact H).
    assert (Hok' : forall name t, In name rest -> Str.endswith name ".txt" = true ->
                                  FS.lookup labels name = Some t ->
                                  is_ok (convert_text class_id t) = true)
      by (intros name t H; apply Hok; right; exact H).
    destruct (Str.endswith f ".txt") eqn:Ef; cbn [negb].
    + destruct (in_lookup labels f (Hin f (or_introl eq_refl))) as [t Ht].
      unfold FS.read. rewrite Hs, Ht.
      pose proof (Hok f t (or_introl eq_refl) Ef Ht) as Hcf.
      destruct (convert_text class_id t) as [out | e'] eqn:Ec; [| discriminate].
      unfold FS.write. rewrite Hd.
      set (s1 := FS.set_dir s bbox_dir (FS.store d f out)).
      assert (Hs1 : s1 label_dir = Some labels).
      { unfold s1. rewrite set_dir_other by exact Hne. exact Hs. }
      assert (Hd1 : s1 bbox_dir = Some (FS.store d f out)).
      { unfold s1. apply set_dir_same. }
      specialize (IH s1 _ Hs1 Hd1 Hin' Hok'). cbv zeta in IH.
      destruct IH as [I1 [I2 I3]].
      split; [exact I1 | split].
      * intros name t' Hn Htxt Hlk.
        destruct (in_dec string_dec name rest) as [Hr | Hnr]; [eauto |].
        destruct Hn as [<- | Hn]; [| contradiction].
        rewrite Ht in Hlk. injection Hlk as <-.
        exists out. split; [exact Ec |].
        rewrite (I3 f Hnr). unfold s1. rewrite file_set_dir_same.
        apply lookup_store_same.
      * intros name Hn. rewrite I3 by (intros H; apply Hn; right; exact H).
        unfold s1. rewrite file_set_dir_same. unfold FS.file. rewrite Hd.
        apply lookup_store_other. intros ->. apply Hn. left. reflexivity.
    + specialize (IH s d Hs Hd Hin' Hok'). cbv zeta in IH.
      destruct IH as [I1 [I2 I3]].
      split; [exact I1 | split].
      * intros name t Hn Htxt Hlk.
        destruct Hn as [<- | Hn]; [congruence | eauto].
      * intros name Hn. apply I3. intros H. apply Hn. right. exact H.
Qed.



(** X7. When the label directory does not exist and the output directory
    does, the run ends with the [FileNotFoundError] of [os.listdir] and
    leaves the file system as it was. *)
Theorem converter_without_label_dir {D : Type} {HD : Directory D} (label_dir bbox_dir : D)
  (class_id : Z) (s : FS.t D) (d : FS.dir) :
  s label_dir = None ->
  s bbox_dir = Some d ->
  convert_polygons_to_bboxes label_dir bbox_dir class_id s = (s, Raise FileNotFoundError).
Proof.
  intros Hs Hd. rewrite convert_polygons_to_bboxes_eq.
  rewrite (makedirs_present bbox_dir s d Hd), Hs. reflexivity.
Qed.

(** On a file system with the output directory only. *)
Lemma converter_without_label_dir_example :
  convert_polygons_to_bboxes Examples.Labels Examples.Bbox 0
    (FS.set_dir FS.empty Examples.Bbox [("a.txt", "old")])
  = (FS.set_dir FS.empty Examples.Bbox [("a.txt", "old")], Raise FileNotFoundError).
Proof.
  apply (converter_without_label_dir Examples.Labels Examples.Bbox 0
           (FS.set_dir FS.empty Examples.Bbox [("a.txt", "old")]) [("a.txt", "old")]).
  - reflexivity.
  - reflexivity.
Defined.

(** *** Runs that end without an exception *)

Lemma planned_writes_ok_iff (class_id : Z) (labels : FS.dir) (names : list string) :
  (forall name, In name names -> In name (map fst labels)) ->
  snd (planned_writes class_id labels names) = Ok tt <->
  (forall name text,
      In name names -> Str.endswith name ".txt" = true ->
      FS.lookup labels name = Some text -> all_tokens_parse text = true).
Proof.
  induction names as [| f rest IH]; intros Hin.
  - cbn [planned_writes snd]. split; [intros _ name text [] | reflexivity].
  - assert (Hin' : forall name, In name rest -> In name (map fst labels))
      by (intros name H; apply Hin; right; exact H).
    specialize (IH Hin'). cbn [planned_writes].
    destruct (Str.endswith f ".txt") eqn:Ef; cbn [negb].
    + destruct (in_lookup labels f (Hin f (or_introl eq_refl))) as [text Ht]. rewrite Ht.
      pose proof (convert_text_is_ok class_id text) as Hok.
      destruct (convert_text class_id text) as [out | e]; cbn [is_ok] in Hok.
      * destruct (planned_writes class_id labels rest) as [ws r]. cbn [snd] in *.
        rewrite IH. split.
        -- intros H name text0 [<- | Hn] Htxt Hl; [| eauto].
           rewrite Ht in Hl. injection Hl as <-. symmetry. exact Hok.
        -- intros H name text0 Hn. apply H. right. exact Hn.
      * cbn [snd]. split; [discriminate |]. intros H.
        rewrite (H f text (or_introl eq_refl) Ef Ht) in Hok. discriminate.
    + rewrite IH. split.
      * intros H name text [<- | Hn] Htxt Hl; [congruence | eauto].
      * intros H name text Hn. apply H. right. exact Hn.
Qed.



(* ================================================================= *)
(** ** Further properties of the extractor *)

Lemma forallb2_nth_left {A B : Type} (f : A -> B -> bool) (l : list A) (l' : list B) :
  forallb2 f l l' = true ->
  forall k x, nth_error l k = Some x -> exists y, nth_error l' k = Some y /\ f x y = true.
Proof.
  revert l'. induction l as [| a r IH]; intros [| b r'] H k x Hk; simpl in H;
    try discriminate.
  - destruct k; discriminate.
  - apply andb_prop in H. destruct H as [Hab Hr].
    destruct k as [| k]; simpl in *.
    + injection Hk as <-. eauto.
    + eauto.
Qed.

Lemma range_from_1_nth (n l : Z) :
  1 <= l < n -> nth_error (range_from_1 n) (Z.to_nat (l - 1)) = Some l.
Proof.
  intros H. unfold range_from_1. rewrite nth_error_map.
  assert (Hi : (Z.to_nat (l - 1) < Z.to_nat n - 1)%nat) by lia.
  rewrite nth_error_nth' with (d := O) by (rewrite length_seq; exact Hi).
  rewrite seq_nth by exact Hi. simpl. f_equal. lia.
Qed.

Lemma length_range_from_1 (n : Z) :
  Z.of_nat (List.length (range_from_1 n)) = Z.max 0 (n - 1).
Proof. unfold range_from_1. rewrite length_map, length_seq. lia. Qed.

Lemma pixel_eq_scalar (labels : Np.image) (i l : Z) (r c : nat) :
  pixel labels r c = Some l ->
  pixel (Np.eq_scalar labels i) r c = Some (if l =? i then 1 else 0).
Proof.
  unfold pixel, Np.eq_scalar. rewrite nth_error_map.
  destruct (nth_error labels r) as [row |]; simpl; [| discriminate].
  rewrite nth_error_map. intros ->. reflexivity.
Qed.

Lemma in_range_by_2_even (n j : nat) : (2 * j < n)%nat -> In (2 * j)%nat (range_by_2 n).
Proof.
  intros H. unfold range_by_2. apply in_map_iff. exists j. split; [reflexivity |].
  apply in_seq. split; [lia |]. simpl.
  destruct (Nat.Even_Odd_dec n) as [[m ->] | [m ->]].
  - replace (2 * m + 1)%nat with (S (2 * m)) by lia.
    rewrite Nat.div2_succ_double. lia.
  - replace (2 * m + 1 + 1)%nat with (2 * (S m))%nat by lia.
    rewrite Nat.div2_double. lia.
Qed.

(** *** Coordinates that are not finite *)

Lemma scale_round_not_finite (c : float) (n : Z) :
  not_finite c = true -> is_ok (scale_round c n) = false.
Proof.
  unfold not_finite, scale_round. intros Hc.
  destruct (Float.of_int n) as [nf | e]; simpl; [| reflexivity].
  unfold Float.round. rewrite mul_spec.
  destruct (Prim2SF c) as [s | s | | s m e]; try discriminate;
    destruct (Prim2SF nf) as [s' | s' | | s' m' e']; reflexivity.
Qed.

Lemma polygon_loop_bad_scale (coords : list float) (w h : Z) (idx : list nat) (i : nat)
  (c : float) :
  In i idx ->
  (nth_error coords i = Some c /\ is_ok (scale_round c w) = false) \/
  (nth_error coords (i + 1) = Some c /\ is_ok (scale_round c h) = false) ->
  forall polygon, is_ok (polygon_loop coords w h idx polygon) = false.
Proof.
  intros Hin Hbad. induction idx as [| j rest IH]; intros polygon; [contradiction |].
  simpl. unfold getitem.
  destruct (nth_error coords j) as [cx |] eqn:Hx; simpl; [| reflexivity].
  destruct (scale_round cx w) as [x |] eqn:Sx; simpl; [| reflexivity].
  destruct (nth_error coords (j + 1)) as [cy |] eqn:Hy; simpl; [| reflexivity].
  destruct (scale_round cy h) as [y |] eqn:Sy; simpl; [| reflexivity].
  destruct Hin as [-> | Hin]; [| auto].
  destruct Hbad as [[E B] | [E B]].
  - rewrite Hx in E. injection E as <-. rewrite Sx in B. discriminate.
  - rewrite Hy in E. injection E as <-. rewrite Sy in B. discriminate.
Qed.

Lemma polygon_loop_not_finite (coords : list float) (w h : Z) (c : float) :
  In c coords -> not_finite c = true ->
  is_ok (polygon_loop coords w h (range_by_2 (List.length coords)) []) = false.
Proof.
  intros Hin Hc. apply In_nth_error in Hin. destruct Hin as [k Hk].
  assert (Hlt : (k < List.length coords)%nat).
  { apply nth_error_Some. congruence. }
  destruct (Nat.Even_Odd_dec k) as [[j ->] | [j ->]].
  - apply (polygon_loop_bad_scale coords w h _ (2 * j)%nat c).
    + apply in_range_by_2_even. exact Hlt.
    + left. split; [exact Hk | apply scale_round_not_finite; exact Hc].
  - apply (polygon_loop_bad_scale coords w h _ (2 * j)%nat c).
    + apply in_range_by_2_even. lia.
    + right. split; [exact Hk | apply scale_round_not_finite; exact Hc].
Qed.

Section ExtractorFurther.

Variable fillPoly : Np.image -> list (Z * Z) -> result Np.image.
Variable connectedComponentsWithStats : Np.image -> result components.

Local Abbreviation extract := (extract_masks_and_bboxes fillPoly connectedComponentsWithStats).
Local Abbreviation contract := (contract_holds fillPoly connectedComponentsWithStats).

(** X9. A coordinate that is a NaN or an infinity (the tokens [nan],
    [inf], [1e999]) on a line with at least 6 coordinates makes the extractor
    raise, since [round] does not take such a number; the converter accepts
    the same line. *)
Theorem non_finite_coordinate_raises (text : string) (h w : Z) (line : string)
  (items : list float) (c : float) :
  In line (Str.readlines text) ->
  parse_floats line = Ok items ->
  (6 <= List.length (tl items))%nat ->
  In c (tl items) ->
  not_finite c = true ->
  is_ok (extract text (h, w)) = false /\
  (forall class_id, is_ok (bbox_of_line class_id line) = true).
Proof.
  intros Hline Hp Hlen Hin Hc. split.
  - unfold extract_masks_and_bboxes, rasterize.
    destruct (Np.zeros h w) as [z |]; simpl; [| reflexivity].
    pose proof (fill_lines_raises fillPoly h w _ line items Hline Hp Hlen
                  (polygon_loop_not_finite _ w h c Hin Hc) z) as Hf.
    destruct (fill_lines fillPoly h w (Str.readlines text) z); [discriminate | reflexivity].
  - intros class_id. rewrite bbox_of_line_is_ok, Hp. reflexivity.
Qed.

(** *** Lines that the filter skips *)

Lemma fill_lines_kept (h w : Z) (lines : list string) :
  forall base_mask,
    fill_lines fillPoly h w (filter kept_by_extractor lines) base_mask
    = fill_lines fillPoly h w lines base_mask.
Proof.
  induction lines as [| line rest IH]; intros m; [reflexivity |].
  cbn [filter]. unfold kept_by_extractor at 1.
  destruct (parse_floats line) as [items | e] eqn:Hp.
  - destruct (Nat.ltb_spec (List.length (tl items)) 6) as [Hlt | Hge]; cbn [negb].
    + rewrite IH. cbn [fill_lines]. rewrite Hp. cbn [bind].
      apply Nat.ltb_lt in Hlt. rewrite Hlt. reflexivity.
    + cbn [fill_lines]. rewrite Hp. cbn [bind].
      destruct (List.length (tl items) <? 6)%nat; [apply IH |].
      destruct (polygon_loop _ _ _ _ _); cbn [bind]; [| reflexivity].
      destruct (fillPoly m a); cbn [bind]; [apply IH | reflexivity].
  - cbn [fill_lines]. rewrite Hp. reflexivity.
Qed.

(** X10. The result of the extractor depends on the lines that pass its
    length filter only: label files that differ in skipped lines (blank
    lines, lines with fewer than 6 coordinates) give the same masks and
    boxes. *)
Theorem extract_ignores_skipped_lines (text text' : string) (img_shape : Z * Z) :
  filter kept_by_extractor (Str.readlines text)
  = filter kept_by_extractor (Str.readlines text') ->
  extract text img_shape = extract text' img_shape.
Proof.
  intros H. destruct img_shape as [h w]. unfold extract_masks_and_bboxes, rasterize.
  destruct (Np.zeros h w) as [z |]; simpl; [| reflexivity].
  rewrite <- (fill_lines_kept h w (Str.readlines text)).
  rewrite <- (fill_lines_kept h w (Str.readlines text')).
  rewrite H. reflexivity.
Qed.

(** *** The instances and the labels *)

Lemma masks_of_labels (labels : Np.image) (stats : list (list Z)) (n : Z)
  (masks : list Np.image) (boxes : list (list Z)) :
  components_loop labels stats (range_from_1 n) [] [] = Ok (masks, boxes) ->
  masks = map (Np.eq_scalar labels) (range_from_1 n) /\
  Forall2 (fun i b => exists row, nth_error stats (Z.to_nat i) = Some row /\
                                  box_of_row row = Some b) (range_from_1 n) boxes.
Proof.
  intros H. apply components_loop_spec in H. destruct H as [Hm [bs' [Hb HF]]].
  simpl in Hm, Hb. subst. split; [reflexivity | exact HF].
Qed.

(** X11. The instances come in the order of the labels: for a labelling
    with [num_labels] labels the extractor returns [num_labels - 1] masks and
    as many boxes, the mask of index [i] is the set of the pixels with label
    [i + 1], and the box of index [i] is made from the row [i + 1] of the
    statistics; label 0, the background, gives no instance. *)
Theorem instances_follow_the_labels (text : string) (h w : Z)
  (masks : list Np.image) (boxes : list (list Z)) :
  extract text (h, w) = Ok (masks, boxes) ->
  exists base num_labels labels stats,
    rasterize fillPoly text h w = Ok base /\
    connectedComponentsWithStats base = Ok (num_labels, labels, stats) /\
    Z.of_nat (List.length masks) = Z.max 0 (num_labels - 1) /\
    List.length boxes = List.length masks /\
    forall i,
      (i < List.length masks)%nat ->
      nth_error masks i = Some (Np.eq_scalar labels (Z.of_nat i + 1)) /\
      exists x y w_box h_box area,
        nth_error stats (S i) = Some [x; y; w_box; h_box; area] /\
        nth_error boxes i = Some [x; y; Np.add32 x w_box; Np.add32 y h_box].
Proof.
  intros H. apply extract_ok_inv in H.
  destruct H as [base [n [labels [stats [Hb [Hc Hl]]]]]].
  exists base, n, labels, stats.
  apply masks_of_labels in Hl. destruct Hl as [-> HF].
  split; [exact Hb | split; [exact Hc |]].
  rewrite length_map. split; [apply length_range_from_1 |].
  split; [symmetry; eapply Forall2_length; exact HF |].
  intros i Hi.
  destruct (nth_error (range_from_1 n) i) as [v |] eqn:Hv.
  2:{ apply nth_error_None in Hv. lia. }
  pose proof (nth_error_range_from_1 _ _ _ Hv) as [-> Hr].
  split.
  - rewrite nth_error_map, Hv. simpl. f_equal. f_equal. lia.
  - destruct (Forall2_nth_error _ _ _ HF i _ Hv) as [b [Hbi [row [Hrow Hbox]]]].
    rewrite Nat2Z.id in Hrow. unfold box_of_row in Hbox.
    destruct row as [| x [| y [| w_box [| h_box [| area [| ? ?]]]]]]; try discriminate.
    injection Hbox as <-. exists x, y, w_box, h_box, area. split; assumption.
Qed.

(** X12. Under the contract of the labelling, the masks are a partition of
    the filled region: a pixel that the polygons of the label file have
    filled belongs to exactly one mask, and a pixel that is left at 0 belongs
    to none. *)
Theorem masks_partition_the_filled_region (text : string) (h w : Z)
  (masks : list Np.image) (boxes : list (list Z)) (base : Np.image) :
  extract text (h, w) = Ok (masks, boxes) ->
  contract text h w ->
  rasterize fillPoly text h w = Ok base ->
  forall r c v,
    pixel base r c = Some v ->
    (v = 0 ->
     forall i mask, nth_error masks i = Some mask -> pixel mask r c = Some 0) /\
    (v <> 0 ->
     exists i mask,
       nth_error masks i = Some mask /\ pixel mask r c = Some 1 /\
       forall j mask', j <> i -> nth_error masks j = Some mask' -> pixel mask' r c = Some 0).
Proof.
  intros H Hcontract Hbase r c v Hv.
  apply extract_ok_inv in H.
  destruct H as [base' [n [labels [stats [Hb [Hc Hl]]]]]].
  rewrite Hbase in Hb. injection Hb as <-.
  pose proof (Hcontract _ _ Hbase Hc) as Hcc.
  apply cc_contract_inv in Hcc. destruct Hcc as [_ [_ [_ [Hlab _]]]].
  apply masks_of_labels in Hl. destruct Hl as [-> _].
  unfold pixel in Hv. destruct (nth_error base r) as [row |] eqn:Hrow; [| discriminate].
  destruct (forallb2_nth_left _ _ _ Hlab r row Hrow) as [lrow [Hlrow Hrows]].
  destruct (forallb2_nth_left _ _ _ Hrows c v Hv) as [l [Hl Hok]].
  unfold label_ok in Hok. apply andb_prop in Hok. destruct Hok as [Hrange Hzero].
  apply andb_prop in Hrange. destruct Hrange as [H0 Hn].
  apply Z.leb_le in H0. apply Z.ltb_lt in Hn. apply Bool.eqb_prop in Hzero.
  assert (Hpl : pixel labels r c = Some l).
  { unfold pixel. rewrite Hlrow. exact Hl. }
  assert (Hmask : forall i mask,
             nth_error (map (Np.eq_scalar labels) (range_from_1 n)) i = Some mask ->
             pixel mask r c = Some (if l =? Z.of_nat (S i) then 1 else 0)).
  { intros i mask Hi. rewrite nth_error_map in Hi.
    destruct (nth_error (range_from_1 n) i) as [a |] eqn:Ha; [| discriminate].
    injection Hi as <-. apply nth_error_range_from_1 in Ha. destruct Ha as [-> _].
    apply pixel_eq_scalar. exact Hpl. }
  split.
  - intros ->. assert (l = 0).
    { apply Z.eqb_eq. rewrite Hzero. reflexivity. }
    subst l. intros i mask Hi. rewrite (Hmask i mask Hi).
    destruct (Z.eqb_spec 0 (Z.of_nat (S i))); [lia | reflexivity].
  - intros Hnz. assert (Hl0 : l <> 0).
    { intros ->. apply Hnz. apply Z.eqb_eq. rewrite <- Hzero. reflexivity. }
    exists (Z.to_nat (l - 1)), (Np.eq_scalar labels l).
    split; [| split].
    + rewrite nth_error_map, range_from_1_nth by lia. reflexivity.
    + rewrite (pixel_eq_scalar labels l l r c Hpl), Z.eqb_refl. reflexivity.
    + intros j mask' Hj Hm. rewrite (Hmask j mask' Hm).
      destruct (Z.eqb_spec l (Z.of_nat (S j))); [lia | reflexivity].
Qed.

End ExtractorFurther.

(** The two triangles, with a blank line and a line of two vertices added. *)
Lemma extract_ignores_skipped_lines_example :
  filter kept_by_extractor
    (Str.readlines (Examples.newline ++ Examples.two_triangles ++ "0 0.1 0.1 0.5 0.5"))
  = filter kept_by_extractor (Str.readlines Examples.two_triangles) /\
  Reference.extract (Examples.newline ++ Examples.two_triangles ++ "0 0.1 0.1 0.5 0.5") (10, 12)
  = Reference.extract Examples.two_triangles (10, 12).
Proof.
  assert (H : filter kept_by_extractor
                (Str.readlines (Examples.newline ++ Examples.two_triangles
                                ++ "0 0.1 0.1 0.5 0.5"))
              = filter kept_by_extractor (Str.readlines Examples.two_triangles))
    by (vm_compute; reflexivity).
  split; [exact H |].
  exact (extract_ignores_skipped_lines Reference.fillPoly
           Reference.connectedComponentsWithStats _ _ (10, 12) H).
Defined.

(** A triangle with the coordinate [nan]. *)
Lemma non_finite_coordinate_raises_at_nan :
  is_ok (Reference.extract "0 0.1 0.1 nan 0.1 0.5 0.5" (10, 10)) = false /\
  (forall class_id, is_ok (bbox_of_line class_id "0 0.1 0.1 nan 0.1 0.5 0.5") = true).
Proof.
  assert (Hp : exists items,
             parse_floats "0 0.1 0.1 nan 0.1 0.5 0.5" = Ok items /\
             (6 <= List.length (tl items))%nat /\
             exists c, In c (tl items) /\ not_finite c = true).
  { eexists. split; [vm_compute; reflexivity |]. split; [simpl; lia |].
    exists nan. split; [simpl; tauto | reflexivity]. }
  destruct Hp as [items [Hp [Hlen [c [Hin Hc]]]]].
  apply (non_finite_coordinate_raises Reference.fillPoly
           Reference.connectedComponentsWithStats
           "0 0.1 0.1 nan 0.1 0.5 0.5" 10 10 "0 0.1 0.1 nan 0.1 0.5 0.5" items c);
    try assumption.
  left. reflexivity.
Defined.

(** The instances of the two triangles. *)
Lemma instances_follow_the_labels_two_triangles :
  exists masks boxes base num_labels labels stats,
    Reference.extract Examples.two_triangles (10, 12) = Ok (masks, boxes) /\
    rasterize Reference.fillPoly Examples.two_triangles 10 12 = Ok base /\
    Reference.connectedComponentsWithStats base = Ok (num_labels, labels, stats) /\
    Z.of_nat (List.length masks) = Z.max 0 (num_labels - 1) /\
    List.length boxes = List.length masks /\
    forall i,
      (i < List.length masks)%nat ->
      nth_error masks i = Some (Np.eq_scalar labels (Z.of_nat i + 1)) /\
      exists x y w_box h_box area,
        nth_error stats (S i) = Some [x; y; w_box; h_box; area] /\
        nth_error boxes i = Some [x; y; Np.add32 x w_box; Np.add32 y h_box].
Proof.
  destruct (Reference.extract Examples.two_triangles (10, 12)) as [[masks boxes] | e] eqn:E.
  - exists masks, boxes.
    destruct (instances_follow_the_labels Reference.fillPoly
                Reference.connectedComponentsWithStats _ _ _ _ _ E)
      as [base [n [labels [stats H]]]].
    exists base, n, labels, stats. split; [reflexivity | exact H].
  - vm_compute in E. discriminate.
Defined.

(** The masks of the two triangles and the region that they fill. *)
Lemma masks_partition_two_triangles :
  exists masks boxes base,
    Reference.extract Examples.two_triangles (10, 12) = Ok (masks, boxes) /\
    rasterize Reference.fillPoly Examples.two_triangles 10 12 = Ok base /\
    forall r c v,
      pixel base r c = Some v ->
      (v = 0 ->
       forall i mask, nth_error masks i = Some mask -> pixel mask r c = Some 0) /\
      (v <> 0 ->
       exists i mask,
         nth_error masks i = Some mask /\ pixel mask r c = Some 1 /\
         forall j mask', j <> i -> nth_error masks j = Some mask' -> pixel mask' r c = Some 0).
Proof.
  destruct (Reference.extract Examples.two_triangles (10, 12)) as [[masks boxes] | e] eqn:E;
    [| vm_compute in E; discriminate].
  destruct (rasterize Reference.fillPoly Examples.two_triangles 10 12) as [base | e] eqn:B;
    [| vm_compute in B; discriminate].
  exists masks, boxes, base. split; [reflexivity | split; [reflexivity |]].
  apply (masks_partition_the_filled_region Reference.fillPoly
           Reference.connectedComponentsWithStats
           Examples.two_triangles 10 12 masks boxes base E
           reference_contract_two_triangles B).
Defined.

(* ================================================================= *)
(** ** Properties of the loop over the images *)

Lemma gt_scalar_eq_scalar (labels : Np.image) (i : Z) :
  gt_scalar (Np.eq_scalar labels i) 0 = Np.eq_scalar labels i.
Proof.
  unfold gt_scalar, Np.eq_scalar. rewrite map_map. apply map_ext. intros row.
  rewrite map_map. apply map_ext. intros v. destruct (v =? i); reflexivity.
Qed.

Section DictFacts.
Context {V : Type}.

Lemma get_setitem_same (d : Dict.t V) (k : string) (v : V) :
  Dict.get (Dict.setitem d k v) k = Some v.
Proof.
  unfold Dict.get. induction d as [| [k' v'] r IH]; simpl.
  - rewrite String.eqb_refl. reflexivity.
  - destruct (String.eqb k' k) eqn:E; simpl; rewrite E; [reflexivity | exact IH].
Qed.

Lemma get_setitem_other (d : Dict.t V) (k k0 : string) (v : V) :
  k0 <> k -> Dict.get (Dict.setitem d k v) k0 = Dict.get d k0.
Proof.
  intros Hne. unfold Dict.get. induction d as [| [k' v'] r IH]; simpl.
  - destruct (String.eqb_spec k k0); [congruence | reflexivity].
  - destruct (String.eqb_spec k' k) as [-> | Hk]; simpl.
    + destruct (String.eqb_spec k k0); [congruence | reflexivity].
    + destruct (String.eqb k' k0); [reflexivity | exact IH].
Qed.

Lemma keys_setitem_in (d : Dict.t V) (k : string) (v : V) :
  In k (Dict.keys d) -> Dict.keys (Dict.setitem d k v) = Dict.keys d.
Proof.
  unfold Dict.keys. induction d as [| [k' v'] r IH]; simpl; [contradiction |].
  destruct (String.eqb_spec k' k) as [-> | Hk]; simpl; [reflexivity |].
  intros [E | Hin]; [congruence |]. rewrite (IH Hin). reflexivity.
Qed.

Lemma keys_setitem_new (d : Dict.t V) (k : string) (v : V) :
  ~ In k (Dict.keys d) -> Dict.keys (Dict.setitem d k v) = Dict.keys d ++ [k].
Proof.
  unfold Dict.keys. induction d as [| [k' v'] r IH]; simpl; [reflexivity |].
  intros Hni. destruct (String.eqb_spec k' k) as [-> | Hk]; [tauto |].
  simpl. rewrite IH by tauto. reflexivity.
Qed.

Lemma get_in_keys (d : Dict.t V) (k : string) (v : V) :
  Dict.get d k = Some v -> In k (Dict.keys d).
Proof.
  unfold Dict.get, Dict.keys. induction d as [| [k' v'] r IH]; simpl; [discriminate |].
  destruct (String.eqb_spec k' k) as [-> | Hk]; simpl; auto.
Qed.

End DictFacts.

Lemma keys_setitem_both {V W : Type} (d : Dict.t V) (d' : Dict.t W) (k : string)
  (v : V) (v' : W) :
  Dict.keys d = Dict.keys d' ->
  Dict.keys (Dict.setitem d k v) = Dict.keys (Dict.setitem d' k v').
Proof.
  intros H. destruct (in_dec string_dec k (Dict.keys d)) as [Hin | Hni].
  - rewrite keys_setitem_in by exact Hin. rewrite H in Hin.
    rewrite keys_setitem_in by exact Hin. exact H.
  - rewrite keys_setitem_new by exact Hni. rewrite H in Hni.
    rewrite keys_setitem_new by exact Hni. rewrite H. reflexivity.
Qed.

Section AggregatorProperties.

Context {D : Type}.

Variable imread : string -> option (Z * Z).
Variable fillPoly : Np.image -> list (Z * Z) -> result Np.image.
Variable connectedComponentsWithStats : Np.image -> result components.

Local Abbreviation extract := (extract_masks_and_bboxes fillPoly connectedComponentsWithStats).
Local Abbreviation extract_at :=
  (extract_masks_and_bboxes_at fillPoly connectedComponentsWithStats).
Local Abbreviation loop := (aggregate_files imread fillPoly connectedComponentsWithStats).
Local Abbreviation cell := (aggregate imread fillPoly connectedComponentsWithStats).

(** The extractor on a path is the extractor on the text of the file. *)
Lemma extract_at_eq (label_dir : D) (name : string) (h w : Z) (s : FS.t D) :
  extract_at label_dir name (h, w) s
  = (z <- Np.zeros h w ;; text <- FS.read label_dir name s ;; extract text (h, w)).
Proof.
  unfold extract_masks_and_bboxes_at, extract_masks_and_bboxes, rasterize.
  destruct (Np.zeros h w) as [z |]; simpl; [| reflexivity].
  destruct (FS.read label_dir name s) as [text |]; reflexivity.
Qed.

Lemma extract_at_ok (label_dir : D) (name : string) (img_shape : Z * Z) (s : FS.t D)
  (masks : list Np.image) (boxes : list (list Z)) :
  extract_at label_dir name img_shape s = Ok (masks, boxes) ->
  exists text,
    FS.file s label_dir name = Some text /\ extract text img_shape = Ok (masks, boxes).
Proof.
  destruct img_shape as [h w]. rewrite extract_at_eq. intros H.
  inv_bind H as z Hz. inv_bind H as text Ht. exists text.
  split; [apply read_inv; exact Ht | exact H].
Qed.

Lemma extract_masks_thresholded (text : string) (img_shape : Z * Z)
  (masks : list Np.image) (boxes : list (list Z)) :
  extract text img_shape = Ok (masks, boxes) ->
  map (fun mask => gt_scalar mask 0) masks = masks /\
  List.length masks = List.length boxes.
Proof.
  destruct img_shape as [h w]. intros H.
  apply extract_ok_inv in H. destruct H as [base [n [labels [stats [_ [_ Hl]]]]]].
  apply masks_of_labels in Hl. destruct Hl as [-> HF]. split.
  - rewrite map_map. apply map_ext. intros i. apply gt_scalar_eq_scalar.
  - rewrite length_map. eapply Forall2_length. exact HF.
Qed.

Local Abbreviation entries_from_extractor :=
  (entries_from_extractor imread fillPoly connectedComponentsWithStats).

Lemma loop_entries (image_dir label_dir : D) (s : FS.t D) (files : list string) :
  forall m,
    entries_from_extractor image_dir label_dir s m ->
    entries_from_extractor image_dir label_dir s (fst (loop image_dir label_dir files s m)).
Proof.
  induction files as [| file rest IH]; intros m Hm; cbn [aggregate_files]; [exact Hm |].
  destruct (read_image imread image_dir file s) as [img_shape |] eqn:Er; [| exact Hm].
  destruct (extract_at label_dir (fst (Path.splitext file) ++ ".txt") img_shape s)
    as [[masks boxes] | e] eqn:Ee; [| exact Hm].
  apply IH. destruct Hm as [Hk Hget].
  destruct (extract_at_ok _ _ _ _ _ _ Ee) as [text [_ Ht]].
  destruct (extract_masks_thresholded _ _ _ _ Ht) as [Hth Hlen]. rewrite Hth.
  split; cbn [fst snd].
  - apply keys_setitem_both. exact Hk.
  - intros k masks0 Hg.
    destruct (string_dec k (fst (Path.splitext file))) as [-> | Hne].
    + rewrite get_setitem_same in Hg. injection Hg as <-.
      exists file, img_shape, boxes. rewrite get_setitem_same. auto.
    + rewrite get_setitem_other in Hg by exact Hne.
      destruct (Hget k masks0 Hg) as [f [sh [bs [H1 [H2 [H3 [H4 H5]]]]]]].
      exists f, sh, bs. rewrite get_setitem_other by exact Hne. auto.
Qed.

(** X13. At the end of the loop over the images, however it ends, the two
    mappings have the same keys in the same order, and the entries of a key
    are the masks and the boxes that one call of the extractor returned for an
    image with that stem: the lists are index-aligned, and the threshold
    [mask > 0] has changed nothing. *)
Theorem mappings_hold_extractor_results (image_dir label_dir : D) (s : FS.t D) :
  let m := fst (cell image_dir label_dir s) in
  Dict.keys (fst m) = Dict.keys (snd m) /\
  forall k masks,
    Dict.get (fst m) k = Some masks ->
    exists file img_shape boxes,
      fst (Path.splitext file) = k /\
      read_image imread image_dir file s = Some img_shape /\
      extract_at label_dir (k ++ ".txt") img_shape s = Ok (masks, boxes) /\
      Dict.get (snd m) k = Some boxes /\
      List.length masks = List.length boxes.
Proof.
  cbv zeta. unfold aggregate.
  assert (H0 : entries_from_extractor image_dir label_dir s ([], [])).
  { split; [reflexivity | intros k masks H; discriminate]. }
  destruct (FS.listdir image_dir s) as [files | e]; [| exact H0].
  exact (loop_entries image_dir label_dir s files _ H0).
Qed.

(** *** An image without a label file *)

Lemma loop_stops (image_dir label_dir : D) (s : FS.t D) (files : list string)
  (file : string) (img_shape : Z * Z) :
  In file files ->
  read_image imread image_dir file s = Some img_shape ->
  is_ok (extract_at label_dir (fst (Path.splitext file) ++ ".txt") img_shape s) = false ->
  forall m, exists e, snd (loop image_dir label_dir files s m) = Some e.
Proof.
  intros Hin Hr He. induction files as [| f rest IH]; intros m; [contradiction |].
  cbn [aggregate_files].
  destruct (read_image imread image_dir f s) as [sh |] eqn:Er;
    [| eexists; reflexivity].
  destruct (extract_at label_dir (fst (Path.splitext f) ++ ".txt") sh s)
    as [[masks boxes] | e] eqn:Ee; [| eexists; reflexivity].
  destruct Hin as [-> | Hin]; [| apply IH; exact Hin].
  rewrite Hr in Er. injection Er as <-. rewrite Ee in He. discriminate.
Qed.


(** *** The keys of the mappings *)

Lemma loop_get_other (image_dir label_dir : D) (s : FS.t D) (files : list string)
  (k : string) :
  ~ In k (map (fun f => fst (Path.splitext f)) files) ->
  forall m,
    Dict.get (fst (fst (loop image_dir label_dir files s m))) k = Dict.get (fst m) k /\
    Dict.get (snd (fst (loop image_dir label_dir files s m))) k = Dict.get (snd m) k.
Proof.
  induction files as [| f rest IH]; intros Hni m; cbn [aggregate_files]; [auto |].
  cbn [map] in Hni.
  destruct (read_image imread image_dir f s) as [sh |]; [| auto].
  destruct (extract_at label_dir (fst (Path.splitext f) ++ ".txt") sh s)
    as [[masks boxes] | e]; [| auto].
  assert (Hni' : ~ In k (map (fun f => fst (Path.splitext f)) rest))
    by (intros H; apply Hni; right; exact H).
  destruct (IH Hni' (Dict.setitem (fst m) (fst (Path.splitext f))
                               (map (fun mask => gt_scalar mask 0) masks),
                             Dict.setitem (snd m) (fst (Path.splitext f)) boxes))
    as [I1 I2].
  rewrite I1, I2. cbn [fst snd].
  rewrite !get_setitem_other by (intros ->; apply Hni; left; reflexivity). auto.
Qed.

Lemma loop_last_wins (image_dir label_dir : D) (s : FS.t D) (file : string)
  (l2 : list string) :
  ~ In (fst (Path.splitext file)) (map (fun f => fst (Path.splitext f)) l2) ->
  forall l1 m,
    snd (loop image_dir label_dir (l1 ++ file :: l2) s m) = None ->
    exists img_shape masks boxes,
      read_image imread image_dir file s = Some img_shape /\
      extract_at label_dir (fst (Path.splitext file) ++ ".txt") img_shape s = Ok (masks, boxes) /\
      Dict.get (fst (fst (loop image_dir label_dir (l1 ++ file :: l2) s m))) (fst (Path.splitext file))
      = Some masks /\
      Dict.get (snd (fst (loop image_dir label_dir (l1 ++ file :: l2) s m))) (fst (Path.splitext file))
      = Some boxes.
Proof.
  intros Hni. induction l1 as [| f rest IH]; intros m; cbn [app aggregate_files].
  - destruct (read_image imread image_dir file s) as [sh |]; [| discriminate].
    destruct (extract_at label_dir (fst (Path.splitext file) ++ ".txt") sh s)
      as [[masks boxes] | e] eqn:Ee; [| discriminate].
    intros _. exists sh, masks, boxes.
    destruct (loop_get_other image_dir label_dir s l2 _ Hni
                (Dict.setitem (fst m) (fst (Path.splitext file))
                   (map (fun mask => gt_scalar mask 0) masks),
                 Dict.setitem (snd m) (fst (Path.splitext file)) boxes)) as [G1 G2].
    rewrite G1, G2. cbn [fst snd]. rewrite !get_setitem_same.
    destruct (extract_at_ok _ _ _ _ _ _ Ee) as [text [_ Ht]].
    destruct (extract_masks_thresholded _ _ _ _ Ht) as [-> _]. auto.
  - destruct (read_image imread image_dir f s) as [sh |]; [| discriminate].
    destruct (extract_at label_dir (fst (Path.splitext f) ++ ".txt") sh s)
      as [[masks boxes] | e]; [| discriminate].
    apply IH.
Qed.

Lemma loop_keys (image_dir label_dir : D) (s : FS.t D) (files : list string) :
  forall m,
    snd (loop image_dir label_dir files s m) = None ->
    NoDup (Dict.keys (fst m) ++ map (fun f => fst (Path.splitext f)) files) ->
    Dict.keys (fst (fst (loop image_dir label_dir files s m)))
    = Dict.keys (fst m) ++ map (fun f => fst (Path.splitext f)) files.
Proof.
  induction files as [| f rest IH]; intros m; cbn [aggregate_files map].
  - intros _ _. rewrite app_nil_r. reflexivity.
  - destruct (read_image imread image_dir f s) as [sh |]; [| discriminate].
    destruct (extract_at label_dir (fst (Path.splitext f) ++ ".txt") sh s)
      as [[masks boxes] | e]; [| discriminate].
    intros Hok Hnd.
    assert (Hni : ~ In (fst (Path.splitext f)) (Dict.keys (fst m))).
    { intros Hin. apply NoDup_remove_2 in Hnd. apply Hnd. apply in_or_app. left. exact Hin. }
    rewrite IH; cbn [fst snd].
    + rewrite keys_setitem_new by exact Hni. rewrite <- app_assoc. reflexivity.
    + exact Hok.
    + rewrite keys_setitem_new by exact Hni. rewrite <- app_assoc. exact Hnd.
Qed.

(** X15. When the loop over the images runs to its end, the entries of a
    stem are the masks and the boxes of the last image with that stem, so
    that of two images [a.jpg] and [a.png] the later one replaces the earlier;
    when the stems of the images are all different, the keys of the mappings
    are the stems in the order of the listing. *)
Theorem mappings_keep_the_last_image_of_a_stem (image_dir label_dir : D) (s : FS.t D)
  (images : FS.dir) :
  s image_dir = Some images ->
  snd (cell image_dir label_dir s) = None ->
  let m := fst (cell image_dir label_dir s) in
  (forall l1 file l2,
      map fst images = l1 ++ file :: l2 ->
      ~ In (fst (Path.splitext file)) (map (fun f => fst (Path.splitext f)) l2) ->
      exists img_shape masks boxes,
        read_image imread image_dir file s = Some img_shape /\
        extract_at label_dir (fst (Path.splitext file) ++ ".txt") img_shape s
        = Ok (masks, boxes) /\
        Dict.get (fst m) (fst (Path.splitext file)) = Some masks /\
        Dict.get (snd m) (fst (Path.splitext file)) = Some boxes) /\
  (NoDup (map (fun f => fst (Path.splitext f)) (map fst images)) ->
   Dict.keys (fst m) = map (fun f => fst (Path.splitext f)) (map fst images) /\
   Dict.keys (snd m) = map (fun f => fst (Path.splitext f)) (map fst images)).
Proof.
  intros Hs. unfold aggregate, FS.listdir. rewrite Hs. intros Hok. cbv zeta. split.
  - intros l1 file l2 Hl Hni. rewrite Hl in *.
    apply (loop_last_wins image_dir label_dir s file l2 Hni l1 _ Hok).
  - intros Hnd.
    pose proof (loop_keys image_dir label_dir s (map fst images) ([], []) Hok Hnd) as Hk.
    cbn [fst app Dict.keys map] in Hk.
    assert (H0 : entries_from_extractor image_dir label_dir s ([], [])).
    { split; [reflexivity | intros k masks H; discriminate]. }
    pose proof (loop_entries image_dir label_dir s (map fst images) _ H0) as [He _].
    split; [exact Hk | rewrite <- He; exact Hk].
Qed.

End AggregatorProperties.

(** Three images [a.jpg], [b.jpg] and [a.png], the last one larger than the
    first: the boxes under the key [a] are those of [a.png] (for [a.jpg] they
    would be [[1, 1, 5, 4]] and [[7, 6, 12, 10]]); and two images [b.jpg] and
    [a.png]: the keys are in the order of the listing. *)
Lemma mappings_of_two_images_of_a_stem :
  let m := fst (aggregate example_imread_sizes Reference.fillPoly
                  Reference.connectedComponentsWithStats Examples.Images Examples.Labels
                  images_of_one_stem) in
  let m' := fst (aggregate example_imread_sizes Reference.fillPoly
                   Reference.connectedComponentsWithStats Examples.Images Examples.Labels
                   images_b_then_a) in
  Dict.get (snd m) "a" = Some [[2; 2; 8; 7]; [14; 12; 23; 19]] /\
  Dict.get (snd m) "b" = Some [[1; 1; 7; 6]] /\
  Dict.keys (fst m') = ["b"; "a"] /\ Dict.keys (snd m') = ["b"; "a"].
Proof.
  cbv zeta.
  destruct (mappings_keep_the_last_image_of_a_stem example_imread_sizes Reference.fillPoly
              Reference.connectedComponentsWithStats Examples.Images Examples.Labels
              images_of_one_stem
              [("a.jpg", "image 10 12"); ("b.jpg", "image 10 12"); ("a.png", "image 20 24")]
              eq_refl)
    as [Hlast _]; [vm_compute; reflexivity |].
  destruct (mappings_keep_the_last_image_of_a_stem example_imread_sizes Reference.fillPoly
              Reference.connectedComponentsWithStats Examples.Images Examples.Labels
              images_b_then_a
              [("b.jpg", "image 10 12"); ("a.png", "image 20 24")] eq_refl)
    as [_ Hkeys]; [vm_compute; reflexivity |].
  destruct (Hlast ["a.jpg"; "b.jpg"] "a.png" [] eq_refl (fun H => H))
    as [sa [ma [ba [Hra [Hea [_ Hga]]]]]].
  destruct (Hlast ["a.jpg"] "b.jpg" ["a.png"] eq_refl)
    as [sb [mb [bb [Hrb [Heb [_ Hgb]]]]]].
  { intros [H | []]. vm_compute in H. discriminate. }
  vm_compute in Hra. injection Hra as <-. vm_compute in Hrb. injection Hrb as <-.
  vm_compute in Hea. injection Hea as <- <-. vm_compute in Heb. injection Heb as <- <-.
  split; [exact Hga | split; [exact Hgb |]].
  apply Hkeys. cbn [map]. repeat constructor.
  - intros [H | []]. vm_compute in H. discriminate.
  - intros [].
Defined.


(* ================================================================= *)
(** ** The numbers of a record, and the vertices of a polygon *)

(** *** The product with a number of the unit interval *)

Lemma iter_pos_iter {A : Type} (f : A -> A) (n : positive) :
  forall x, iter_pos f n x = Pos.iter f x n.
Proof.
  induction n as [n IH | n IH |]; intros x; cbn [iter_pos Pos.iter].
  - rewrite !IH, Pos.iter_swap. rewrite Pos.iter_swap. reflexivity.
  - rewrite !IH. reflexivity.
  - reflexivity.
Qed.

Lemma iter_pos_add {A : Type} (f : A -> A) (p q : positive) (x : A) :
  iter_pos f (p + q) x = iter_pos f q (iter_pos f p x).
Proof. rewrite !iter_pos_iter, Pos.add_comm. apply Pos.iter_add. Qed.

Lemma shr_record_of_loc_of (r : shr_record) :
  shr_record_of_loc (shr_m r) (loc_of_shr_record r) = r.
Proof. destruct r as [m [|] [|]]; reflexivity. Qed.

(** A product below the least exponent is first cut at that exponent. *)
Lemma binary_round_aux_below (s : bool) (p : positive) (e : Z) :
  e < -1074 ->
  let mrs := iter_pos shr_1 (Z.to_pos (-1074 - e)) (shr_record_of_loc (Zpos p) loc_Exact) in
  binary_round_aux prec emax s (Zpos p) e loc_Exact
  = binary_round_aux prec emax s (shr_m mrs) (-1074) (loc_of_shr_record mrs) /\
  0 <= shr_m mrs /\
  shr_m mrs * 2 ^ (-1074 - e) <= Zpos p < (shr_m mrs + 1) * 2 ^ (-1074 - e) /\
  (shr_r mrs || shr_s mrs = false <-> Zpos p = shr_m mrs * 2 ^ (-1074 - e)).
Proof.
  intros He. cbv zeta.
  set (n0 := Z.to_pos (-1074 - e)).
  assert (Hn0 : Zpos n0 = -1074 - e) by (unfold n0; rewrite Z2Pos.id; lia).
  rewrite <- Hn0.
  set (rec0 := shr_record_of_loc (Zpos p) loc_Exact).
  assert (H0 : stands_for rec0 (-1075) (Zpos p)).
  { apply shr_record_of_loc_stands_for.
    - lia.
    - change (2 ^ (-1075 + 1075)) with 1. lia.
    - change (2 ^ (-1075 + 1075)) with 1. split; intros; [lia | reflexivity]. }
  pose proof (iter_shr_1_stands_for n0 (Zpos p) rec0 (-1075) ltac:(lia) H0) as H1.
  set (mrs := iter_pos shr_1 n0 rec0) in *.
  unfold stands_for in H1.
  replace (-1075 + Zpos n0 + 1075) with (Zpos n0) in H1 by lia.
  destruct H1 as [Hm [Hv Hx]].
  split; [| split; [exact Hm | split; [exact Hv | exact Hx]]].
  assert (E : shr_fexp prec emax (Zpos p) e loc_Exact
              = shr_fexp prec emax (shr_m mrs) (-1074) (loc_of_shr_record mrs)).
  { unfold shr_fexp. rewrite shr_record_of_loc_of, !fexp_eq. fold rec0.
    pose proof (pow2_pos (Zpos n0) ltac:(lia)) as Hc.
    pose proof (Zdigits2_bounds (Zpos p) ltac:(lia)) as Hd.
    assert (Hd1 : 1 <= Zdigits2 (Zpos p)) by (simpl; lia).
    assert (Ef : Z.max (Zdigits2 (shr_m mrs) + -1074 - 53) (-1074)
                 = Z.max (Zdigits2 (Zpos p) + e - 53) (-1074)).
    { destruct (Z.eq_dec (shr_m mrs) 0) as [E0 | Hnz].
      - rewrite E0 in *. change (Zdigits2 0) with 0.
        assert (Zdigits2 (Zpos p) <= Zpos n0) by (apply Zdigits2_le; lia).
        lia.
      - pose proof (Zdigits2_bounds (shr_m mrs) ltac:(lia)) as Hd'.
        assert (Hd1' : 1 <= Zdigits2 (shr_m mrs)).
        { destruct (shr_m mrs); simpl in *; lia. }
        set (d' := Zdigits2 (shr_m mrs)) in *.
        assert (Zdigits2 (Zpos p) = d' + Zpos n0); [| lia].
        apply Z.le_antisymm.
        + apply Zdigits2_le; [lia |]. rewrite pow2_split by lia. nia.
        + apply Zdigits2_ge; [| lia].
          replace (d' + Zpos n0 - 1) with ((d' - 1) + Zpos n0) by lia.
          rewrite pow2_split by lia. nia. }
    rewrite Ef. set (f := Z.max (Zdigits2 (Zpos p) + e - 53) (-1074)).
    assert (Hf : -1074 <= f) by (unfold f; lia).
    destruct (f - -1074) as [| k | k] eqn:Ek; [| | lia].
    - replace (f - e) with (Zpos n0) by lia. cbn [shr]. f_equal. lia.
    - replace (f - e) with (Zpos (n0 + k)) by lia. cbn [shr].
      rewrite iter_pos_add. f_equal. lia. }
  unfold binary_round_aux. rewrite E. reflexivity.
Qed.

Lemma finite_in_unit_exponent (m : positive) (e : Z) :
  bounded prec emax m e = true -> Zpos m * 2 ^ (e + 1075) <= 2 ^ 1075 ->
  e <= 0 /\ Zpos m <= 2 ^ (- e).
Proof.
  intros V H. apply bounded_mantissa in V. destruct V as [He _].
  pose proof (pow2_pos (e + 1075) ltac:(lia)) as Hc.
  assert (He0 : e <= 0).
  { assert (Hp : 2 ^ (e + 1075) <= 2 ^ 1075) by nia.
    apply Z.pow_le_mono_r_iff in Hp; lia. }
  split; [exact He0 |].
  assert (Hs : 2 ^ 1075 = 2 ^ (- e) * 2 ^ (e + 1075)).
  { rewrite <- pow2_split by lia. f_equal. lia. }
  rewrite Hs in H. pose proof (pow2_pos (- e) ltac:(lia)). nia.
Qed.

(** The product of a number of the unit interval and a number that is not
    negative is not above the latter. *)
Lemma SFmul_unit_upper (x y : spec_float) :
  nonneg x -> sval x <= 2 ^ 1075 -> nonneg y -> sval y <= 2 ^ 2097 ->
  nonneg (SF64mul x y) /\ sval (SF64mul x y) <= sval y.
Proof.
  intros Hx Bx Hy By. pose proof Hx as [Vx Nx]. pose proof Hy as [Vy Ny].
  pose proof (sval_nonneg y) as Hy0.
  destruct x as [sx | sx | | [|] mx ex]; try contradiction;
    destruct y as [sy | sy | | [|] my ey]; try contradiction;
    try (split; [split; [reflexivity | exact I] |
                 unfold SF64mul, SFmul; cbn [sval] in *; lia]).
  cbn [valid_binary] in Vx, Vy. cbn [sval] in Bx, By.
  pose proof (finite_in_unit_exponent mx ex Vx Bx) as [Hex0 Hmx].
  pose proof (bounded_inv _ _ Vx) as [Cx _]. pose proof (bounded_inv _ _ Vy) as [Cy _].
  pose proof (bounded_mantissa _ _ Vx) as [Hex _].
  pose proof (bounded_mantissa _ _ Vy) as [Hey _].
  pose proof (digits2_pos_bounds mx) as [Lx _]. pose proof (digits2_pos_bounds my) as [Ly _].
  destruct (nonneg_representable _ Hy) as [Ry _]. cbn [sval] in Ry.
  change (SF64mul (S754_finite false mx ex) (S754_finite false my ey))
    with (binary_round_aux prec emax false (Zpos (mx * my)) (ex + ey) loc_Exact).
  cbn [sval]. set (W := Zpos my * 2 ^ (ey + 1075)) in *.
  pose proof (pow2_pos (ex + 1075) ltac:(lia)) as Hcx.
  pose proof (pow2_pos (ey + 1075) ltac:(lia)) as Hcy.
  destruct (Z.le_gt_cases (-1074) (ex + ey)) as [Hge | Hlt].
  - set (v := Zpos (mx * my) * 2 ^ (ex + ey + 1075)).
    pose proof (pow2_pos (ex + ey + 1075) ltac:(lia)) as Hc.
    pose proof (pow2_pos 1075 ltac:(lia)) as H1075.
    assert (Hv : v <= W).
    { assert (E : v * 2 ^ 1075 = (Zpos mx * 2 ^ (ex + 1075)) * W).
      { unfold v, W. rewrite Pos2Z.inj_mul.
        replace (Zpos mx * Zpos my * 2 ^ (ex + ey + 1075) * 2 ^ 1075)
          with (Zpos mx * Zpos my * (2 ^ (ex + ey + 1075) * 2 ^ 1075)) by ring.
        rewrite <- pow2_split by lia.
        replace (ex + ey + 1075 + 1075) with ((ex + 1075) + (ey + 1075)) by lia.
        rewrite pow2_split by lia. ring. }
      assert (0 <= W) by (unfold W; nia).
      assert (Zpos mx * 2 ^ (ex + 1075) * W <= 2 ^ 1075 * W)
        by (apply Z.mul_le_mono_nonneg_r; assumption).
      nia. }
    assert (Hpre : ex + ey <= fexp prec emax (Zdigits2 (Zpos (mx * my)) + (ex + ey))).
    { rewrite fexp_eq.
      set (dx := Zpos (digits2_pos mx)) in *. set (dy := Zpos (digits2_pos my)) in *.
      assert (dx + dy - 1 <= Zdigits2 (Zpos (mx * my))).
      { apply Zdigits2_ge; [| lia]. rewrite Pos2Z.inj_mul.
        replace (dx + dy - 1 - 1) with ((dx - 1) + (dy - 1)) by lia.
        rewrite pow2_split by lia.
        pose proof (pow2_pos (dx - 1) ltac:(lia)). pose proof (pow2_pos (dy - 1) ltac:(lia)).
        nia. }
      lia. }
    destruct (binary_round_aux_sandwich_wide (Zpos (mx * my)) (ex + ey) loc_Exact v
                ltac:(lia) Hge ltac:(unfold v; lia) ltac:(split; reflexivity) Hpre
                ltac:(lia)) as [N [_ U]].
    split; [exact N | apply U; [exact Ry | exact Hv]].
  - destruct (binary_round_aux_below false (mx * my) (ex + ey) Hlt) as [E [Hm [Hv Hx']]].
    rewrite E.
    set (mrs := iter_pos shr_1 (Z.to_pos (-1074 - (ex + ey)))
                  (shr_record_of_loc (Zpos (mx * my)) loc_Exact)) in *.
    set (m' := shr_m mrs) in *. set (n0 := -1074 - (ex + ey)) in *.
    pose proof (pow2_pos n0 ltac:(unfold n0; lia)) as Hc.
    pose proof (pow2_pos (- ex) ltac:(lia)) as Hcm.
    assert (HW : W * 2 ^ n0 = Zpos my * (2 * 2 ^ (- ex))).
    { unfold W, n0. rewrite <- Z.mul_assoc. rewrite <- pow2_split by lia.
      replace (ey + 1075 + (-1074 - (ex + ey))) with (Z.succ (- ex)) by lia.
      rewrite Z.pow_succ_r by lia. reflexivity. }
    assert (HP : 2 * Zpos (mx * my) <= W * 2 ^ n0).
    { rewrite HW, Pos2Z.inj_mul. nia. }
    set (v := if shr_r mrs || shr_s mrs then 2 * m' + 1 else 2 * m').
    assert (Hvb : 2 * m' <= v < 2 * (m' + 1) /\ v <= W /\
                  (shr_r mrs || shr_s mrs = false <-> v = 2 * m')).
    { unfold v. destruct (shr_r mrs || shr_s mrs) eqn:Ef.
      - assert (Zpos (mx * my) <> m' * 2 ^ n0).
        { intros Heq. apply Hx' in Heq. discriminate. }
        split; [lia | split; [nia | split; [discriminate | lia]]].
      - split; [lia | split; [nia | split; reflexivity]]. }
    destruct Hvb as [Hv1 [Hv2 Hv3]].
    destruct (binary_round_aux_sandwich_wide m' (-1074) (loc_of_shr_record mrs) v)
      as [N [_ U]].
    + exact Hm.
    + lia.
    + change (2 ^ (-1074 + 1075)) with 2. lia.
    + change (2 ^ (-1074 + 1075)) with 2. rewrite <- (Z.mul_comm 2), <- Hv3.
      destruct mrs as [mm [|] [|]]; cbn [loc_of_shr_record shr_r shr_s orb];
        split; congruence.
    + rewrite fexp_eq. lia.
    + lia.
    + split; [exact N | apply U; [exact Ry | exact Hv2]].
Qed.

(** [float(n)] is exact for an integer below [2^53]. *)
Lemma of_int_exact (n : Z) :
  0 <= n < 2 ^ 53 ->
  exists nf, Float.of_int n = Ok nf /\ nonneg (Prim2SF nf) /\ fval nf = n * 2 ^ 1075.
Proof.
  intros Hn. unfold Float.of_int, fval.
  destruct n as [| p | p]; [| | lia].
  - exists (SF2Prim (S754_zero false)). cbn [binary_normalize].
    rewrite Prim2SF_SF2Prim by reflexivity.
    split; [reflexivity | split; [split; [reflexivity | exact I] | reflexivity]].
  - cbn [binary_normalize].
    pose proof (pow2_pos 1075 ltac:(lia)) as H1075.
    assert (Hb : Zpos p * 2 ^ (0 + 1075) <= 2 ^ 2097).
    { change (0 + 1075) with 1075.
      assert (H : 2 ^ 53 * 2 ^ 1075 <= 2 ^ 2097).
      { rewrite <- pow2_split by lia. apply pow2_le. lia. }
      nia. }
    destruct (binary_round_sandwich p 0 ltac:(lia) Hb) as [N [L U]].
    change (0 + 1075) with 1075 in *.
    assert (R : representable (Zpos p * 2 ^ 1075)) by (exists (Zpos p), 1075; lia).
    specialize (L _ R (Z.le_refl _)). specialize (U _ R (Z.le_refl _)).
    destruct N as [V N].
    destruct (binary_round prec emax false p 0) as [s | s | | s m e] eqn:E;
      try (exfalso; exact N).
    + exfalso. cbn [sval] in L. lia.
    + exists (SF2Prim (S754_finite s m e)). rewrite Prim2SF_SF2Prim by exact V.
      split; [reflexivity | split; [split; [exact V | exact N] | lia]].
Qed.

(** [round] of a number that is not negative and not above an integer. *)
Lemma round_below (x : float) (n : Z) :
  nonneg (Prim2SF x) -> fval x <= n * 2 ^ 1075 ->
  exists k, Float.round x = Ok k /\ 0 <= k <= n.
Proof.
  intros [V N] B. unfold Float.round, fval in *.
  pose proof (pow2_pos 1075 ltac:(lia)) as H1075.
  destruct (Prim2SF x) as [s | s | | s m e]; try contradiction.
  - exists 0. cbn [sval] in B. split; [reflexivity | nia].
  - destruct s; [contradiction |]. cbn [sval cond_Zopp] in *.
    cbn [valid_binary] in V. apply bounded_mantissa in V. destruct V as [He _].
    exists (Float.scaled_half_even m e 0). split; [reflexivity |].
    unfold Float.scaled_half_even. change (10 ^ 0) with 1. rewrite !Z.mul_1_r.
    pose proof (pow2_pos (e + 1075) ltac:(lia)) as Hc.
    destruct (Z.leb_spec 0 e) as [Hpos | Hneg].
    + replace (e + 1075) with (e + 1075)%Z in B by reflexivity.
      rewrite (Z.add_comm e 1075) in B. rewrite pow2_split in B by lia.
      pose proof (pow2_pos e Hpos). split; nia.
    + pose proof (pow2_pos (- e) ltac:(lia)) as Hd.
      assert (Hs : 2 ^ 1075 = 2 ^ (- e) * 2 ^ (e + 1075)).
      { rewrite <- pow2_split by lia. f_equal. lia. }
      rewrite Hs in B.
      assert (Hm : Zpos m <= n * 2 ^ (- e)) by nia.
      unfold Float.div_half_even. set (d := 2 ^ (- e)) in *.
      pose proof (Z.div_mod (Zpos m) d ltac:(lia)) as Hdm.
      pose proof (Z.mod_pos_bound (Zpos m) d Hd) as Hr.
      set (q := Zpos m / d) in *. set (r := Zpos m mod d) in *.
      assert (Hq : 0 <= q) by nia.
      assert (Hqn : q <= n) by nia.
      destruct (Z.compare_spec (2 * r) d) as [Heq | Hlt | Hgt].
      * destruct (Z.even q); split; try lia. nia.
      * lia.
      * split; [lia |]. nia.
Qed.

(** A coordinate of the unit interval is scaled to a pixel
    position from 0 to the size of the image. *)
Lemma scale_round_in_range (c : float) (n : Z) :
  in_unit c -> 0 <= n < 2 ^ 53 ->
  exists k, scale_round c n = Ok k /\ 0 <= k <= n.
Proof.
  intros Hc Hn. unfold scale_round.
  destruct (of_int_exact n Hn) as [nf [-> [Nn En]]]. cbn [bind].
  destruct (in_unit_nonneg c Hc) as [Nc Bc]. unfold fval in *.
  assert (Hb : sval (Prim2SF nf) <= 2 ^ 2097).
  { rewrite En. pose proof (pow2_pos 1075 ltac:(lia)).
    assert (H2 : 2 ^ 53 * 2 ^ 1075 <= 2 ^ 2097).
    { rewrite <- pow2_split by lia. apply pow2_le. lia. }
    nia. }
  destruct (SFmul_unit_upper _ _ Nc Bc Nn Hb) as [N U].
  rewrite <- mul_spec in N, U.
  apply round_below; [exact N |]. unfold fval. lia.
Qed.

(** *** The record and the polygon of a valid line *)

Lemma nth_error_flatten (vertices : list (float * float)) :
  forall j v,
    nth_error vertices j = Some v ->
    nth_error (flatten vertices) (2 * j) = Some (fst v) /\
    nth_error (flatten vertices) (2 * j + 1) = Some (snd v).
Proof.
  induction vertices as [| u r IH]; intros j v Hj; [destruct j; discriminate |].
  destruct j as [| j].
  - injection Hj as <-. split; reflexivity.
  - replace (2 * S j)%nat with (S (S (2 * j))) by lia.
    replace (S (S (2 * j)) + 1)%nat with (S (S (2 * j + 1))) by lia.
    apply (IH j v Hj).
Qed.

Lemma range_by_2_even_length (n : nat) :
  range_by_2 (2 * n) = map (fun k => 2 * k)%nat (seq 0 n).
Proof.
  unfold range_by_2. replace (2 * n + 1)%nat with (S (2 * n)) by lia.
  rewrite Nat.div2_succ_double. reflexivity.
Qed.

(** The loop over the vertices, from the vertex [a] on. *)
Lemma polygon_loop_vertices (vertices : list (float * float)) (w h : Z) :
  Forall (fun v => in_unit (fst v) /\ in_unit (snd v)) vertices ->
  0 <= w < 2 ^ 53 -> 0 <= h < 2 ^ 53 ->
  forall k a polygon,
    (a + k <= List.length vertices)%nat ->
    exists points,
      polygon_loop (flatten vertices) w h (map (fun j => 2 * j)%nat (seq a k)) polygon
      = Ok (polygon ++ points) /\
      List.length points = k /\
      forall i v,
        nth_error vertices (a + i) = Some v -> (i < k)%nat ->
        exists x y,
          nth_error points i = Some (x, y) /\
          scale_round (fst v) w = Ok x /\ scale_round (snd v) h = Ok y /\
          0 <= x <= w /\ 0 <= y <= h.
Proof.
  intros Hunit Hw Hh. induction k as [| k IH]; intros a polygon Hlen.
  - exists []. cbn [seq map polygon_loop]. rewrite app_nil_r.
    split; [reflexivity | split; [reflexivity |]]. intros i v _ Hi. lia.
  - cbn [seq map polygon_loop].
    destruct (nth_error vertices a) as [va |] eqn:Ea.
    2:{ apply nth_error_None in Ea. lia. }
    destruct (nth_error_flatten vertices a va Ea) as [E1 E2].
    unfold getitem. rewrite E1, E2. cbn [bind].
    assert (Hva : in_unit (fst va) /\ in_unit (snd va)).
    { rewrite Forall_forall in Hunit. apply Hunit. eapply nth_error_In. exact Ea. }
    destruct Hva as [Hx Hy].
    destruct (scale_round_in_range (fst va) w Hx Hw) as [x [Sx Bx]].
    destruct (scale_round_in_range (snd va) h Hy Hh) as [y [Sy By]].
    rewrite Sx, Sy. cbn [bind].
    destruct (IH (S a) (polygon ++ [(x, y)]) ltac:(lia)) as [points [Hp [Hl Hi]]].
    exists ((x, y) :: points). rewrite Hp, <- app_assoc.
    split; [reflexivity | split; [simpl; lia |]].
    intros i v Hv Hlt. destruct i as [| i].
    + rewrite Nat.add_0_r in Hv. rewrite Ea in Hv. injection Hv as <-.
      exists x, y. auto.
    + apply (Hi i v); [| lia]. rewrite <- Hv. f_equal. lia.
Qed.

(** The record of a valid line, as in the loop of the converter. *)
Lemma bbox_of_valid_line (class_id : Z) (line : string) (cls : float)
  (vertices : list (float * float)) :
  parse_floats line = Ok (cls :: flatten vertices) ->
  (3 <= List.length vertices)%nat ->
  Forall (fun v => in_unit (fst v) /\ in_unit (snd v)) vertices ->
  exists x_min x_max y_min y_max,
    bbox_of_line class_id line
    = Ok (Some (bbox_record class_id ((x_min + x_max) / 2) ((y_min + y_max) / 2)
                  (x_max - x_min) (y_max - y_min))) /\
    in_unit x_min /\ in_unit x_max /\ (x_min <=? x_max)%float = true /\
    in_unit y_min /\ in_unit y_max /\ (y_min <=? y_max)%float = true.
Proof.
  intros Hparse Hlen Hunit.
  assert (Hx : Forall in_unit (map fst vertices)).
  { apply Forall_map. eapply Forall_impl; [| exact Hunit]. simpl. tauto. }
  assert (Hy : Forall in_unit (map snd vertices)).
  { apply Forall_map. eapply Forall_impl; [| exact Hunit]. simpl. tauto. }
  assert (Hnx : map fst vertices <> []) by (destruct vertices; simpl in *; [lia | discriminate]).
  assert (Hny : map snd vertices <> []) by (destruct vertices; simpl in *; [lia | discriminate]).
  destruct (min_is_least _ Hnx Hx) as [x_min [Exmin [Lx Uxmin]]].
  destruct (max_is_greatest _ Hnx Hx) as [x_max [Exmax [Gx Uxmax]]].
  destruct (min_is_least _ Hny Hy) as [y_min [Eymin [Ly Uymin]]].
  destruct (max_is_greatest _ Hny Hy) as [y_max [Eymax [Gy Uymax]]].
  exists x_min, x_max, y_min, y_max.
  split.
  - unfold bbox_of_line. rewrite Hparse. cbn [bind]. unfold bbox_of_parts.
    cbn [List.length tl]. rewrite length_flatten.
    destruct (Nat.ltb_spec (S (2 * List.length vertices)) 6); [lia |].
    rewrite slice_even_flatten, slice_odd_flatten, Exmin, Exmax, Eymin, Eymax.
    reflexivity.
  - repeat (split; [assumption |]). split.
    + destruct Gx as [Hin _]. destruct Lx as [_ Hle]. apply Hle. exact Hin.
    + repeat (split; [assumption |]).
      destruct Gy as [Hin _]. destruct Ly as [_ Hle]. apply Hle. exact Hin.
Qed.

(** X16. The record of a valid polygon (a class id and at least three
    vertices with coordinates in the interval [[0, 1]]) is a normalized box:
    the two centres, the width and the height are numbers of the interval
    [[0, 1]], and each is printed as a number of millionths from 0 to
    1000000, with a minus sign on a negative zero only. *)
Theorem record_of_valid_polygon_is_normalized (class_id : Z) (line : string) (cls : float)
  (vertices : list (float * float)) :
  parse_floats line = Ok (cls :: flatten vertices) ->
  (3 <= List.length vertices)%nat ->
  Forall (fun v => in_unit (fst v) /\ in_unit (snd v)) vertices ->
  exists x_center y_center width height,
    bbox_of_line class_id line
    = Ok (Some (bbox_record class_id x_center y_center width height)) /\
    Forall (fun f =>
              in_unit f /\
              exists s n,
                Float.format_6f f = Float.fixed6 s n /\ 0 <= n <= 1000000 /\
                (s = true -> n = 0))
           [x_center; y_center; width; height].
Proof.
  intros Hparse Hlen Hunit.
  destruct (bbox_of_valid_line class_id line cls vertices Hparse Hlen Hunit)
    as [x_min [x_max [y_min [y_max [E [Ux0 [Ux1 [Lx [Uy0 [Uy1 Ly]]]]]]]]]].
  exists ((x_min + x_max) / 2)%float, ((y_min + y_max) / 2)%float,
         (x_max - x_min)%float, (y_max - y_min)%float.
  split; [exact E |].
  assert (Hfmt : forall f, in_unit f ->
                           in_unit f /\
                           exists s n, Float.format_6f f = Float.fixed6 s n /\
                                       0 <= n <= 1000000 /\ (s = true -> n = 0)).
  { intros f Hf. split; [exact Hf |]. apply format_6f_in_unit. exact Hf. }
  apply Forall_cons; [apply Hfmt; apply midpoint_in_unit; assumption |].
  apply Forall_cons; [apply Hfmt; apply midpoint_in_unit; assumption |].
  apply Forall_cons; [apply Hfmt; apply difference_in_unit; assumption |].
  apply Forall_cons; [apply Hfmt; apply difference_in_unit; assumption |].
  apply Forall_nil.
Qed.

(** The record of the square. *)
Lemma record_of_square_is_normalized :
  exists x_center y_center width height,
    bbox_of_line 0 Examples.square
    = Ok (Some (bbox_record 0 x_center y_center width height)) /\
    Forall (fun f =>
              in_unit f /\
              exists s n,
                Float.format_6f f = Float.fixed6 s n /\ 0 <= n <= 1000000 /\
                (s = true -> n = 0))
           [x_center; y_center; width; height].
Proof.
  apply (record_of_valid_polygon_is_normalized 0 Examples.square 0%float
           Examples.square_vertices).
  - vm_compute. reflexivity.
  - simpl. lia.
  - repeat constructor; vm_compute; reflexivity.
Defined.

(** X17. On a valid polygon and an image with sides below [2^53] the
    extractor raises nothing before the drawing: the loop over the
    coordinates gives one vertex per vertex of the line, [round(x * w)] and
    [round(y * h)], and these are pixel positions from 0 to the width and
    from 0 to the height, both ends included; the line gives one call of
    [cv2.fillPoly], with this polygon. *)
Theorem polygon_of_valid_line_within_image (line : string) (cls : float)
  (vertices : list (float * float)) (h w : Z) :
  parse_floats line = Ok (cls :: flatten vertices) ->
  (3 <= List.length vertices)%nat ->
  Forall (fun v => in_unit (fst v) /\ in_unit (snd v)) vertices ->
  0 <= w < 2 ^ 53 -> 0 <= h < 2 ^ 53 ->
  exists polygon,
    polygon_loop (flatten vertices) w h (range_by_2 (List.length (flatten vertices))) []
    = Ok polygon /\
    List.length polygon = List.length vertices /\
    (forall i v,
        nth_error vertices i = Some v ->
        exists x y,
          nth_error polygon i = Some (x, y) /\
          scale_round (fst v) w = Ok x /\ scale_round (snd v) h = Ok y /\
          0 <= x <= w /\ 0 <= y <= h) /\
    (forall fillPoly rest base_mask,
        fill_lines fillPoly h w (line :: rest) base_mask
        = (base_mask' <- fillPoly base_mask polygon ;; fill_lines fillPoly h w rest base_mask')).
Proof.
  intros Hparse Hlen Hunit Hw Hh.
  destruct (polygon_loop_vertices vertices w h Hunit Hw Hh (List.length vertices) 0 []
              ltac:(lia)) as [points [Hp [Hl Hi]]].
  exists points. rewrite length_flatten, range_by_2_even_length.
  split; [exact Hp | split; [exact Hl | split]].
  - intros i v Hv. apply (Hi i v Hv). apply nth_error_Some. congruence.
  - intros fillPoly rest base_mask. cbn [fill_lines]. rewrite Hparse. cbn [bind tl].
    rewrite length_flatten.
    destruct (Nat.ltb_spec (2 * List.length vertices) 6); [lia |].
    rewrite range_by_2_even_length, Hp. reflexivity.
Qed.

(** The square on an image of height 100 and width 100. *)
Lemma polygon_of_square_within_image :
  exists polygon,
    polygon_loop (flatten Examples.square_vertices) 100 100
      (range_by_2 (List.length (flatten Examples.square_vertices))) []
    = Ok polygon /\
    List.length polygon = List.length Examples.square_vertices /\
    (forall i v,
        nth_error Examples.square_vertices i = Some v ->
        exists x y,
          nth_error polygon i = Some (x, y) /\
          scale_round (fst v) 100 = Ok x /\ scale_round (snd v) 100 = Ok y /\
          0 <= x <= 100 /\ 0 <= y <= 100) /\
    (forall fillPoly rest base_mask,
        fill_lines fillPoly 100 100 (Examples.square :: rest) base_mask
        = (base_mask' <- fillPoly base_mask polygon ;;
           fill_lines fillPoly 100 100 rest base_mask')).
Proof.
  apply (polygon_of_valid_line_within_image Examples.square 0%float
           Examples.square_vertices 100 100).
  - vm_compute. reflexivity.
  - simpl. lia.
  - repeat constructor; vm_compute; reflexivity.
  - split; [lia | reflexivity].
  - split; [lia | reflexivity].
Defined.

(* ================================================================= *)
(** ** The fields of a record *)

(** *** Strings without white space *)

Lemma split_lstrip (s : string) : Str.split (Str.lstrip s) = Str.split s.
Proof.
  induction s as [| c r IH]; [reflexivity |].
  cbn [Str.lstrip]. destruct (Str.isspace c) eqn:E.
  - rewrite IH. cbn [Str.split]. rewrite E. reflexivity.
  - reflexivity.
Qed.

Lemma rstrip_head (c : ascii) (r : string) :
  Str.rstrip (String c r) = EmptyString \/
  exists r', Str.rstrip (String c r) = String c r'.
Proof.
  cbn [Str.rstrip]. destruct (Str.rstrip r) as [| c2 r2].
  - destruct (Str.isspace c); [left; reflexivity | right; eauto].
  - right. eauto.
Qed.

Lemma split_cons (c : ascii) (r : string) :
  Str.split (String c r)
  = if Str.isspace c then Str.split r
    else match r with
         | EmptyString => [String c EmptyString]
         | String c' _ =>
             if Str.isspace c' then String c EmptyString :: Str.split r
             else match Str.split r with
                  | t :: ts => String c t :: ts
                  | [] => [String c EmptyString]
                  end
         end.
Proof. reflexivity. Qed.

Lemma split_rstrip (s : string) : Str.split (Str.rstrip s) = Str.split s.
Proof.
  induction s as [| c r IH]; [reflexivity |].
  cbn [Str.rstrip]. destruct (Str.rstrip r) as [| c2 r2] eqn:Er.
  - (* the rest is white space *)
    assert (Hr : Str.split r = []) by (rewrite <- IH; reflexivity).
    destruct (Str.isspace c) eqn:E.
    + cbn [Str.split]. rewrite E, Hr. reflexivity.
    + cbn [Str.split]. rewrite E. destruct r as [| c' r']; [reflexivity |].
      rewrite Hr. destruct (Str.isspace c'); reflexivity.
  - destruct r as [| c' r']; [discriminate |].
    destruct (rstrip_head c' r') as [H | [r'' H]]; rewrite H in Er; [discriminate |].
    injection Er as <- <-.
    rewrite (split_cons c (String c' r'')), (split_cons c (String c' r')).
    rewrite IH. reflexivity.
Qed.

(** The [strip] before the [split] changes nothing. *)
Lemma split_strip (s : string) : Str.split (Str.strip s) = Str.split s.
Proof. unfold Str.strip. rewrite split_rstrip. apply split_lstrip. Qed.

Lemma plain_not_space (c : ascii) : plain c = true -> Str.isspace c = false.
Proof.
  unfold plain. intros H. apply andb_prop in H. destruct H as [H _].
  destruct (Str.isspace c); [discriminate | reflexivity].
Qed.

Lemma split_token (t : string) :
  t <> EmptyString -> string_forall plain t = true -> Str.split t = [t].
Proof.
  induction t as [| c r IH]; [congruence |]. intros _ H. cbn [string_forall] in H.
  apply andb_prop in H. destruct H as [Hc Hr]. apply plain_not_space in Hc.
  cbn [Str.split]. rewrite Hc. destruct r as [| c' r']; [reflexivity |].
  pose proof Hr as Hr'. cbn [string_forall] in Hr'. apply andb_prop in Hr'.
  destruct Hr' as [Hc' _]. apply plain_not_space in Hc'. rewrite Hc'.
  rewrite IH by (congruence || exact Hr). reflexivity.
Qed.

(** A token followed by white space. *)
Lemma split_token_app (t : string) (c : ascii) (rest : string) :
  t <> EmptyString -> string_forall plain t = true -> Str.isspace c = true ->
  Str.split (t ++ String c rest) = t :: Str.split rest.
Proof.
  intros Hne Ht Hc. induction t as [| a r IH]; [congruence |].
  cbn [string_forall] in Ht. apply andb_prop in Ht. destruct Ht as [Ha Hr].
  apply plain_not_space in Ha.
  change ((String a r ++ String c rest)%string) with (String a (r ++ String c rest)).
  cbn [Str.split]. rewrite Ha. destruct r as [| a' r'].
  - cbn [append]. rewrite Hc. cbn [Str.split]. rewrite Hc. reflexivity.
  - change ((String a' r' ++ String c rest)%string) with (String a' (r' ++ String c rest)).
    pose proof Hr as Hr'. cbn [string_forall] in Hr'. apply andb_prop in Hr'.
    destruct Hr' as [Ha' _]. apply plain_not_space in Ha'. rewrite Ha'.
    change (String a' (r' ++ String c rest)) with ((String a' r' ++ String c rest)%string).
    rewrite IH by (congruence || exact Hr). reflexivity.
Qed.

Lemma string_forall_app (p : ascii -> bool) (s t : string) :
  string_forall p (s ++ t) = string_forall p s && string_forall p t.
Proof.
  induction s as [| c r IH]; [reflexivity |]. cbn [append string_forall].
  rewrite IH, andb_assoc. reflexivity.
Qed.

Lemma string_forall_impl (p q : ascii -> bool) (s : string) :
  (forall c, p c = true -> q c = true) ->
  string_forall p s = true -> string_forall q s = true.
Proof.
  intros H. induction s as [| c r IH]; [reflexivity |]. cbn [string_forall].
  intros Hs. apply andb_prop in Hs. destruct Hs as [Hc Hr].
  rewrite (H c Hc), (IH Hr). reflexivity.
Qed.

(** *** Decimal digits *)

Lemma isdigit_plain (c : ascii) : Str.isdigit c = true -> plain c = true.
Proof.
  destruct c as [[|] [|] [|] [|] [|] [|] [|] [|]]; intros H; try discriminate; reflexivity.
Qed.

Lemma string_of_uint_digits (d : Decimal.uint) :
  string_forall Str.isdigit (NilEmpty.string_of_uint d) = true.
Proof. induction d; simpl; auto. Qed.

Lemma nilzero_digits (d : Decimal.uint) :
  NilZero.string_of_uint d <> EmptyString /\
  string_forall Str.isdigit (NilZero.string_of_uint d) = true.
Proof.
  split.
  - destruct d; discriminate.
  - destruct d; try reflexivity; apply (string_of_uint_digits (_ d)).
Qed.

(** [str(n)] is a run of digits, after a minus sign for a negative [n]. *)
Lemma of_int_shape (n : Z) :
  exists neg digits,
    Str.of_int n = ((if neg : bool then "-" else "") ++ digits)%string /\
    digits <> EmptyString /\ string_forall Str.isdigit digits = true /\
    (0 <= n -> neg = false).
Proof.
  unfold Str.of_int. destruct n as [| p | p]; cbn [Z.to_int NilZero.string_of_int].
  - exists false, "0"%string. repeat split; discriminate.
  - exists false, (NilZero.string_of_uint (Pos.to_uint p)).
    destruct (nilzero_digits (Pos.to_uint p)). repeat split; assumption.
  - exists true, (NilZero.string_of_uint (Pos.to_uint p)).
    destruct (nilzero_digits (Pos.to_uint p)) as [H1 H2].
    split; [reflexivity | split; [exact H1 | split; [exact H2 | lia]]].
Qed.

Lemma pad_digits_digits (n : nat) (v : Z) :
  string_forall Str.isdigit (Float.pad_digits n v) = true.
Proof.
  induction n as [| n IH]; [reflexivity |]. cbn [Float.pad_digits string_forall].
  rewrite IH, andb_true_r.
  pose proof (Z.mod_pos_bound (v / 10 ^ Z.of_nat n) 10 ltac:(lia)) as Hm.
  set (k := (v / 10 ^ Z.of_nat n) mod 10) in *.
  unfold Str.isdigit. rewrite nat_ascii_embedding by lia.
  apply andb_true_intro. split; apply Nat.leb_le; lia.
Qed.

(** *** What [float] accepts *)

Lemma lstrip_plain (s : string) : string_forall plain s = true -> Str.lstrip s = s.
Proof.
  destruct s as [| c r]; [reflexivity |]. cbn [string_forall]. intros H.
  apply andb_prop in H. destruct H as [Hc _]. apply plain_not_space in Hc.
  cbn [Str.lstrip]. rewrite Hc. reflexivity.
Qed.

Lemma rstrip_plain (s : string) : string_forall plain s = true -> Str.rstrip s = s.
Proof.
  induction s as [| c r IH]; [reflexivity |]. cbn [string_forall]. intros H.
  apply andb_prop in H. destruct H as [Hc Hr]. apply plain_not_space in Hc.
  cbn [Str.rstrip]. rewrite (IH Hr), Hc. destruct r; reflexivity.
Qed.

Lemma strip_plain (s : string) : string_forall plain s = true -> Str.strip s = s.
Proof.
  intros H. unfold Str.strip. rewrite (lstrip_plain s H). apply rstrip_plain. exact H.
Qed.

Lemma drop_underscores_plain (s : string) :
  string_forall plain s = true ->
  forall prev,
    match prev with Some p => Ascii.eqb p "_" = false | None => True end ->
    Float.drop_underscores prev s = Some s.
Proof.
  induction s as [| c r IH]; intros H prev Hprev.
  - cbn [Float.drop_underscores]. destruct prev as [p |]; [rewrite Hprev |]; reflexivity.
  - cbn [string_forall] in H. apply andb_prop in H. destruct H as [Hc Hr].
    assert (Hu : Ascii.eqb c "_" = false).
    { unfold plain in Hc. apply andb_prop in Hc. destruct Hc as [_ Hc].
      destruct (Ascii.eqb c "_"); [discriminate | reflexivity]. }
    cbn [Float.drop_underscores]. rewrite Hu.
    assert (Hp : match prev with Some p => Ascii.eqb p "_" | None => false end = false).
    { destruct prev as [p |]; [exact Hprev | reflexivity]. }
    rewrite Hp. cbn [andb]. rewrite (IH Hr (Some c) Hu). reflexivity.
Qed.

Lemma read_digits_digits (digits : string) :
  string_forall Str.isdigit digits = true ->
  forall acc cnt rest,
    match rest with String c _ => Str.isdigit c = false | EmptyString => True end ->
    exists acc',
      Float.read_digits acc cnt (digits ++ rest)
      = (acc', cnt + Z.of_nat (String.length digits), rest).
Proof.
  induction digits as [| c r IH]; intros H acc cnt rest Hrest.
  - exists acc. cbn [append String.length]. rewrite Z.add_0_r.
    destruct rest as [| c r]; [reflexivity |]. cbn [Float.read_digits]. rewrite Hrest.
    reflexivity.
  - cbn [string_forall] in H. apply andb_prop in H. destruct H as [Hc Hr].
    cbn [append Float.read_digits]. rewrite Hc.
    destruct (IH Hr (10 * acc + Float.digit_val c) (cnt + 1) rest Hrest) as [acc' E].
    exists acc'. rewrite E. f_equal. f_equal. cbn [String.length]. lia.
Qed.

Lemma append_nil_r (s : string) : (s ++ "")%string = s.
Proof. induction s as [| c r IH]; [reflexivity |]. cbn [append]. rewrite IH. reflexivity. Qed.

Lemma length_nonempty (s : string) : s <> EmptyString -> 0 < Z.of_nat (String.length s).
Proof. destruct s; [congruence |]. intros _. cbn [String.length]. lia. Qed.

(** A run of digits, with or without a fraction, is a decimal literal. *)
Lemma read_decimal_accepts (digits : string) (tail : string) :
  digits <> EmptyString -> string_forall Str.isdigit digits = true ->
  tail = EmptyString \/
  (exists frac, tail = String "." frac /\ string_forall Str.isdigit frac = true) ->
  exists m k, Float.read_decimal (digits ++ tail) = Some (m, k).
Proof.
  intros Hne Hd Htail. pose proof (length_nonempty digits Hne) as Hlen.
  unfold Float.read_decimal.
  destruct Htail as [-> | [frac [-> Hf]]].
  - destruct (read_digits_digits digits Hd 0 0 EmptyString I) as [ip E].
    rewrite E. cbv beta iota zeta.
    destruct (Z.eqb_spec (0 + Z.of_nat (String.length digits) + 0) 0); [lia |]. eauto.
  - destruct (read_digits_digits digits Hd 0 0 (String "." frac) eq_refl) as [ip E].
    rewrite E. cbv beta iota zeta.
    change (Ascii.eqb "." ".") with true. cbv iota.
    destruct (read_digits_digits frac Hf ip 0 EmptyString I) as [m E'].
    rewrite append_nil_r in E'. rewrite E'. cbv beta iota zeta.
    destruct (Z.eqb_spec (0 + Z.of_nat (String.length digits)
                          + (0 + Z.of_nat (String.length frac))) 0); [lia |]. eauto.
Qed.

(** A signed run of digits, with or without a fraction, is a float
    literal. *)
Lemma of_string_accepts (neg : bool) (digits tail : string) :
  digits <> EmptyString -> string_forall Str.isdigit digits = true ->
  tail = EmptyString \/
  (exists frac, tail = String "." frac /\ string_forall Str.isdigit frac = true) ->
  float_field ((if neg then "-" else "") ++ digits ++ tail).
Proof.
  intros Hne Hd Htail. unfold float_field.
  assert (Hplain_digits : forall s, string_forall Str.isdigit s = true ->
                                    string_forall plain s = true).
  { intros s. apply string_forall_impl. exact isdigit_plain. }
  assert (Hbody : string_forall plain (digits ++ tail) = true).
  { rewrite string_forall_app, (Hplain_digits _ Hd).
    destruct Htail as [-> | [frac [-> Hf]]]; [reflexivity |].
    cbn [string_forall andb]. rewrite (Hplain_digits _ Hf). reflexivity. }
  assert (Hall : string_forall plain ((if neg then "-" else "") ++ digits ++ tail) = true).
  { destruct neg; [| exact Hbody]. cbn [append string_forall]. rewrite Hbody. reflexivity. }
  split.
  { destruct neg; [discriminate |]. cbn [append]. intros E.
    apply append_empty in E. destruct E as [E _]. congruence. }
  split; [exact Hall |].
  unfold Float.of_string. rewrite (strip_plain _ Hall).
  rewrite (drop_underscores_plain _ Hall None I).
  assert (Hsign : Float.read_sign ((if neg then "-" else "") ++ digits ++ tail)
                  = (neg, (digits ++ tail)%string)).
  { destruct neg; [reflexivity |]. cbn [append].
    destruct digits as [| c r]; [congruence |].
    cbn [string_forall] in Hd. apply andb_prop in Hd. destruct Hd as [Hc _].
    cbn [append Float.read_sign].
    destruct (Ascii.eqb_spec c "-") as [-> | _]; [discriminate |].
    destruct (Ascii.eqb_spec c "+") as [-> | _]; [discriminate |]. reflexivity. }
  rewrite Hsign. cbv beta iota zeta.
  destruct (read_decimal_accepts digits tail Hne Hd Htail) as [m [k E]]. rewrite E.
  destruct (_ || _); [eauto |]. destruct (String.eqb _ _); eauto.
Qed.

(** *** The fields that the converter writes *)

Lemma of_int_field (n : Z) : float_field (Str.of_int n).
Proof.
  destruct (of_int_shape n) as [neg [digits [-> [Hne [Hd _]]]]].
  rewrite <- (append_nil_r digits) at 1.
  apply of_string_accepts; auto.
Qed.

Lemma scaled_half_even_nonneg (m : positive) (e p : Z) :
  0 <= p -> 0 <= Float.scaled_half_even m e p.
Proof.
  intros Hp. unfold Float.scaled_half_even.
  pose proof (Z.pow_nonneg 10 p ltac:(lia)) as H10.
  destruct (Z.leb_spec 0 e) as [He | He].
  - pose proof (Z.pow_nonneg 2 e ltac:(lia)). nia.
  - unfold Float.div_half_even. pose proof (pow2_pos (- e) ltac:(lia)) as Hd.
    assert (0 <= Zpos m * 10 ^ p / 2 ^ (- e)) by (apply Z.div_pos; nia).
    destruct (_ ?= _); [destruct (Z.even _) | |]; lia.
Qed.

Lemma fixed6_field (neg : bool) (v : Z) : 0 <= v -> float_field (Float.fixed6 neg v).
Proof.
  intros Hv. unfold Float.fixed6.
  destruct (of_int_shape (v / 1000000)) as [neg' [digits [E [Hne [Hd Hpos]]]]].
  rewrite (Hpos ltac:(apply Z.div_pos; lia)) in E. cbn [append] in E. rewrite E.
  apply of_string_accepts; [exact Hne | exact Hd |].
  right. exists (Float.pad_digits 6 (v mod 1000000)).
  split; [reflexivity | apply pad_digits_digits].
Qed.

Lemma format_6f_field (x : float) : float_field (Float.format_6f x).
Proof.
  unfold Float.format_6f. destruct (Prim2SF x) as [s | s | | s m e].
  - apply fixed6_field. lia.
  - destruct s; (split; [discriminate | split; [reflexivity |]]);
      eexists; vm_compute; reflexivity.
  - split; [discriminate | split; [reflexivity |]]. eexists; vm_compute; reflexivity.
  - apply fixed6_field. apply scaled_half_even_nonneg. lia.
Qed.

(** A record has five fields, and [float] accepts each of them. *)
Lemma record_fields (class_id : Z) (a b c d : float) :
  Str.split (bbox_record class_id a b c d)
  = [Str.of_int class_id; Float.format_6f a; Float.format_6f b; Float.format_6f c;
     Float.format_6f d].
Proof.
  unfold bbox_record.
  destruct (of_int_field class_id) as [N0 [P0 _]].
  destruct (format_6f_field a) as [N1 [P1 _]]. destruct (format_6f_field b) as [N2 [P2 _]].
  destruct (format_6f_field c) as [N3 [P3 _]]. destruct (format_6f_field d) as [N4 [P4 _]].
  change (" " ++ ?r)%string with (String " " r).
  rewrite (split_token_app _ " " _ N0 P0 eq_refl).
  change (" " ++ ?r)%string with (String " " r).
  rewrite (split_token_app _ " " _ N1 P1 eq_refl).
  change (" " ++ ?r)%string with (String " " r).
  rewrite (split_token_app _ " " _ N2 P2 eq_refl).
  change (" " ++ ?r)%string with (String " " r).
  rewrite (split_token_app _ " " _ N3 P3 eq_refl).
  rewrite (split_token _ N4 P4). reflexivity.
Qed.

Lemma rstrip_space_end (s : string) (c : ascii) :
  Str.isspace c = true -> Str.rstrip (s ++ String c EmptyString) = Str.rstrip s.
Proof.
  intros Hc. induction s as [| a r IH].
  - cbn [append Str.rstrip]. rewrite Hc. reflexivity.
  - cbn [append Str.rstrip]. rewrite IH. reflexivity.
Qed.

Lemma split_space_end (s : string) (c : ascii) :
  Str.isspace c = true -> Str.split (s ++ String c EmptyString) = Str.split s.
Proof.
  intros Hc. rewrite <- split_rstrip, (rstrip_space_end s c Hc). apply split_rstrip.
Qed.

Lemma parse_record (class_id : Z) (a b c d : float) (line : string) :
  line = bbox_record class_id a b c d \/
  line = (bbox_record class_id a b c d ++ String Str.nl EmptyString)%string ->
  exists v0 v1 v2 v3 v4, parse_floats line = Ok [v0; v1; v2; v3; v4].
Proof.
  intros Hline.
  assert (Hs : Str.split (Str.strip line)
               = [Str.of_int class_id; Float.format_6f a; Float.format_6f b;
                  Float.format_6f c; Float.format_6f d]).
  { rewrite split_strip. destruct Hline as [-> | ->].
    - apply record_fields.
    - rewrite split_space_end by reflexivity. apply record_fields. }
  unfold parse_floats. rewrite Hs.
  destruct (of_int_field class_id) as [_ [_ [v0 E0]]].
  destruct (format_6f_field a) as [_ [_ [v1 E1]]].
  destruct (format_6f_field b) as [_ [_ [v2 E2]]].
  destruct (format_6f_field c) as [_ [_ [v3 E3]]].
  destruct (format_6f_field d) as [_ [_ [v4 E4]]].
  exists v0, v1, v2, v3, v4. cbn [mapM]. unfold Float.float_of_str.
  rewrite E0, E1, E2, E3, E4. reflexivity.
Qed.

Lemma bbox_of_line_record (class_id : Z) (line rec : string) :
  bbox_of_line class_id line = Ok (Some rec) ->
  exists a b c d, rec = bbox_record class_id a b c d.
Proof.
  unfold bbox_of_line, bbox_of_parts. destruct (parse_floats line) as [parts |]; simpl;
    [| discriminate].
  destruct (List.length parts <? 6)%nat; [discriminate |].
  destruct (Float.min _); simpl; [| discriminate].
  destruct (Float.max _); simpl; [| discriminate].
  destruct (Float.min _); simpl; [| discriminate].
  destruct (Float.max _); simpl; [| discriminate].
  intros H. injection H as <-. eauto.
Qed.

(** X18. Every record that the converter emits has exactly five fields
    separated by single spaces, and [float] accepts each of them, so that the
    record is a well-formed line of a box file; as a line of a label file it
    has too few values for either filter and is skipped by both functions. *)
Theorem record_has_five_float_fields (class_id : Z) (line rec : string) :
  bbox_of_line class_id line = Ok (Some rec) ->
  (exists a b c d,
      rec = bbox_record class_id a b c d /\
      Str.split rec
      = [Str.of_int class_id; Float.format_6f a; Float.format_6f b; Float.format_6f c;
         Float.format_6f d]) /\
  (exists v0 v1 v2 v3 v4, parse_floats rec = Ok [v0; v1; v2; v3; v4]) /\
  kept_by_converter rec = false /\
  kept_by_extractor rec = false.
Proof.
  intros H. apply bbox_of_line_record in H. destruct H as [a [b [c [d ->]]]].
  split; [exists a, b, c, d; split; [reflexivity | apply record_fields] |].
  destruct (parse_record class_id a b c d _ (or_introl eq_refl))
    as [v0 [v1 [v2 [v3 [v4 E]]]]].
  split; [eauto 6 |].
  unfold kept_by_converter, kept_by_extractor. rewrite E. split; reflexivity.
Qed.

(** The record of the square. *)
Lemma record_of_square_has_five_fields :
  (exists a b c d,
      "0 0.300000 0.300000 0.400000 0.400000" = bbox_record 0 a b c d /\
      Str.split "0 0.300000 0.300000 0.400000 0.400000"
      = [Str.of_int 0; Float.format_6f a; Float.format_6f b; Float.format_6f c;
         Float.format_6f d]) /\
  (exists v0 v1 v2 v3 v4,
      parse_floats "0 0.300000 0.300000 0.400000 0.400000" = Ok [v0; v1; v2; v3; v4]) /\
  kept_by_converter "0 0.300000 0.300000 0.400000 0.400000" = false /\
  kept_by_extractor "0 0.300000 0.300000 0.400000 0.400000" = false.
Proof.
  apply (record_has_five_float_fields 0 Examples.square).
  vm_compute. reflexivity.
Defined.

(** *** The lines of a box file *)

Lemma readlines_line (s t : string) :
  string_forall within_line s = true ->
  Str.readlines (s ++ String Str.nl t) = (s ++ String Str.nl EmptyString)%string :: Str.readlines t.
Proof.
  induction s as [| c r IH]; intros H; [reflexivity |].
  cbn [string_forall] in H. apply andb_prop in H. destruct H as [Hc Hr].
  unfold within_line in Hc. apply andb_prop in Hc. destruct Hc as [Hn Hcr].
  cbn [append Str.readlines].
  destruct (Ascii.eqb c Str.nl); [discriminate |].
  destruct (Ascii.eqb c Str.cr); [discriminate |].
  rewrite (IH Hr). reflexivity.
Qed.

Lemma readlines_last (s : string) :
  s <> EmptyString -> string_forall within_line s = true -> Str.readlines s = [s].
Proof.
  induction s as [| c r IH]; [congruence |]. intros _ H.
  cbn [string_forall] in H. apply andb_prop in H. destruct H as [Hc Hr].
  unfold within_line in Hc. apply andb_prop in Hc. destruct Hc as [Hn Hcr].
  cbn [Str.readlines].
  destruct (Ascii.eqb c Str.nl); [discriminate |].
  destruct (Ascii.eqb c Str.cr); [discriminate |].
  destruct r as [| c' r']; [reflexivity |].
  rewrite IH by (congruence || exact Hr). reflexivity.
Qed.

(** The lines of the joined records are the records, each but the last
    with its newline. *)
Lemma readlines_join (recs : list string) :
  Forall (fun rec => rec <> EmptyString /\ string_forall within_line rec = true) recs ->
  Forall (fun line =>
            exists rec, In rec recs /\
                        (line = rec \/ line = (rec ++ String Str.nl EmptyString)%string))
         (Str.readlines (Str.join (String Str.nl EmptyString) recs)).
Proof.
  unfold Str.join. induction 1 as [| rec rest [Hne Hw] Hrest IH]; [constructor |].
  destruct rest as [| rec' rest'].
  - cbn [String.concat]. rewrite (readlines_last rec Hne Hw).
    constructor; [| constructor]. exists rec. split; [left; reflexivity | left; reflexivity].
  - change (String.concat (String Str.nl EmptyString) (rec :: rec' :: rest'))
      with (rec ++ String Str.nl (String.concat (String Str.nl EmptyString) (rec' :: rest')))%string.
    rewrite (readlines_line rec _ Hw). constructor.
    + exists rec. split; [left; reflexivity | right; reflexivity].
    + eapply Forall_impl; [| exact IH]. intros line [r [Hin Hl]].
      exists r. split; [right; exact Hin | exact Hl].
Qed.

Lemma plain_within_line (c : ascii) : plain c = true -> within_line c = true.
Proof.
  intros H. apply plain_not_space in H. unfold within_line.
  destruct (Ascii.eqb_spec c Str.nl) as [-> | _]; [discriminate |].
  destruct (Ascii.eqb_spec c Str.cr) as [-> | _]; [discriminate |]. reflexivity.
Qed.

Lemma record_within_line (class_id : Z) (a b c d : float) :
  bbox_record class_id a b c d <> EmptyString /\
  string_forall within_line (bbox_record class_id a b c d) = true.
Proof.
  unfold bbox_record.
  destruct (of_int_field class_id) as [N0 [P0 _]].
  destruct (format_6f_field a) as [_ [P1 _]]. destruct (format_6f_field b) as [_ [P2 _]].
  destruct (format_6f_field c) as [_ [P3 _]]. destruct (format_6f_field d) as [_ [P4 _]].
  split.
  - intros E. apply append_empty in E. destruct E as [E _]. congruence.
  - rewrite !string_forall_app.
    rewrite (string_forall_impl _ _ _ plain_within_line P0),
      (string_forall_impl _ _ _ plain_within_line P1),
      (string_forall_impl _ _ _ plain_within_line P2),
      (string_forall_impl _ _ _ plain_within_line P3),
      (string_forall_impl _ _ _ plain_within_line P4).
    reflexivity.
Qed.

Lemma convert_lines_records (class_id : Z) (lines acc out : list string) :
  Forall (fun rec => exists a b c d, rec = bbox_record class_id a b c d) acc ->
  convert_lines class_id lines acc = Ok out ->
  Forall (fun rec => exists a b c d, rec = bbox_record class_id a b c d) out.
Proof.
  revert acc. induction lines as [| line rest IH]; intros acc Hacc; simpl.
  - intros H. injection H as <-. exact Hacc.
  - destruct (bbox_of_line class_id line) as [[rec |] |] eqn:Hl; simpl; [| | discriminate].
    + apply IH. apply Forall_app. split; [exact Hacc |].
      constructor; [| constructor]. eapply bbox_of_line_record. exact Hl.
    + apply IH. exact Hacc.
Qed.

(** X19. A box file that the converter writes is not a label file: every
    line of it has five float fields, so that the converter turns it into an
    empty file (a second run on its own output, as with the output directory
    equal to the label directory, loses every box), and the extractor draws
    nothing for it. *)
Theorem box_file_has_no_polygon (class_id : Z) (text out : string) :
  convert_text class_id text = Ok out ->
  Forall (fun line => exists v0 v1 v2 v3 v4, parse_floats line = Ok [v0; v1; v2; v3; v4])
         (Str.readlines out) /\
  (forall class_id', convert_text class_id' out = Ok "") /\
  (forall fillPoly h w, rasterize fillPoly out h w = Np.zeros h w).
Proof.
  unfold convert_text at 1. intros H. inv_bind H as recs Hrecs. injection H as <-.
  apply (convert_lines_records class_id _ [] recs (Forall_nil _)) in Hrecs.
  assert (Hlines : Forall (fun line => exists v0 v1 v2 v3 v4,
                               parse_floats line = Ok [v0; v1; v2; v3; v4])
                          (Str.readlines (Str.join (String Str.nl EmptyString) recs))).
  { eapply Forall_impl; [| apply readlines_join].
    - intros line [rec [Hin Hl]]. rewrite Forall_forall in Hrecs.
      destruct (Hrecs rec Hin) as [a [b [c [d ->]]]].
      apply (parse_record class_id a b c d). exact Hl.
    - eapply Forall_impl; [| exact Hrecs]. intros rec [a [b [c [d ->]]]].
      apply record_within_line. }
  split; [exact Hlines | split].
  - intros class_id'. apply convert_text_all_skipped.
    eapply Forall_impl; [| exact Hlines]. intros line [v0 [v1 [v2 [v3 [v4 E]]]]].
    unfold kept_by_converter. rewrite E. reflexivity.
  - intros fillPoly h w. unfold rasterize.
    destruct (Np.zeros h w) as [z |]; [| reflexivity]. cbn [bind].
    apply fill_lines_skipped. eapply Forall_impl; [| exact Hlines].
    intros line [v0 [v1 [v2 [v3 [v4 E]]]]]. exists [v0; v1; v2; v3; v4].
    split; [exact E | simpl; lia].
Qed.

(** The box file of two squares. *)
Lemma box_file_of_two_squares :
  exists out,
    convert_text 0 (Examples.square ++ Examples.newline ++ Examples.square) = Ok out /\
    Forall (fun line => exists v0 v1 v2 v3 v4, parse_floats line = Ok [v0; v1; v2; v3; v4])
           (Str.readlines out) /\
    (forall class_id', convert_text class_id' out = Ok "") /\
    (forall fillPoly h w, rasterize fillPoly out h w = Np.zeros h w).
Proof.
  destruct (convert_text 0 (Examples.square ++ Examples.newline ++ Examples.square))
    as [out | e] eqn:E; [| vm_compute in E; discriminate].
  exists out. split; [reflexivity |].
  exact (box_file_has_no_polygon 0 _ out E).
Defined.

(* ================================================================= *)
(** ** The extractor on a well-formed label file *)

Lemma components_loop_returns (labels : Np.image) (stats : list (list Z)) (idx : list Z) :
  (forall i, In i idx ->
             exists x y w_box h_box area,
               nth_error stats (Z.to_nat i) = Some [x; y; w_box; h_box; area]) ->
  forall masks boxes,
    exists ms bs, components_loop labels stats idx masks boxes = Ok (ms, bs).
Proof.
  induction idx as [| i rest IH]; intros Hrows masks boxes; cbn [components_loop].
  - eauto.
  - destruct (Hrows i (or_introl eq_refl)) as [x [y [w_box [h_box [area E]]]]].
    unfold getitem. rewrite E. cbn [bind].
    apply IH. intros j Hj. apply Hrows. right. exact Hj.
Qed.

Section ExtractorTotal.

Variable fillPoly : Np.image -> list (Z * Z) -> result Np.image.
Variable connectedComponentsWithStats : Np.image -> result components.

Local Abbreviation extract := (extract_masks_and_bboxes fillPoly connectedComponentsWithStats).
Local Abbreviation contract := (contract_holds fillPoly connectedComponentsWithStats).
Local Abbreviation returns := (labelling_returns fillPoly connectedComponentsWithStats).

Lemma fill_lines_returns (h w : Z) (lines : list string) :
  0 <= h < 2 ^ 53 -> 0 <= w < 2 ^ 53 ->
  (forall mask polygon, is_ok (fillPoly mask polygon) = true) ->
  Forall (fun line => valid_polygon_line line \/ skipped_by_extractor line) lines ->
  forall base_mask, exists m, fill_lines fillPoly h w lines base_mask = Ok m.
Proof.
  intros Hh Hw Hfill. induction 1 as [| line rest Hline _ IH]; intros base_mask.
  - exists base_mask. reflexivity.
  - destruct Hline as [[cls [vertices [Hp [Hlen Hunit]]]] | [items [Hp Hlen]]].
    + destruct (polygon_loop_vertices vertices w h Hunit Hw Hh (List.length vertices) 0 []
                  ltac:(lia)) as [points [Hpts _]].
      cbn [fill_lines]. rewrite Hp. cbn [bind tl]. rewrite length_flatten.
      destruct (Nat.ltb_spec (2 * List.length vertices) 6); [lia |].
      rewrite range_by_2_even_length, Hpts. cbn [bind app].
      specialize (Hfill base_mask points).
      destruct (fillPoly base_mask points) as [m1 |]; [| discriminate]. cbn [bind].
      apply IH.
    + cbn [fill_lines]. rewrite Hp. cbn [bind]. apply Nat.ltb_lt in Hlen. rewrite Hlen.
      apply IH.
Qed.

(** X20. On a label file in which every line is a valid polygon record or
    is skipped, and for an image with sides below [2^53], the extractor
    raises nothing of its own: when the two OpenCV calls return, and the
    labelling meets its contract, the extractor returns its masks and
    boxes. *)
Theorem extractor_returns_on_valid_file (text : string) (h w : Z) :
  0 <= h < 2 ^ 53 -> 0 <= w < 2 ^ 53 ->
  Forall (fun line => valid_polygon_line line \/ skipped_by_extractor line)
         (Str.readlines text) ->
  (forall mask polygon, is_ok (fillPoly mask polygon) = true) ->
  returns text h w ->
  contract text h w ->
  exists masks boxes, extract text (h, w) = Ok (masks, boxes).
Proof.
  intros Hh Hw Hlines Hfill Hret Hcontract.
  destruct (Np.zeros h w) as [z |] eqn:Hz.
  2:{ unfold Np.zeros in Hz. destruct (Z.ltb_spec h 0); [lia |].
      destruct (Z.ltb_spec w 0); [lia | discriminate]. }
  destruct (fill_lines_returns h w _ Hh Hw Hfill Hlines z) as [base Hf].
  assert (Hbase : rasterize fillPoly text h w = Ok base).
  { unfold rasterize. rewrite Hz. exact Hf. }
  specialize (Hret base Hbase). specialize (Hcontract base).
  unfold extract_masks_and_bboxes. rewrite Hbase. cbn [bind].
  destruct (connectedComponentsWithStats base) as [[[n labels] stats] |]; [| discriminate].
  specialize (Hcontract _ Hbase eq_refl). cbn [bind].
  apply components_loop_returns. intros i Hi.
  destruct (contract_label _ _ _ _ _ Hcontract Hi)
    as [_ [_ [_ [c0 [r0 [c1 [r1 [area [Hrow _]]]]]]]]].
  eauto 6.
Qed.

End ExtractorTotal.

(** The two triangles on an image of height 10 and width 12. *)
Lemma extractor_returns_on_two_triangles :
  exists masks boxes, Reference.extract Examples.two_triangles (10, 12) = Ok (masks, boxes).
Proof.
  apply (extractor_returns_on_valid_file Reference.fillPoly
           Reference.connectedComponentsWithStats Examples.two_triangles 10 12).
  - split; [lia | reflexivity].
  - split; [lia | reflexivity].
  - let l := eval vm_compute in (Str.readlines Examples.two_triangles) in
    change (Str.readlines Examples.two_triangles) with l.
    apply Forall_cons; [| apply Forall_cons; [| apply Forall_nil]]; left.
    + exists 0%float,
        [(0x1.999999999999ap-4, 0x1.999999999999ap-4)%float;
         (0x1.3333333333333p-2, 0x1.999999999999ap-4)%float;
         (0x1.999999999999ap-4, 0x1.3333333333333p-2)%float].
      split; [vm_compute; reflexivity | split; [simpl; lia |]].
      repeat constructor; vm_compute; reflexivity.
    + exists 0%float,
        [(0x1.3333333333333p-1, 0x1.3333333333333p-1)%float;
         (0x1.ccccccccccccdp-1, 0x1.3333333333333p-1)%float;
         (0x1.ccccccccccccdp-1, 0x1.ccccccccccccdp-1)%float].
      split; [vm_compute; reflexivity | split; [simpl; lia |]].
      repeat constructor; vm_compute; reflexivity.
  - intros mask polygon. reflexivity.
  - intros base Hb. reflexivity.
  - exact reference_contract_two_triangles.
Defined.

(** *** The label file of an image *)

Lemma rfind_absent (c : ascii) (s : string) : no_char c s = true -> Path.rfind c s = -1.
Proof.
  unfold no_char. induction s as [| a r IH]; [reflexivity |]. cbn [string_forall Path.rfind].
  intros H. apply andb_prop in H. destruct H as [Ha Hr]. rewrite (IH Hr).
  destruct (Ascii.eqb a c); [discriminate | reflexivity].
Qed.

Lemma rfind_last (c : ascii) (s e : string) :
  no_char c e = true -> Path.rfind c (s ++ String c e) = Z.of_nat (String.length s).
Proof.
  intros He. induction s as [| a r IH].
  - cbn [append Path.rfind String.length]. rewrite (rfind_absent c e He), Ascii.eqb_refl.
    reflexivity.
  - cbn [append Path.rfind String.length]. rewrite IH.
    destruct (Z.leb_spec 0 (Z.of_nat (String.length r))); lia.
Qed.

Lemma substring_all (s : string) : substring 0 (String.length s) s = s.
Proof. induction s as [| c r IH]; [reflexivity |]. simpl. rewrite IH. reflexivity. Qed.

Lemma substring_prefix (s t : string) : substring 0 (String.length s) (s ++ t) = s.
Proof.
  induction s as [| c r IH]; simpl; [destruct t; reflexivity |]. rewrite IH. reflexivity.
Qed.

Lemma substring_suffix (s t : string) :
  substring (String.length s) (String.length (s ++ t) - String.length s) (s ++ t) = t.
Proof.
  induction s as [| c r IH]; simpl.
  - rewrite Nat.sub_0_r. apply substring_all.
  - exact IH.
Qed.

Lemma no_char_app (c : ascii) (s t : string) :
  no_char c (s ++ t) = no_char c s && no_char c t.
Proof. apply string_forall_app. Qed.

(** X21. The key of an image and the name of its label file: for a file
    name [stem.ext] without separators, whose stem is not made of dots only
    and whose extension has no dot, the key is the stem, so that the label
    file read for the image is [stem.txt]. *)
Theorem key_of_an_image (stem ext : string) :
  no_char "/" stem = true -> no_char "092" stem = true ->
  no_char "/" ext = true -> no_char "092" ext = true -> no_char "." ext = true ->
  Path.has_other "." stem = true ->
  Path.splitext (stem ++ "." ++ ext) = (stem, ("." ++ ext)%string) /\
  (forall (D : Type) imread fillPoly connectedComponentsWithStats (image_dir label_dir : D)
          s m img_shape,
      read_image imread image_dir (stem ++ "." ++ ext) s = Some img_shape ->
      aggregate_files imread fillPoly connectedComponentsWithStats image_dir label_dir
        [(stem ++ "." ++ ext)%string] s m
      = match extract_masks_and_bboxes_at fillPoly connectedComponentsWithStats
                label_dir (stem ++ ".txt") img_shape s with
        | Raise e => (m, Some (raised e))
        | Ok (masks, boxes) =>
            ((Dict.setitem (fst m) stem (map (fun mask => gt_scalar mask 0) masks),
              Dict.setitem (snd m) stem boxes), None)
        end).
Proof.
  intros Hs1 Hs2 He1 He2 Hd Hother.
  assert (E : Path.splitext (stem ++ "." ++ ext) = (stem, ("." ++ ext)%string)).
  { unfold Path.splitext, Path.splitext_generic.
    change ("." ++ ext)%string with (String "." ext).
    assert (Hsep1 : Path.rfind "092" (stem ++ String "." ext) = -1).
    { apply rfind_absent. rewrite no_char_app, Hs2. unfold no_char in *.
      cbn [string_forall]. rewrite He2. reflexivity. }
    assert (Hsep2 : Path.rfind "/" (stem ++ String "." ext) = -1).
    { apply rfind_absent. rewrite no_char_app, Hs1. unfold no_char in *.
      cbn [string_forall]. rewrite He1. reflexivity. }
    rewrite Hsep1, Hsep2, (rfind_last "." stem ext Hd).
    change (Z.max (-1) (-1)) with (-1). change (-1 + 1) with 0.
    unfold Path.upto, Path.from. rewrite Nat2Z.id. change (Z.to_nat 0) with O.
    rewrite substring_prefix, Nat.sub_0_r, substring_all, Hother.
    destruct (Z.ltb_spec (-1) (Z.of_nat (String.length stem))); [| lia].
    cbn [andb]. rewrite substring_suffix. reflexivity. }
  split; [exact E |].
  intros D imread fillPoly cc image_dir label_dir s m img_shape Hr.
  cbn [aggregate_files]. rewrite E, Hr. cbn [fst].
  destruct (extract_masks_and_bboxes_at fillPoly cc label_dir (stem ++ ".txt") img_shape s)
    as [[masks boxes] | e]; reflexivity.
Qed.

(** The image [pothole.12.jpg]. *)
Lemma key_of_pothole_12 :
  Path.splitext ("pothole.12" ++ "." ++ "jpg") = ("pothole.12", ("." ++ "jpg")%string).
Proof.
  apply (key_of_an_image "pothole.12" "jpg"); reflexivity.
Defined.

(** *** Coordinates that are NaN in [min] and [max] *)

Lemma ltb_nan_l (x y : float) : isnan x = true -> (x <? y)%float = false.
Proof.
  unfold isnan. intros H. rewrite ltb_spec.
  destruct (Prim2SF x); try discriminate. reflexivity.
Qed.

Lemma ltb_nan_r (x y : float) : isnan y = true -> (x <? y)%float = false.
Proof.
  unfold isnan. intros H. rewrite ltb_spec.
  destruct (Prim2SF y); try discriminate. destruct (Prim2SF x); reflexivity.
Qed.

Lemma fold_min_step_nan (l : list float) :
  forall x,
    fold_left Float.min_step l x
    = fold_left Float.min_step (filter (fun y => negb (isnan y)) l) x /\
    (isnan x = true -> fold_left Float.min_step l x = x).
Proof.
  induction l as [| a r IH]; intros x; cbn [fold_left filter]; [auto |].
  destruct (IH (Float.min_step x a)) as [I1 I2]. split.
  - destruct (isnan a) eqn:Ea; cbn [negb fold_left]; [| exact I1].
    unfold Float.min_step at 2. rewrite (ltb_nan_l a x Ea). apply IH.
  - intros Hx. assert (E : Float.min_step x a = x).
    { unfold Float.min_step. rewrite (ltb_nan_r a x Hx). reflexivity. }
    rewrite E. apply IH. exact Hx.
Qed.

Lemma fold_max_step_nan (l : list float) :
  forall x,
    fold_left Float.max_step l x
    = fold_left Float.max_step (filter (fun y => negb (isnan y)) l) x /\
    (isnan x = true -> fold_left Float.max_step l x = x).
Proof.
  induction l as [| a r IH]; intros x; cbn [fold_left filter]; [auto |].
  destruct (IH (Float.max_step x a)) as [I1 I2]. split.
  - destruct (isnan a) eqn:Ea; cbn [negb fold_left]; [| exact I1].
    unfold Float.max_step at 2. rewrite (ltb_nan_r x a Ea). apply IH.
  - intros Hx. assert (E : Float.max_step x a = x).
    { unfold Float.max_step. rewrite (ltb_nan_l x a Hx). reflexivity. }
    rewrite E. apply IH. exact Hx.
Qed.

(** X22. A coordinate that is a NaN is not reported by the converter: in
    [min] and [max] a NaN after the first item of the sequence is passed over,
    as if it were not there, and a NaN that is the first item is the result of
    both, whatever the other items are. *)
Theorem nan_in_min_and_max (x : float) (l : list float) :
  Float.min (x :: l) = Float.min (x :: filter (fun y => negb (isnan y)) l) /\
  Float.max (x :: l) = Float.max (x :: filter (fun y => negb (isnan y)) l) /\
  (isnan x = true -> Float.min (x :: l) = Ok x /\ Float.max (x :: l) = Ok x).
Proof.
  unfold Float.min, Float.max.
  destruct (fold_min_step_nan l x) as [M1 M2]. destruct (fold_max_step_nan l x) as [X1 X2].
  split; [f_equal; exact M1 | split; [f_equal; exact X1 |]].
  intros Hx. rewrite (M2 Hx), (X2 Hx). split; reflexivity.
Qed.

(** A NaN in the second vertex leaves no trace in the record; a NaN in the
    first vertex is printed. *)
Example nan_in_a_record :
  convert_text 0 "0 0.1 0.2 nan 0.4 0.5 0.6" = Ok "0 0.300000 0.400000 0.400000 0.400000" /\
  convert_text 0 "0 nan 0.2 0.3 0.4 0.5 0.6" = Ok "0 nan 0.400000 nan 0.400000".
Proof. split; vm_compute; reflexivity. Qed.

(** *** An image that cannot be read *)

Section UnreadableImage.

Context {D : Type}.

Variable imread : string -> option (Z * Z).
Variable fillPoly : Np.image -> list (Z * Z) -> result Np.image.
Variable connectedComponentsWithStats : Np.image -> result components.

Local Abbreviation extract_at :=
  (extract_masks_and_bboxes_at fillPoly connectedComponentsWithStats).
Local Abbreviation loop := (aggregate_files imread fillPoly connectedComponentsWithStats).
Local Abbreviation cell := (aggregate imread fillPoly connectedComponentsWithStats).

Lemma loop_app (image_dir label_dir : D) (s : FS.t D) (before rest : list string) :
  forall m,
    snd (loop image_dir label_dir before s m) = None ->
    loop image_dir label_dir (before ++ rest) s m
    = loop image_dir label_dir rest s (fst (loop image_dir label_dir before s m)).
Proof.
  induction before as [| f r IH]; intros m; cbn [app aggregate_files]; [reflexivity |].
  destruct (read_image imread image_dir f s) as [sh |]; [| discriminate].
  destruct (extract_at label_dir (fst (Path.splitext f) ++ ".txt") sh s)
    as [[masks boxes] | e]; [| discriminate].
  apply IH.
Qed.

(** X23. A file of the image directory that [cv2.imread] cannot decode (a
    file that is no image) stops the loop over the images: when the files
    listed before it are processed without an exception, the loop ends at it
    with the error that [cv2.cvtColor] raises in [read_image], the mappings
    hold the entries of the files before it, and the files after it are not
    read. *)
Theorem unreadable_image_stops_the_loop (image_dir label_dir : D) (s : FS.t D)
  (images : FS.dir) (before after : list string) (file : string) :
  s image_dir = Some images ->
  map fst images = before ++ file :: after ->
  snd (loop image_dir label_dir before s ([], [])) = None ->
  read_image imread image_dir file s = None ->
  cell image_dir label_dir s
  = (fst (loop image_dir label_dir before s ([], [])), Some cv2_error).
Proof.
  intros Hs Hl Hb Hr. unfold aggregate, FS.listdir. rewrite Hs, Hl.
  rewrite (loop_app image_dir label_dir s before (file :: after) _ Hb).
  cbn [aggregate_files]. rewrite Hr. reflexivity.
Qed.

End UnreadableImage.

(** An image directory with an image and a file that is none. *)
Lemma unreadable_image_example :
  aggregate example_imread Reference.fillPoly Reference.connectedComponentsWithStats
    Examples.Images Examples.Labels image_and_other_file
  = (fst (aggregate_files example_imread Reference.fillPoly
            Reference.connectedComponentsWithStats Examples.Images Examples.Labels ["t.jpg"]
            image_and_other_file ([], [])),
     Some cv2_error).
Proof.
  apply (unreadable_image_stops_the_loop example_imread Reference.fillPoly
           Reference.connectedComponentsWithStats Examples.Images Examples.Labels image_and_other_file
           [("t.jpg", "image 10 12"); ("Thumbs.db", "thumbnails")] ["t.jpg"] [] "Thumbs.db").
  - reflexivity.
  - reflexivity.
  - vm_compute. reflexivity.
  - reflexivity.
Defined.
